(** * DBSCAN density clustering of Muster ([src/density.h]): model and properties

    The development embeds class [cluster::density] of [density.h]: the
    brute-force neighbourhood query [epsilon_range_query], the cluster
    expansion [expand_cluster] with its growing seed list, and the driver
    [dbscan].

    Conventions.
    - [size_t] values that are counted upwards ([current_cluster_id_],
      [total_clusters_]) and the labels stored in [cluster_ids] are [N]
      with the 64-bit wrap-around written out ([size_incr]).  Positions in
      [objects] and [cluster_ids] are [nat]: every loop counter of the
      source is compared against [objects.size()] before it is used.
    - [double] is Rocq's primitive binary64 [float]; the comparison of the
      source is [PrimFloat.ltb], which is [false] on NaN like the C++ [<].
    - The member functions are written in a small monad [M]: state passing
      over the object, a failure for an out-of-range [operator[]]
      (undefined behaviour in C++), a failure for an exhausted iteration
      budget of the seed-list loop (the only unbounded loop), and a ghost
      log of the assignments [cluster_ids[j] = v] in program order. *)

From Stdlib Require Import Floats NArith Lia.
From stdpp Require Import base list sorting.

Local Open Scope N_scope.
Local Open Scope nat_scope.

(** ** Machine integers *)

Definition SIZE_MODULUS : N := (2 ^ 64)%N.

(** [x++] on a [size_t]. *)
Definition size_incr (x : N) : N := ((x + 1) mod SIZE_MODULUS)%N.

(** ** The enum of class [density] *)

Definition UNCLASSIFIED  : N := 0%N.
Definition NOISE         : N := 1%N.
Definition FIRST_CLUSTER : N := 2%N.

(** ** Ghost log of assignments to [cluster_ids] *)

Inductive site : Type :=
| SeedNoise          (* line 129: cluster_ids[current_object] = NOISE *)
| SeedNeighbourhood  (* line 137: cluster_ids[current_seed] = current_cluster_id_ *)
| Absorb.            (* line 170: cluster_ids[current_neighbour_neighbour] = current_cluster_id_ *)

Record write : Type := Write {
  w_site  : site;
  w_seed  : nat;   (* [current_object] of the running [expand_cluster] *)
  w_index : nat;   (* position written *)
  w_old   : N;     (* value held before the assignment *)
  w_new   : N      (* value assigned *)
}.

(** ** Outcomes *)

Inductive result (A : Type) : Type :=
| Ok (a : A)
| OutOfRange   (* operator[] past the end of a vector *)
| OutOfFuel.   (* the seed-list loop did not finish within the budget *)

Arguments Ok {A} a.
Arguments OutOfRange {A}.
Arguments OutOfFuel {A}.

Section Density.

(** [T] is the object type, [random_type] and [rng_type] the types of the
    two random-number members (lines 109-114). *)
Context {T random_type rng_type : Type}.

(** The object.  Modelled from the spec: [cluster_ids] and [medoid_ids]
    are inherited from the base class [partition] (partition.h is not
    part of the sources); the spec describes them as the assignment array
    of labels and the ordered list of representative object indices. *)
Record density : Type := Density {
  cluster_ids         : list N;
  medoid_ids          : list nat;
  random_             : random_type;
  rng_                : rng_type;
  epsilon_            : float;
  min_points_         : N;
  current_cluster_id_ : N;
  total_clusters_     : N
}.

Definition set_cluster_ids (f : list N → list N) (s : density) : density :=
  Density (f (cluster_ids s)) (medoid_ids s) (random_ s) (rng_ s)
          (epsilon_ s) (min_points_ s) (current_cluster_id_ s) (total_clusters_ s).

Definition set_medoid_ids (f : list nat → list nat) (s : density) : density :=
  Density (cluster_ids s) (f (medoid_ids s)) (random_ s) (rng_ s)
          (epsilon_ s) (min_points_ s) (current_cluster_id_ s) (total_clusters_ s).

Definition set_epsilon (e : float) (s : density) : density :=
  Density (cluster_ids s) (medoid_ids s) (random_ s) (rng_ s)
          e (min_points_ s) (current_cluster_id_ s) (total_clusters_ s).

Definition set_min_points (m : N) (s : density) : density :=
  Density (cluster_ids s) (medoid_ids s) (random_ s) (rng_ s)
          (epsilon_ s) m (current_cluster_id_ s) (total_clusters_ s).

Definition set_current_cluster_id (f : N → N) (s : density) : density :=
  Density (cluster_ids s) (medoid_ids s) (random_ s) (rng_ s)
          (epsilon_ s) (min_points_ s) (f (current_cluster_id_ s)) (total_clusters_ s).

Definition set_total_clusters (f : N → N) (s : density) : density :=
  Density (cluster_ids s) (medoid_ids s) (random_ s) (rng_ s)
          (epsilon_ s) (min_points_ s) (current_cluster_id_ s) (f (total_clusters_ s)).

(** Modelled from the spec: the constructor [density(size_t num_objects = 0)]
    is defined outside the header.  The spec gives the state at the start
    of a run: an empty assignment array and medoid list,
    [current_cluster_id] starting at [FIRST_CLUSTER] and no cluster
    counted.  The random-number members are whatever the constructor
    seeded them with. *)
Definition fresh (r : random_type) (g : rng_type) (e : float) (m : N) : density :=
  Density [] [] r g e m FIRST_CLUSTER 0%N.

(** ** The monad *)

Definition M (A : Type) : Type := density → result (A * density * list write).

Definition ret {A} (a : A) : M A := λ s, Ok (a, s, []).

Definition bind {A B} (m : M A) (f : A → M B) : M B :=
  λ s, match m s with
       | Ok (a, s1, l1) =>
           match f a s1 with
           | Ok (b, s2, l2) => Ok (b, s2, l1 ++ l2)
           | OutOfRange => OutOfRange
           | OutOfFuel => OutOfFuel
           end
       | OutOfRange => OutOfRange
       | OutOfFuel => OutOfFuel
       end.

Definition gets {A} (f : density → A) : M A := λ s, Ok (f s, s, []).

Definition modify (f : density → density) : M unit := λ s, Ok (tt, f s, []).

Definition out_of_fuel {A} : M A := λ _, OutOfFuel.

(** [objects[i]] *)
Definition object_at (objects : list T) (i : nat) : M T :=
  λ s, match objects !! i with
       | Some x => Ok (x, s, [])
       | None => OutOfRange
       end.

(** [cluster_ids[i]] read *)
Definition get_cluster_id (i : nat) : M N :=
  λ s, match cluster_ids s !! i with
       | Some v => Ok (v, s, [])
       | None => OutOfRange
       end.

(** [cluster_ids[i] = v], logged with the site and the running seed *)
Definition set_cluster_id (st : site) (seed i : nat) (v : N) : M unit :=
  λ s, match cluster_ids s !! i with
       | Some old => Ok (tt, set_cluster_ids (λ ids, <[i := v]> ids) s,
                         [Write st seed i old v])
       | None => OutOfRange
       end.

End Density.

Arguments density : clear implicits.
Arguments M : clear implicits.

Declare Scope dbscan_scope.
Delimit Scope dbscan_scope with dbscan.
Notation "'let*' x ':=' m 'in' f" := (bind m (λ x, f))
  (at level 10, x name, m at level 100, f at level 200, only parsing) : dbscan_scope.
Notation "'do' m 'then' f" := (bind m (λ _, f))
  (at level 10, m at level 100, f at level 200, only parsing) : dbscan_scope.

Section Algorithm.

Context {T random_type rng_type : Type}.
Abbreviation density := (density random_type rng_type).
Abbreviation M := (M random_type rng_type).
Local Open Scope dbscan_scope.

(** A [for] loop over the elements of [l], threading the local variables
    [b] of the loop. *)
Fixpoint foldM {A B} (body : B → A → M B) (l : list A) (b : B) : M B :=
  match l with
  | [] => ret b
  | x :: l' => let* b' := body b x in foldM body l' b'
  end.

(** [for (size_t i = 0; i < n; i++) body] *)
Definition for_range {B} (n : nat) (body : nat → B → M B) (b : B) : M B :=
  foldM (λ b i, body i b) (seq 0 n) b.

(** Lines 185-193: the body of the loop of [epsilon_range_query];
    [result] is the local list. *)
Definition range_query_step (objects : list T) (dmetric : T → T → float)
    (current_object : nat) (result : list nat) (i : nat) : M (list nat) :=
  if decide (i = current_object) then
    ret (result ++ [i])
  else
    let* a := object_at objects current_object in
    let* b := object_at objects i in
    let* eps := gets epsilon_ in
    if PrimFloat.ltb (dmetric a b) eps then ret (result ++ [i])
    else ret result.

(** Lines 180-197. *)
Definition epsilon_range_query (objects : list T) (dmetric : T → T → float)
    (current_object : nat) : M (list nat) :=
  for_range (length objects)
    (λ i result, range_query_step objects dmetric current_object result i) [].

(** Lines 136-143: the body of the first loop of [expand_cluster]; [kept]
    is the part of the seed list already passed and not erased. *)
Definition label_seed_step (current_object : nat) (kept : list nat)
    (current_seed : nat) : M (list nat) :=
  let* c := gets current_cluster_id_ in
  do set_cluster_id SeedNeighbourhood current_object current_seed c then
  if decide (current_seed = current_object) then ret kept
  else ret (kept ++ [current_seed]).

(** Lines 133-144: label the neighbourhood of the seed and erase the seed
    from the list.  The value is the seed list after the loop. *)
Definition label_seed_list (current_object : nat) (seed_list : list nat)
    : M (list nat) :=
  foldM (label_seed_step current_object) seed_list [].

(** Lines 162-171: the body of the loop over one neighbour's
    neighbourhood; [pushed] are the positions pushed to the back of the
    seed list so far. *)
Definition absorb_step (current_object : nat) (pushed : list nat)
    (current_neighbour_neighbour : nat) : M (list nat) :=
  let* v := get_cluster_id current_neighbour_neighbour in
  if (v =? UNCLASSIFIED)%N || (v =? NOISE)%N then
    let* c := gets current_cluster_id_ in
    do set_cluster_id Absorb current_object current_neighbour_neighbour c then
    if (v =? UNCLASSIFIED)%N then ret (pushed ++ [current_neighbour_neighbour])
    else ret pushed
  else ret pushed.

(** Lines 159-172. *)
Definition absorb_neighbours (current_object : nat)
    (neighbour_seed_list : list nat) : M (list nat) :=
  foldM (absorb_step current_object) neighbour_seed_list [].

(** Lines 151-174: the body of the seed-list loop for one element. *)
Definition visit_seed (objects : list T) (dmetric : T → T → float)
    (current_object current_neighbour : nat) : M (list nat) :=
  let* neighbour_seed_list := epsilon_range_query objects dmetric current_neighbour in
  let* mp := gets min_points_ in
  if (mp <=? N.of_nat (length neighbour_seed_list))%N then
    absorb_neighbours current_object neighbour_seed_list
  else ret [].

(** Lines 147-175.  The iterator of the source walks a list that grows at
    its back; [seed_list] here is the part from the iterator to the end.
    [fuel] bounds the number of elements visited. *)
Fixpoint expand_seeds (fuel : nat) (objects : list T) (dmetric : T → T → float)
    (current_object : nat) (seed_list : list nat) : M unit :=
  match seed_list with
  | [] => ret tt
  | current_neighbour :: rest =>
      match fuel with
      | O => out_of_fuel
      | S fuel' =>
          let* pushed := visit_seed objects dmetric current_object current_neighbour in
          expand_seeds fuel' objects dmetric current_object (rest ++ pushed)
      end
  end.

(** Lines 123-178. *)
Definition expand_cluster (fuel : nat) (objects : list T) (dmetric : T → T → float)
    (current_object : nat) : M bool :=
  let* seed_list := epsilon_range_query objects dmetric current_object in
  let* mp := gets min_points_ in
  if (N.of_nat (length seed_list) <? mp)%N then
    do set_cluster_id SeedNoise current_object current_object NOISE then
    ret false
  else
    let* seed_list' := label_seed_list current_object seed_list in
    do expand_seeds fuel objects dmetric current_object seed_list' then
    ret true.

(** Lines 98-104: the body of the scan of [dbscan]. *)
Definition scan_step (fuel : nat) (objects : list T) (dmetric : T → T → float)
    (i : nat) : M unit :=
  let* v := get_cluster_id i in
  if (v =? UNCLASSIFIED)%N then
    let* started := expand_cluster fuel objects dmetric i in
    if started then
      do modify (set_medoid_ids (λ m, m ++ [i])) then
      do modify (set_current_cluster_id size_incr) then
      modify (set_total_clusters size_incr)
    else ret tt
  else ret tt.

(** Lines 88-106. *)
Definition dbscan (fuel : nat) (objects : list T) (dmetric : T → T → float)
    (epsilon : float) (min_points : N) : M unit :=
  do modify (set_epsilon epsilon) then
  do modify (set_min_points min_points) then
  do for_range (length objects) (λ _ _,
       modify (set_cluster_ids (λ ids, ids ++ [UNCLASSIFIED]))) tt then
  for_range (length objects) (λ i _, scan_step fuel objects dmetric i) tt.

End Algorithm.

(** ** Concrete runs *)

Definition absdiff (a b : float) : float := PrimFloat.abs (a - b)%float.

Definition fresh0 : density unit unit := fresh tt tt 0%float 0%N.

Definition run_labels (fuel : nat) (objects : list float) (eps : float) (mp : N)
    : option (list N * list nat * N) :=
  match dbscan fuel objects absdiff eps mp fresh0 with
  | Ok (_, s, _) => Some (cluster_ids s, medoid_ids s, total_clusters_ s)
  | _ => None
  end.

(** Seven points on a line; with [epsilon = 3] and [min_points = 4] the
    point at position 3 lies within [epsilon] of the core points at
    positions 2 and 4, which start two clusters, and is itself no core
    point. *)
Definition border_objects : list float := [0; 0; 2; 4; 6; 8; 8]%float.

(** Two points further apart than [epsilon = 1]. *)
Definition far_objects : list float := [0; 10]%float.

(** An instance in the middle of a run over four objects. *)
Definition four_unclassified : density unit unit :=
  Density [0; 0; 0; 0]%N [] tt tt 1%float 2%N 2%N 0%N.

(** Three objects at the same place. *)
Definition near_objects : list float := [0; 0; 0]%float.

(** An instance after a run over four objects that found one cluster. *)
Definition used_instance : density unit unit :=
  Density [1; 2; 2; 2]%N [1] tt tt 1%float 2%N 3%N 1%N.


(** ** Notions used to state the properties *)

Section Neighbours.

Context {T : Type}.
Variables (objects : list T) (dmetric : T → T → float).

(** [within eps i j]: position [j] passes the test of lines 185-193 in a
    query for position [i]. *)
Definition within (eps : float) (i j : nat) : bool :=
  bool_decide (j = i) ||
  match objects !! i, objects !! j with
  | Some a, Some b => PrimFloat.ltb (dmetric a b) eps
  | _, _ => false
  end.

(** The positions that pass the test, in ascending order.  This is the
    list that [epsilon_range_query] returns for a position of [objects]
    (lemma [epsilon_range_query_spec]). *)
Definition neighbourhood (eps : float) (i : nat) : list nat :=
  filter (λ j, Is_true (within eps i j)) (seq 0 (length objects)).

(** A core point: its neighbourhood has at least [mp] positions (the test
    of line 158, and the negation of the test of line 128). *)
Definition is_core (eps : float) (mp : N) (i : nat) : bool :=
  (mp <=? N.of_nat (length (neighbourhood eps i)))%N.

(** The positions examined by the loop of lines 159-172 when the seed list
    reaches position [i]. *)
Definition examined (eps : float) (mp : N) (i : nat) : list nat :=
  if is_core eps mp i then neighbourhood eps i else [].

End Neighbours.

Section Notions.

Context {T random_type rng_type : Type}.
Variables (objects : list T) (dmetric : T → T → float).
Implicit Types (s : density random_type rng_type) (ids : list N).

(** *** Effects of the loops on the assignment array *)

(** Replace the assignment array. *)
Definition with_ids ids s : density random_type rng_type :=
  set_cluster_ids (λ _, ids) s.

(** The test of lines 165-166. *)
Definition absorbable (v : N) : bool := (v =? UNCLASSIFIED)%N || (v =? NOISE)%N.

(** The assignment of line 170 for position [q], when it is executed. *)
Definition absorb_write (seed : nat) (c : N) ids0 (q : nat) : option write :=
  match ids0 !! q with
  | Some v => if absorbable v then Some (Write Absorb seed q v c) else None
  | None => None
  end.

(** [absorbed c l ids ids']: [ids'] is [ids] after the positions of [l]
    that held [UNCLASSIFIED] or [NOISE] were given [c]. *)
Definition absorbed (c : N) (l : list nat) ids ids' : Prop :=
  length ids' = length ids
  ∧ (∀ q v, q ∈ l → ids !! q = Some v → ids' !! q = Some (if absorbable v then c else v))
  ∧ (∀ q, q ∉ l → ids' !! q = ids !! q).

(** [labelled c l ids ids']: [ids'] is [ids] after every position of [l]
    was given [c]. *)
Definition labelled (c : N) (l : list nat) ids ids' : Prop :=
  length ids' = length ids
  ∧ (∀ q, q ∈ l → ids' !! q = Some c)
  ∧ (∀ q, q ∉ l → ids' !! q = ids !! q).

(** The positions of [l] that hold [UNCLASSIFIED]: those that line 168
    pushes to the back of the seed list. *)
Definition unclassified_in ids (l : list nat) : list nat :=
  filter (λ q, ids !! q = Some UNCLASSIFIED) l.

(** The positions that still hold [UNCLASSIFIED]. *)
Definition unclassified ids : list nat :=
  unclassified_in ids (seq 0 (length ids)).

(** The log of the labelling loop of lines 133-144 for seed [seed]. *)
Definition label_log (seed : nat) (c : N) ids (l : list nat) : list write :=
  (λ j, Write SeedNeighbourhood seed j (default 0%N (ids !! j)) c) <$> l.

(** [prefix_log l r]: the outcome [r] with [l] put in front of its log. *)
Definition prefix_log {A} (l : list write)
    (r : result (A * density random_type rng_type * list write))
    : result (A * density random_type rng_type * list write) :=
  match r with
  | Ok (a, s, l') => Ok (a, s, l ++ l')
  | OutOfRange => OutOfRange
  | OutOfFuel => OutOfFuel
  end.

(** *** Invariants of the seed-list loop and of the scan *)

(** The assignments made by the expansion of [seed] with cluster id [c]. *)
Definition cluster_write (seed : nat) (c : N) (w : write) : Prop :=
  w_seed w = seed ∧ w_new w = c
  ∧ (w_site w = SeedNeighbourhood
     ∨ (w_site w = Absorb ∧ absorbable (w_old w) = true)).

(** Invariant of the seed-list loop of the expansion of [seed] with cluster
    id [c], started on the assignment array [ids0]. *)
Definition expansion_inv (eps : float) (seed : nat) (c : N) ids0
    (pending : list nat) ids (log : list write) : Prop :=
  length ids = length ids0
  ∧ length objects ≤ length ids0
  ∧ (∀ p, p ∈ pending → p < length objects)
  ∧ (∀ q v, ids0 !! q = Some v → ids !! q = Some v ∨ ids !! q = Some c)
  ∧ (∀ q, q ∈ neighbourhood objects dmetric eps seed → ids !! q = Some c)
  ∧ Forall (cluster_write seed c) log
  ∧ Write SeedNeighbourhood seed seed (default 0%N (ids0 !! seed)) c ∈ log.

(** The state in which the scan of lines 97-105 starts. *)
Definition scan_start (epsilon : float) (min_points : N) s
    : density random_type rng_type :=
  with_ids (cluster_ids s ++ replicate (length objects) UNCLASSIFIED)
           (set_min_points min_points (set_epsilon epsilon s)).

(** The updates of lines 100-102. *)
Definition count_cluster (i : nat) s : density random_type rng_type :=
  set_total_clusters size_incr
    (set_current_cluster_id size_incr (set_medoid_ids (λ m, m ++ [i]) s)).

(** What the run allows an assignment to do, by the place it is made. *)
Definition ok_write (w : write) : Prop :=
  match w_site w with
  | SeedNoise =>
      w_old w = UNCLASSIFIED ∧ w_new w = NOISE ∧ w_index w = w_seed w
  | SeedNeighbourhood => (FIRST_CLUSTER ≤ w_new w)%N
  | Absorb =>
      (w_old w = UNCLASSIFIED ∨ w_old w = NOISE) ∧ (FIRST_CLUSTER ≤ w_new w)%N
  end.

(** The medoids [ms] found since the scan started in state [sp], the
    counters and the log. *)
Definition scan_medoids (sp : density random_type rng_type) (i : nat)
    (s : density random_type rng_type) (log : list write) (ms : list nat) : Prop :=
  medoid_ids s = medoid_ids sp ++ ms
  ∧ current_cluster_id_ s = (current_cluster_id_ sp + N.of_nat (length ms))%N
  ∧ total_clusters_ s = Nat.iter (length ms) size_incr (total_clusters_ sp)
  ∧ length ms ≤ i
  ∧ StronglySorted lt ms
  ∧ (∀ m, m ∈ ms → m < i)
  ∧ (∀ k m, ms !! k = Some m →
       Write SeedNeighbourhood m m UNCLASSIFIED
             (current_cluster_id_ sp + N.of_nat k)%N ∈ log)
  ∧ (∀ w, w ∈ log → w_site w ≠ SeedNoise →
       ∃ k, ms !! k = Some (w_seed w)
            ∧ w_new w = (current_cluster_id_ sp + N.of_nat k)%N).

(** The labels after the scan passed the positions below [i]. *)
Definition scan_labels (sp : density random_type rng_type) (i : nat)
    (s : density random_type rng_type) : Prop :=
  (∀ j, j < i → ∃ v, cluster_ids s !! j = Some v ∧ v ≠ UNCLASSIFIED)
  ∧ (∀ q v, cluster_ids s !! q = Some v →
       cluster_ids sp !! q = Some v ∨ v = NOISE
       ∨ (current_cluster_id_ sp ≤ v < current_cluster_id_ s)%N).

(** The invariant of the scan of lines 97-105 before it looks at position
    [i], with [sp] the state in which the scan started. *)
Definition scan_inv (sp : density random_type rng_type) (i : nat)
    (s : density random_type rng_type) (log : list write) : Prop :=
  epsilon_ s = epsilon_ sp
  ∧ min_points_ s = min_points_ sp
  ∧ length (cluster_ids s) = length (cluster_ids sp)
  ∧ (∃ ms, scan_medoids sp i s log ms)
  ∧ scan_labels sp i s
  ∧ Forall ok_write log.

(** *** The log as a history *)

(** [history ids log ids']: starting from [ids], each assignment of [log]
    finds its [w_old] at its position, and performing them in order gives
    [ids']. *)
Fixpoint history ids (log : list write) ids' : Prop :=
  match log with
  | [] => ids' = ids
  | w :: log' =>
      ids !! w_index w = Some (w_old w)
      ∧ history (<[w_index w := w_new w]> ids) log' ids'
  end.

(** [faithful m]: the log of [m] is the history of the array over [m]. *)
Definition faithful {A} (m : M random_type rng_type A) : Prop :=
  ∀ s a s' l, m s = Ok (a, s', l) → history (cluster_ids s) l (cluster_ids s').

(** *** Density containment *)

(** A core point is settled when every position of its neighbourhood holds
    a cluster id and every core point among them holds the point's own. *)
Definition settled (eps : float) (mp : N) ids (p : nat) : Prop :=
  ∀ q, q ∈ neighbourhood objects dmetric eps p →
    ∃ w, ids !! q = Some w ∧ (FIRST_CLUSTER ≤ w)%N
         ∧ (is_core objects dmetric eps mp q = true → ids !! p = Some w).

(** Every classified core point is settled or still on the seed list, and
    no core point is [NOISE]. *)
Definition density_inv (eps : float) (mp : N) (pending : list nat) ids : Prop :=
  (∀ p v, p < length objects → is_core objects dmetric eps mp p = true →
          ids !! p = Some v → v ≠ UNCLASSIFIED →
          p ∈ pending ∨ settled eps mp ids p)
  ∧ (∀ p, p < length objects → ids !! p = Some NOISE →
          is_core objects dmetric eps mp p = false).

(** *** Budgets and random-number members *)

(** [extends m m']: whenever [m] returns, [m'] returns the same. *)
Definition extends {A} (m m' : M random_type rng_type A) : Prop :=
  ∀ s r, m s = Ok r → m' s = Ok r.

(** The same object with other random-number members. *)
Definition reseed (r : random_type) (g : rng_type) s : density random_type rng_type :=
  Density (cluster_ids s) (medoid_ids s) r g
          (epsilon_ s) (min_points_ s) (current_cluster_id_ s) (total_clusters_ s).

(** [on_state f o]: the outcome [o] with [f] applied to its final state. *)
Definition on_state {A} (f : density random_type rng_type → density random_type rng_type)
    (o : result (A * density random_type rng_type * list write))
    : result (A * density random_type rng_type * list write) :=
  match o with
  | Ok (a, s, l) => Ok (a, f s, l)
  | OutOfRange => OutOfRange
  | OutOfFuel => OutOfFuel
  end.

(** [rng_blind m]: the computation [m] neither reads nor changes the
    random-number members. *)
Definition rng_blind {A} (m : M random_type rng_type A) : Prop :=
  ∀ r g s, m (reseed r g s) = on_state (reseed r g) (m s).

(** *** Bounds *)

(** [stays_in_bounds n m]: run on an assignment array of at least [n]
    entries, [m] makes no out-of-range access and keeps the length of the
    array. *)
Definition stays_in_bounds {A} (n : nat) (m : M random_type rng_type A) : Prop :=
  ∀ s, n ≤ length (cluster_ids s) →
    match m s with
    | Ok (_, s', _) => length (cluster_ids s') = length (cluster_ids s)
    | OutOfRange => False
    | OutOfFuel => True
    end.

(** *** Which entries an expansion leaves alone *)

(** Over the expansion of [seed] started on [ids0]: a cluster id outside
    the neighbourhood of the seed is kept, and an entry that differs from
    the start lies in the neighbourhood of a core point. *)
Definition expansion_frame (eps : float) (mp : N) (seed : nat) ids0 ids : Prop :=
  (∀ q v, ids0 !! q = Some v → (FIRST_CLUSTER ≤ v)%N →
          q ∉ neighbourhood objects dmetric eps seed → ids !! q = Some v)
  ∧ (∀ q, ids !! q ≠ ids0 !! q →
          ∃ p, p < length objects ∧ is_core objects dmetric eps mp p = true
               ∧ q ∈ neighbourhood objects dmetric eps p).

(** *** Cluster ids and the neighbourhoods of core points *)

(** Every position of the neighbourhood of [p] holds a cluster id. *)
Definition covered (eps : float) ids (p : nat) : Prop :=
  ∀ q, q ∈ neighbourhood objects dmetric eps p →
    ∃ w, ids !! q = Some w ∧ (FIRST_CLUSTER ≤ w)%N.

(** Every classified core point is covered or still on the seed list, no
    core point is [NOISE], and every cluster id sits in the neighbourhood
    of a core point. *)
Definition cover_inv (eps : float) (mp : N) (pending : list nat) ids : Prop :=
  (∀ p v, p < length objects → is_core objects dmetric eps mp p = true →
          ids !! p = Some v → v ≠ UNCLASSIFIED →
          p ∈ pending ∨ covered eps ids p)
  ∧ (∀ p, p < length objects → ids !! p = Some NOISE →
          is_core objects dmetric eps mp p = false)
  ∧ (∀ q v, ids !! q = Some v → (FIRST_CLUSTER ≤ v)%N →
          ∃ p, p < length objects ∧ is_core objects dmetric eps mp p = true
               ∧ q ∈ neighbourhood objects dmetric eps p).


(** Every entry that holds a cluster id lies in the neighbourhood of a
    core point that holds the same cluster id. *)
Definition anchored (eps : float) (mp : N) ids : Prop :=
  ∀ q v, ids !! q = Some v → (FIRST_CLUSTER ≤ v)%N →
    ∃ p, p < length objects ∧ is_core objects dmetric eps mp p = true
         ∧ q ∈ neighbourhood objects dmetric eps p ∧ ids !! p = Some v.


End Notions.

(** ** Reasoning about the monad *)

Section MonadFacts.

Context {T random_type rng_type : Type}.
Abbreviation M' := (M random_type rng_type).

Lemma bind_Ok {A B} (m : M' A) (f : A → M' B) s a s1 l1 :
  m s = Ok (a, s1, l1) →
  bind m f s = match f a s1 with
               | Ok (b, s2, l2) => Ok (b, s2, l1 ++ l2)
               | OutOfRange => OutOfRange
               | OutOfFuel => OutOfFuel
               end.
Proof. intros H. unfold bind. rewrite H. reflexivity. Qed.

Lemma bind_Ok_Ok {A B} (m : M' A) (f : A → M' B) s a s1 l1 b s2 l2 :
  m s = Ok (a, s1, l1) → f a s1 = Ok (b, s2, l2) →
  bind m f s = Ok (b, s2, l1 ++ l2).
Proof. intros H1 H2. rewrite (bind_Ok _ _ _ _ _ _ H1), H2. reflexivity. Qed.

Lemma bind_inv {A B} (m : M' A) (f : A → M' B) s b s2 l :
  bind m f s = Ok (b, s2, l) →
  ∃ a s1 l1 l2, m s = Ok (a, s1, l1) ∧ f a s1 = Ok (b, s2, l2) ∧ l = l1 ++ l2.
Proof.
  unfold bind. destruct (m s) as [[[a s1] l1]| |]; try discriminate.
  destruct (f a s1) as [[[b' s2'] l2]| |] eqn:Hf; try discriminate.
  intros [= -> -> <-]. eauto 10.
Qed.

Lemma foldM_app {A B} (body : B → A → M' B) l1 l2 b s b1 s1 g1 :
  foldM body l1 b s = Ok (b1, s1, g1) →
  foldM body (l1 ++ l2) b s =
    match foldM body l2 b1 s1 with
    | Ok (b2, s2, g2) => Ok (b2, s2, g1 ++ g2)
    | OutOfRange => OutOfRange
    | OutOfFuel => OutOfFuel
    end.
Proof.
  revert b s g1. induction l1 as [|x l1 IH]; intros b s g1; simpl.
  - intros [= -> -> <-]. destruct (foldM body l2 b1 s1) as [[[? ?] ?]| |]; reflexivity.
  - intros H. apply bind_inv in H as (b' & s' & g & g' & Hx & Hrest & ->).
    rewrite (bind_Ok _ _ _ _ _ _ Hx), (IH _ _ _ Hrest).
    destruct (foldM body l2 b1 s1) as [[[? ?] ?]| |]; try reflexivity.
    rewrite app_assoc. reflexivity.
Qed.

End MonadFacts.

(** ** The neighbourhood as a set of positions *)

Section Neighbourhood.

Context {T : Type}.
Variables (objects : list T) (dmetric : T → T → float).

Lemma elem_of_neighbourhood eps i j :
  j ∈ neighbourhood objects dmetric eps i ↔ j < length objects ∧ within objects dmetric eps i j = true.
Proof.
  unfold neighbourhood. rewrite list_elem_of_filter, elem_of_seq, Is_true_true.
  intuition lia.
Qed.

Lemma neighbourhood_lt eps i j : j ∈ neighbourhood objects dmetric eps i → j < length objects.
Proof. rewrite elem_of_neighbourhood. tauto. Qed.

Lemma neighbourhood_self eps i : i < length objects → i ∈ neighbourhood objects dmetric eps i.
Proof.
  intros Hi. apply elem_of_neighbourhood. split; [done|].
  unfold within. rewrite bool_decide_eq_true_2; done.
Qed.

Lemma NoDup_neighbourhood eps i : NoDup (neighbourhood objects dmetric eps i).
Proof. apply NoDup_filter, NoDup_seq. Qed.

Lemma neighbourhood_sorted eps i : StronglySorted lt (neighbourhood objects dmetric eps i).
Proof.
  unfold neighbourhood. generalize 0 as k. generalize (length objects) as n.
  induction n as [|n IH]; intros k; simpl.
  - constructor.
  - rewrite filter_cons. destruct (decide _).
    + constructor; [apply IH|]. apply Forall_forall. intros j Hj.
      apply list_elem_of_filter in Hj as [_ Hj]. apply elem_of_seq in Hj. lia.
    + apply IH.
Qed.

Lemma length_neighbourhood_le eps i : length (neighbourhood objects dmetric eps i) ≤ length objects.
Proof.
  unfold neighbourhood. etrans; [apply length_filter|]. by rewrite length_seq.
Qed.

Lemma NoDup_examined eps mp i : NoDup (examined objects dmetric eps mp i).
Proof.
  unfold examined. destruct (is_core objects dmetric eps mp i);
    [apply NoDup_neighbourhood | apply NoDup_nil_2].
Qed.

Lemma examined_lt eps mp i j : j ∈ examined objects dmetric eps mp i → j < length objects.
Proof.
  unfold examined. destruct (is_core objects dmetric eps mp i).
  - apply neighbourhood_lt.
  - intros Hj. by apply not_elem_of_nil in Hj.
Qed.

End Neighbourhood.

(** ** The comparison of [double] *)

Lemma SFcompare_swap (a b : SpecFloat.spec_float) :
  SpecFloat.SFcompare b a = option_map CompOpp (SpecFloat.SFcompare a b).
Proof.
  destruct a as [sa|sa| |sa ma ea], b as [sb|sb| |sb mb eb];
    try reflexivity;
    try (destruct sa; reflexivity); try (destruct sb; reflexivity);
    try (destruct sa, sb; reflexivity).
  unfold SpecFloat.SFcompare, option_map.
  change (Pos.compare_cont Eq mb ma) with (mb ?= ma)%positive.
  change (Pos.compare_cont Eq ma mb) with (ma ?= mb)%positive.
  rewrite (Z.compare_antisym ea eb), (Pos.compare_antisym ma mb).
  destruct sa, sb, (ea ?= eb)%Z, (ma ?= mb)%positive; reflexivity.
Qed.

(** [eps <= d] excludes [d < eps]. *)
Lemma leb_not_ltb (x y : float) :
  PrimFloat.leb x y = true → PrimFloat.ltb y x = false.
Proof.
  rewrite FloatAxioms.leb_spec, FloatAxioms.ltb_spec.
  unfold SpecFloat.SFleb, SpecFloat.SFltb. rewrite (SFcompare_swap (Prim2SF x)).
  destruct (SpecFloat.SFcompare _ _) as [[]|]; simpl; congruence.
Qed.

(** A comparison with a NaN on either side is [false]. *)
Lemma SFcompare_refl_not_nan (a : SpecFloat.spec_float) :
  a = SpecFloat.S754_nan ∨ SpecFloat.SFcompare a a = Some Eq.
Proof.
  destruct a as [s|s| |s m e]; [right|right|by left|right].
  - reflexivity.
  - by destruct s.
  - unfold SpecFloat.SFcompare.
    change (Pos.compare_cont Eq m m) with (m ?= m)%positive.
    rewrite Z.compare_refl, Pos.compare_refl. by destruct s.
Qed.

Lemma is_nan_Prim2SF (x : float) :
  PrimFloat.is_nan x = true → Prim2SF x = SpecFloat.S754_nan.
Proof.
  unfold PrimFloat.is_nan. rewrite FloatAxioms.eqb_spec. unfold SpecFloat.SFeqb.
  destruct (SFcompare_refl_not_nan (Prim2SF x)) as [Hnan|Heq]; [done|].
  by rewrite Heq.
Qed.

Lemma ltb_nan (x y : float) :
  PrimFloat.is_nan x = true ∨ PrimFloat.is_nan y = true →
  PrimFloat.ltb x y = false.
Proof.
  rewrite FloatAxioms.ltb_spec. unfold SpecFloat.SFltb.
  intros [H%is_nan_Prim2SF|H%is_nan_Prim2SF]; rewrite H; [done|].
  by destruct (Prim2SF x).
Qed.


(** ** What each member function computes *)

Section Specs.

Context {T random_type rng_type : Type}.
Variables (objects : list T) (dmetric : T → T → float).
Implicit Types (s sp : density random_type rng_type) (ids : list N).

Lemma with_ids_same s : with_ids (cluster_ids s) s = s.
Proof. by destruct s. Qed.

Lemma with_ids_with_ids ids1 ids2 s : with_ids ids2 (with_ids ids1 s) = with_ids ids2 s.
Proof. reflexivity. Qed.

Lemma set_cluster_ids_with f s : set_cluster_ids f s = with_ids (f (cluster_ids s)) s.
Proof. reflexivity. Qed.

Lemma range_loop_spec i l s result :
  i < length objects →
  (∀ j, j ∈ l → j < length objects) →
  foldM (range_query_step objects dmetric i) l result s
  = Ok (result ++ filter (λ j, Is_true (within objects dmetric (epsilon_ s) i j)) l, s, []).
Proof.
  intros Hi. revert result. induction l as [|j l IH]; intros result Hl; simpl.
  - by rewrite app_nil_r.
  - assert (Hj : j < length objects) by (apply Hl; left).
    assert (Hl' : ∀ k, k ∈ l → k < length objects) by (intros k Hk; apply Hl; by right).
    destruct (lookup_lt_is_Some_2 _ _ Hi) as [a Ha].
    destruct (lookup_lt_is_Some_2 _ _ Hj) as [b Hb].
    assert (Hw : within objects dmetric (epsilon_ s) i j
                 = bool_decide (j = i) || PrimFloat.ltb (dmetric a b) (epsilon_ s)).
    { unfold within. by rewrite Ha, Hb. }
    assert (Hbody : range_query_step objects dmetric i result j s
         = Ok (if within objects dmetric (epsilon_ s) i j
               then result ++ [j] else result, s, [])).
    { rewrite Hw. unfold range_query_step. destruct (decide (j = i)) as [->|Hne].
      - by rewrite bool_decide_eq_true_2.
      - rewrite bool_decide_eq_false_2 by done. simpl.
        unfold bind, object_at, gets, ret. rewrite Ha, Hb.
        by destruct (PrimFloat.ltb _ _). }
    erewrite bind_Ok by apply Hbody. rewrite IH by done.
    destruct (within _ _ _ _ _) eqn:Hwj.
    + rewrite filter_cons_True by (rewrite Hwj; exact I).
      by rewrite <- app_assoc.
    + rewrite filter_cons_False by (rewrite Hwj; exact id). done.
Qed.

Lemma epsilon_range_query_spec i s :
  i < length objects →
  epsilon_range_query objects dmetric i s
  = Ok (neighbourhood objects dmetric (epsilon_ s) i, s, []).
Proof.
  intros Hi. unfold epsilon_range_query, for_range.
  rewrite range_loop_spec; [done..|].
  intros j Hj. apply elem_of_seq in Hj. lia.
Qed.

(** *** The labelling loop of lines 133-144 *)

Lemma label_loop_spec seed ids0 l :
  NoDup l →
  ∀ kept s,
  (∀ j, j ∈ l → is_Some (ids0 !! j) ∧ cluster_ids s !! j = ids0 !! j) →
  ∃ ids',
    foldM (label_seed_step seed) l kept s
    = Ok (kept ++ filter (λ j, j ≠ seed) l, with_ids ids' s,
          (λ j, Write SeedNeighbourhood seed j (default 0%N (ids0 !! j))
                      (current_cluster_id_ s)) <$> l)
    ∧ length ids' = length (cluster_ids s)
    ∧ (∀ j, j ∈ l → ids' !! j = Some (current_cluster_id_ s))
    ∧ (∀ j, j ∉ l → ids' !! j = cluster_ids s !! j).
Proof.
  induction 1 as [|j l Hjl Hnd IH]; intros kept s Hl; simpl.
  - exists (cluster_ids s). rewrite app_nil_r, with_ids_same.
    split; [done|]. split; [done|]. split; [|done].
    intros j Hj. by apply not_elem_of_nil in Hj.
  - destruct (Hl j) as [[old Hold] Hcur]; [by left|]. rewrite Hold in Hcur.
    set (c := current_cluster_id_ s).
    set (s1 := with_ids (<[j := c]> (cluster_ids s)) s).
    assert (Hstep : label_seed_step seed kept j s
              = Ok (if decide (j = seed) then kept else kept ++ [j], s1,
                    [Write SeedNeighbourhood seed j old c])).
    { unfold label_seed_step, bind, gets, set_cluster_id. rewrite Hcur.
      by destruct (decide (j = seed)). }
    destruct (IH (if decide (j = seed) then kept else kept ++ [j]) s1)
      as (ids' & Hrun & Hlen & Hin & Hout).
    { intros k Hk. split; [apply Hl; by right|]. simpl.
      rewrite list_lookup_insert_ne by (intros ->; done).
      apply Hl. by right. }
    exists ids'. split; [|split; [|split]].
    + erewrite bind_Ok by exact Hstep. rewrite Hrun.
      unfold s1, c. rewrite with_ids_with_ids, Hold. simpl. f_equal. f_equal.
      rewrite filter_cons. destruct (decide (j = seed)), (decide (j ≠ seed));
        try done; by rewrite <- app_assoc.
    + rewrite Hlen. simpl. by rewrite length_insert.
    + intros k [->|Hk]%elem_of_cons; [|by apply Hin].
      rewrite Hout by done. simpl. apply list_lookup_insert_eq.
      by apply lookup_lt_Some in Hcur.
    + intros k Hk. apply not_elem_of_cons in Hk as [Hne Hk].
      rewrite Hout by done. simpl. by rewrite list_lookup_insert_ne.
Qed.

Lemma label_seed_list_spec seed l s :
  NoDup l →
  (∀ j, j ∈ l → j < length (cluster_ids s)) →
  ∃ ids',
    label_seed_list seed l s
    = Ok (filter (λ j, j ≠ seed) l, with_ids ids' s,
          (λ j, Write SeedNeighbourhood seed j (default 0%N (cluster_ids s !! j))
                      (current_cluster_id_ s)) <$> l)
    ∧ length ids' = length (cluster_ids s)
    ∧ (∀ j, j ∈ l → ids' !! j = Some (current_cluster_id_ s))
    ∧ (∀ j, j ∉ l → ids' !! j = cluster_ids s !! j).
Proof.
  intros Hnd Hl. unfold label_seed_list.
  destruct (label_loop_spec seed (cluster_ids s) l Hnd [] s) as (ids' & H); [|by exists ids'].
  intros j Hj. split; [|done]. by apply lookup_lt_is_Some_2, Hl.
Qed.

(** *** The absorption loop of lines 159-172 *)

Lemma absorb_loop_spec seed ids0 l :
  NoDup l →
  ∀ pushed s,
  (∀ q, q ∈ l → is_Some (ids0 !! q) ∧ cluster_ids s !! q = ids0 !! q) →
  ∃ ids',
    foldM (absorb_step seed) l pushed s
    = Ok (pushed ++ filter (λ q, ids0 !! q = Some UNCLASSIFIED) l, with_ids ids' s,
          omap (absorb_write seed (current_cluster_id_ s) ids0) l)
    ∧ length ids' = length (cluster_ids s)
    ∧ (∀ q v, q ∈ l → ids0 !! q = Some v →
         ids' !! q = Some (if absorbable v then current_cluster_id_ s else v))
    ∧ (∀ q, q ∉ l → ids' !! q = cluster_ids s !! q).
Proof.
  induction 1 as [|q l Hql Hnd IH]; intros pushed s Hl; simpl.
  - exists (cluster_ids s). rewrite app_nil_r, with_ids_same.
    split; [done|]. split; [done|]. split; [|done].
    intros q v Hq. by apply not_elem_of_nil in Hq.
  - destruct (Hl q) as [[v Hv] Hcur]; [by left|]. rewrite Hv in Hcur.
    set (c := current_cluster_id_ s).
    set (s1 := if absorbable v then with_ids (<[q := c]> (cluster_ids s)) s else s).
    assert (Hstep : absorb_step seed pushed q s
              = Ok (if (v =? UNCLASSIFIED)%N then pushed ++ [q] else pushed, s1,
                    if absorbable v then [Write Absorb seed q v c] else [])).
    { unfold absorb_step, bind, get_cluster_id, gets, set_cluster_id, s1, absorbable.
      rewrite Hcur. destruct (v =? UNCLASSIFIED)%N, (v =? NOISE)%N; simpl;
        rewrite ?Hcur; reflexivity. }
    assert (Hc1 : current_cluster_id_ s1 = c).
    { unfold s1. by destruct (absorbable v). }
    assert (Hlen1 : length (cluster_ids s1) = length (cluster_ids s)).
    { unfold s1. destruct (absorbable v); simpl; by rewrite ?length_insert. }
    assert (Hne1 : ∀ k, k ≠ q → cluster_ids s1 !! k = cluster_ids s !! k).
    { intros k Hk. unfold s1. destruct (absorbable v); simpl;
        by rewrite ?list_lookup_insert_ne. }
    assert (Hq1 : cluster_ids s1 !! q = Some (if absorbable v then c else v)).
    { unfold s1. destruct (absorbable v); simpl; [|done].
      apply list_lookup_insert_eq. by apply lookup_lt_Some in Hcur. }
    assert (Hw1 : ∀ ids', with_ids ids' s1 = with_ids ids' s).
    { intros ids'. unfold s1. by destruct (absorbable v). }
    destruct (IH (if (v =? UNCLASSIFIED)%N then pushed ++ [q] else pushed) s1)
      as (ids' & Hrun & Hlen & Hin & Hout).
    { intros k Hk. split; [apply Hl; by right|].
      rewrite Hne1 by (intros ->; done). apply Hl. by right. }
    exists ids'. split; [|split; [|split]].
    + erewrite bind_Ok by exact Hstep. rewrite Hrun, Hw1, Hc1.
      unfold absorb_write at 2. rewrite Hv. f_equal. f_equal; [f_equal|].
      * rewrite filter_cons. rewrite Hv.
        destruct (decide (Some v = Some UNCLASSIFIED)) as [[= ->]|Hne].
        -- simpl. by rewrite <- app_assoc.
        -- destruct (N.eqb_spec v UNCLASSIFIED) as [->|]; done.
      * by destruct (absorbable v).
    + by rewrite Hlen.
    + intros k w [->|Hk]%elem_of_cons Hkw.
      * rewrite Hout by done. rewrite Hv in Hkw. injection Hkw as <-. done.
      * rewrite Hc1 in Hin. by apply Hin.
    + intros k Hk. apply not_elem_of_cons in Hk as [Hne Hk].
      rewrite Hout by done. by apply Hne1.
Qed.

Lemma absorb_neighbours_spec seed l s :
  NoDup l →
  (∀ q, q ∈ l → q < length (cluster_ids s)) →
  ∃ ids',
    absorb_neighbours seed l s
    = Ok (filter (λ q, cluster_ids s !! q = Some UNCLASSIFIED) l, with_ids ids' s,
          omap (absorb_write seed (current_cluster_id_ s) (cluster_ids s)) l)
    ∧ length ids' = length (cluster_ids s)
    ∧ (∀ q v, q ∈ l → cluster_ids s !! q = Some v →
         ids' !! q = Some (if absorbable v then current_cluster_id_ s else v))
    ∧ (∀ q, q ∉ l → ids' !! q = cluster_ids s !! q).
Proof.
  intros Hnd Hl. unfold absorb_neighbours.
  destruct (absorb_loop_spec seed (cluster_ids s) l Hnd [] s) as (ids' & H); [|by exists ids'].
  intros j Hj. split; [|done]. by apply lookup_lt_is_Some_2, Hl.
Qed.

Lemma visit_seed_spec seed p s :
  p < length objects →
  length objects ≤ length (cluster_ids s) →
  ∃ ids',
    visit_seed objects dmetric seed p s
    = Ok (unclassified_in (cluster_ids s) (examined objects dmetric (epsilon_ s) (min_points_ s) p),
          with_ids ids' s,
          omap (absorb_write seed (current_cluster_id_ s) (cluster_ids s))
               (examined objects dmetric (epsilon_ s) (min_points_ s) p))
    ∧ absorbed (current_cluster_id_ s)
               (examined objects dmetric (epsilon_ s) (min_points_ s) p)
               (cluster_ids s) ids'.
Proof.
  intros Hp Hlen. unfold visit_seed.
  erewrite bind_Ok by (by apply epsilon_range_query_spec).
  erewrite bind_Ok by reflexivity.
  unfold examined, is_core.
  destruct (min_points_ s <=? _)%N.
  - destruct (absorb_neighbours_spec seed
                (neighbourhood objects dmetric (epsilon_ s) p) s)
      as (ids' & Hrun & Habs).
    { apply NoDup_neighbourhood. }
    { intros q Hq%neighbourhood_lt. lia. }
    exists ids'. rewrite Hrun. done.
  - exists (cluster_ids s). rewrite with_ids_same. split; [done|].
    split; [done|]. split; [|done]. intros q v Hq. by apply not_elem_of_nil in Hq.
Qed.

Lemma expand_cluster_noise fuel seed s old :
  seed < length objects →
  cluster_ids s !! seed = Some old →
  is_core objects dmetric (epsilon_ s) (min_points_ s) seed = false →
  expand_cluster fuel objects dmetric seed s
  = Ok (false, with_ids (<[seed := NOISE]> (cluster_ids s)) s,
        [Write SeedNoise seed seed old NOISE]).
Proof.
  intros Hseed Hold Hcore. unfold expand_cluster.
  erewrite bind_Ok by (by apply epsilon_range_query_spec).
  erewrite bind_Ok by reflexivity.
  unfold is_core in Hcore. apply N.leb_gt in Hcore.
  apply N.ltb_lt in Hcore. rewrite Hcore.
  unfold bind, set_cluster_id. rewrite Hold. reflexivity.
Qed.

(** *** Loop rules *)

Lemma for_range_rule {B} (I : nat → B → density random_type rng_type → list write → Prop)
    n (body : nat → B → M random_type rng_type B) b s :
  I 0 b s [] →
  (∀ i b s log, i < n → I i b s log →
     ∃ b' s' lg, body i b s = Ok (b', s', lg) ∧ I (S i) b' s' (log ++ lg)) →
  ∃ b' s' log, for_range n body b s = Ok (b', s', log) ∧ I n b' s' log.
Proof.
  intros H0 Hstep. unfold for_range.
  induction n as [|n IH].
  - simpl. by exists b, s, [].
  - destruct IH as (b1 & s1 & log1 & Hrun & HI).
    { intros i b0 s0 log Hi. apply Hstep. lia. }
    destruct (Hstep n b1 s1 log1) as (b2 & s2 & lg & Hbody & HI2); [lia|done|].
    exists b2, s2, (log1 ++ lg). split; [|done].
    rewrite seq_S. simpl. erewrite foldM_app by exact Hrun.
    simpl. erewrite bind_Ok by exact Hbody. simpl. by rewrite app_nil_r.
Qed.

Lemma elem_of_unclassified ids q :
  q ∈ unclassified ids ↔ ids !! q = Some UNCLASSIFIED.
Proof.
  unfold unclassified, unclassified_in. rewrite list_elem_of_filter, elem_of_seq.
  split; [tauto|]. intros H. split; [done|]. apply lookup_lt_Some in H. lia.
Qed.

Lemma absorbable_false v : absorbable v = false ↔ (2 ≤ v)%N.
Proof.
  unfold absorbable, UNCLASSIFIED, NOISE.
  destruct (N.eqb_spec v 0), (N.eqb_spec v 1); simpl; split; intros; try done; lia.
Qed.

Lemma absorbable_true v : absorbable v = true ↔ v = UNCLASSIFIED ∨ v = NOISE.
Proof.
  unfold absorbable, UNCLASSIFIED, NOISE.
  destruct (N.eqb_spec v 0), (N.eqb_spec v 1); simpl; split; intros; try done;
    try tauto; lia.
Qed.

Lemma measure_absorbed c l ids ids' :
  c ≠ UNCLASSIFIED → NoDup l →
  absorbed c l ids ids' →
  length (unclassified ids') + length (unclassified_in ids l) ≤ length (unclassified ids).
Proof.
  intros Hc Hnd (Hlen & Hin & Hout).
  rewrite <- length_app. apply submseteq_length, NoDup_submseteq.
  - apply NoDup_app. split; [apply NoDup_filter, NoDup_seq|].
    split; [|by apply NoDup_filter].
    intros q Hq' [Hq Hql]%list_elem_of_filter.
    apply elem_of_unclassified in Hq'.
    rewrite (Hin q _ Hql Hq) in Hq'. simpl in Hq'. congruence.
  - intros q [Hq'|[Hq Hql]%list_elem_of_filter]%elem_of_app;
      apply elem_of_unclassified; [|done].
    apply elem_of_unclassified in Hq'.
    destruct (decide (q ∈ l)) as [Hql|Hql]; [|by rewrite <- Hout].
    assert (is_Some (ids !! q)) as [v Hv].
    { apply lookup_lt_is_Some. rewrite <- Hlen. by apply lookup_lt_Some in Hq'. }
    rewrite (Hin q v Hql Hv) in Hq'. rewrite Hv.
    destruct (absorbable v) eqn:Hab; [congruence|].
    apply absorbable_false in Hab. injection Hq' as ->. unfold UNCLASSIFIED in *. lia.
Qed.

Lemma measure_labelled c l ids ids' :
  c ≠ UNCLASSIFIED → NoDup l → (∀ q, q ∈ l → q < length ids) →
  labelled c l ids ids' →
  length (unclassified ids') + length l ≤ length ids.
Proof.
  intros Hc Hnd Hl (Hlen & Hin & Hout).
  enough (length (unclassified ids' ++ l) ≤ length (seq 0 (length ids))) as H
    by (by rewrite length_app, length_seq in H).
  apply submseteq_length, NoDup_submseteq.
  - apply NoDup_app. split; [apply NoDup_filter, NoDup_seq|]. split; [|done].
    intros q Hq' Hql. apply elem_of_unclassified in Hq'.
    rewrite (Hin q Hql) in Hq'. congruence.
  - intros q [Hq'|Hql]%elem_of_app; apply elem_of_seq.
    + apply elem_of_unclassified, lookup_lt_Some in Hq'. lia.
    + apply Hl in Hql. lia.
Qed.

(** The seed-list loop terminates within a budget of the number of
    unclassified positions plus the length of the list, and carries any
    invariant [I] of (list, assignment array, log) that one visit
    preserves. *)
Lemma expand_seeds_rule seed s (I : list nat → list N → list write → Prop) :
  current_cluster_id_ s ≠ UNCLASSIFIED →
  (∀ p rest ids log, I (p :: rest) ids log →
     p < length objects ∧ length objects ≤ length ids) →
  (∀ p rest ids log ids',
     I (p :: rest) ids log →
     absorbed (current_cluster_id_ s)
              (examined objects dmetric (epsilon_ s) (min_points_ s) p) ids ids' →
     I (rest ++ unclassified_in ids (examined objects dmetric (epsilon_ s) (min_points_ s) p))
       ids'
       (log ++ omap (absorb_write seed (current_cluster_id_ s) ids)
                    (examined objects dmetric (epsilon_ s) (min_points_ s) p))) →
  ∀ fuel pending ids log,
    I pending ids log →
    length (unclassified ids) + length pending ≤ fuel →
    ∃ ids' log',
      expand_seeds fuel objects dmetric seed pending (with_ids ids s)
      = Ok (tt, with_ids ids' s, log')
      ∧ I [] ids' (log ++ log').
Proof.
  intros Hc Hrange Hpres. induction fuel as [|fuel IH]; intros pending ids log HI Hfuel.
  - destruct pending as [|p rest]; [|simpl in Hfuel; lia].
    exists ids, []. by rewrite app_nil_r.
  - destruct pending as [|p rest].
    { exists ids, []. by rewrite app_nil_r. }
    destruct (Hrange _ _ _ _ HI) as [Hp Hlen].
    destruct (visit_seed_spec seed p (with_ids ids s)) as (ids1 & Hvisit & Habs);
      [done..|].
    simpl in Hvisit, Habs.
    specialize (Hpres _ _ _ _ _ HI Habs).
    destruct (IH _ _ _ Hpres) as (ids' & log' & Hrun & HI').
    { pose proof (measure_absorbed _ _ _ _ Hc (NoDup_examined _ _ _ _ _) Habs) as Hm.
      rewrite length_app. simpl in Hfuel. unfold unclassified_in in *. lia. }
    exists ids', (omap (absorb_write seed (current_cluster_id_ s) ids)
                    (examined objects dmetric (epsilon_ s) (min_points_ s) p) ++ log').
    split; [|by rewrite app_assoc].
    simpl. erewrite bind_Ok by exact Hvisit.
    rewrite with_ids_with_ids, Hrun. done.
Qed.

(** A call of [expand_cluster] on a core point returns [true] within a
    budget of the length of the assignment array, provided the current
    cluster id is not [UNCLASSIFIED]; it establishes [I [] ids' log] for
    any invariant [I] that holds after the labelling loop and is
    preserved by each visit of the seed-list loop. *)
Lemma expand_cluster_rule fuel seed s (I : list nat → list N → list write → Prop) :
  seed < length objects →
  length objects ≤ length (cluster_ids s) →
  current_cluster_id_ s ≠ UNCLASSIFIED →
  is_core objects dmetric (epsilon_ s) (min_points_ s) seed = true →
  length (cluster_ids s) ≤ fuel →
  (∀ p rest ids log, I (p :: rest) ids log →
     p < length objects ∧ length objects ≤ length ids) →
  (∀ p rest ids log ids',
     I (p :: rest) ids log →
     absorbed (current_cluster_id_ s)
              (examined objects dmetric (epsilon_ s) (min_points_ s) p) ids ids' →
     I (rest ++ unclassified_in ids (examined objects dmetric (epsilon_ s) (min_points_ s) p))
       ids'
       (log ++ omap (absorb_write seed (current_cluster_id_ s) ids)
                    (examined objects dmetric (epsilon_ s) (min_points_ s) p))) →
  (∀ ids1,
     labelled (current_cluster_id_ s)
              (neighbourhood objects dmetric (epsilon_ s) seed) (cluster_ids s) ids1 →
     I (filter (λ j, j ≠ seed) (neighbourhood objects dmetric (epsilon_ s) seed)) ids1
       (label_log seed (current_cluster_id_ s) (cluster_ids s)
                  (neighbourhood objects dmetric (epsilon_ s) seed))) →
  ∃ ids' log,
    expand_cluster fuel objects dmetric seed s = Ok (true, with_ids ids' s, log)
    ∧ I [] ids' log.
Proof.
  intros Hseed Hlen Hc Hcore Hfuel Hrange Hpres Hinit.
  assert (Hnb : ∀ q, q ∈ neighbourhood objects dmetric (epsilon_ s) seed →
                     q < length (cluster_ids s)).
  { intros q Hq%neighbourhood_lt. lia. }
  destruct (label_seed_list_spec seed _ s (NoDup_neighbourhood _ _ _ _) Hnb)
    as (ids1 & Hlabel & Hlab).
  specialize (Hinit ids1 Hlab).
  destruct (expand_seeds_rule seed s I Hc Hrange Hpres fuel _ _ _ Hinit)
    as (ids' & log' & Hrun & HI).
  { pose proof (measure_labelled _ _ _ _ Hc (NoDup_neighbourhood _ _ _ _) Hnb Hlab) as Hm.
    pose proof (length_filter (λ j, j ≠ seed)
                  (neighbourhood objects dmetric (epsilon_ s) seed)) as Hf.
    lia. }
  eexists ids', _. split; [|exact HI].
  unfold expand_cluster.
  erewrite bind_Ok by (by apply epsilon_range_query_spec).
  erewrite bind_Ok by reflexivity.
  unfold is_core in Hcore. apply N.leb_le in Hcore.
  replace (N.of_nat _ <? min_points_ s)%N with false
    by (symmetry; apply N.ltb_ge; done).
  erewrite bind_Ok by exact Hlabel.
  erewrite bind_Ok by exact Hrun.
  simpl. rewrite app_nil_r. reflexivity.
Qed.

(** *** The neighbourhood query *)

(** C4: for a position [i] of [objects], [epsilon_range_query] returns
    exactly the positions [j] with [j = i] or
    [dmetric objects[i] objects[j] < epsilon_] (strict comparison; [i]
    itself whatever the metric says), in ascending order, and leaves the
    object unchanged, writing nothing to [cluster_ids]. *)
Theorem epsilon_range_query_exact (i : nat) (s : density random_type rng_type) :
  i < length objects →
  ∃ l,
    epsilon_range_query objects dmetric i s = Ok (l, s, [])
    ∧ (∀ j, j ∈ l ↔
            j < length objects
            ∧ (j = i ∨ ∃ a b, objects !! i = Some a ∧ objects !! j = Some b
                              ∧ PrimFloat.ltb (dmetric a b) (epsilon_ s) = true))
    ∧ StronglySorted lt l.
Proof.
  intros Hi. exists (neighbourhood objects dmetric (epsilon_ s) i).
  split; [by apply epsilon_range_query_spec|].
  split; [|apply neighbourhood_sorted].
  intros j. rewrite elem_of_neighbourhood. unfold within.
  split.
  - intros [Hj Hw]. split; [done|].
    destruct (decide (j = i)) as [->|Hne]; [by left|right].
    rewrite bool_decide_eq_false_2 in Hw by done. simpl in Hw.
    destruct (objects !! i) as [a|]; [|done].
    destruct (objects !! j) as [b|]; [|done]. eauto.
  - intros [Hj [->|(a & b & Ha & Hb & Hlt)]]; (split; [done|]).
    + by rewrite bool_decide_eq_true_2.
    + rewrite Ha, Hb, Hlt. apply orb_true_r.
Qed.

(** *** One visit of the seed-list loop *)

(** C6: one iteration of the seed-list loop, for the list element [p].
    The iteration pushes [pushed] to the back of the list and continues
    with the rest.  If the neighbourhood of [p] has at least [min_points_]
    positions then each position [q] of it that held [UNCLASSIFIED] is
    pushed (once) and given the current cluster id, each that held [NOISE]
    is given the current cluster id and not pushed, and each that held a
    cluster id keeps it and is not pushed; positions outside the
    neighbourhood keep their entries.  If the neighbourhood is smaller,
    nothing is pushed and no entry changes. *)
Theorem visit_seed_absorbs (fuel seed p : nat) (rest : list nat)
    (s : density random_type rng_type) :
  p < length objects →
  length objects ≤ length (cluster_ids s) →
  ∃ pushed ids' log,
    visit_seed objects dmetric seed p s = Ok (pushed, with_ids ids' s, log)
    ∧ expand_seeds (S fuel) objects dmetric seed (p :: rest) s
      = prefix_log log (expand_seeds fuel objects dmetric seed (rest ++ pushed)
                                     (with_ids ids' s))
    ∧ NoDup pushed
    ∧ length ids' = length (cluster_ids s)
    ∧ ((min_points_ s ≤ N.of_nat (length (neighbourhood objects dmetric (epsilon_ s) p)))%N →
       (∀ q, q ∈ neighbourhood objects dmetric (epsilon_ s) p →
          ∃ v, cluster_ids s !! q = Some v
             ∧ (v = UNCLASSIFIED → q ∈ pushed ∧ ids' !! q = Some (current_cluster_id_ s))
             ∧ (v = NOISE → (q ∉ pushed) ∧ ids' !! q = Some (current_cluster_id_ s))
             ∧ ((FIRST_CLUSTER ≤ v)%N → (q ∉ pushed) ∧ ids' !! q = Some v))
       ∧ (∀ q, q ∉ neighbourhood objects dmetric (epsilon_ s) p →
            (q ∉ pushed) ∧ ids' !! q = cluster_ids s !! q))
    ∧ ((N.of_nat (length (neighbourhood objects dmetric (epsilon_ s) p)) < min_points_ s)%N →
       pushed = [] ∧ ids' = cluster_ids s ∧ log = []).
Proof.
  intros Hp Hlen.
  destruct (visit_seed_spec seed p s Hp Hlen) as (ids' & Hvisit & Hl & Hin & Hout).
  eexists _, ids', _. split; [exact Hvisit|].
  split; [|split; [|split; [done|split]]].
  - simpl. unfold bind. rewrite Hvisit. reflexivity.
  - apply NoDup_filter, NoDup_examined.
  - intros Hcore. apply N.leb_le in Hcore.
    unfold examined, is_core in *. rewrite Hcore in *. split.
    + intros q Hq.
      assert (is_Some (cluster_ids s !! q)) as [v Hv].
      { apply lookup_lt_is_Some. apply neighbourhood_lt in Hq. lia. }
      exists v. split; [done|]. rewrite (Hin q v Hq Hv).
      unfold unclassified_in. rewrite list_elem_of_filter, Hv.
      split; [|split].
      * intros ->. done.
      * intros ->. split; [|done]. intros [[=] _].
      * intros Hv2. apply absorbable_false in Hv2 as Hab. rewrite Hab.
        split; [|done]. intros [[= ->] _]. done.
    + intros q Hq. split; [|by apply Hout].
      unfold unclassified_in. rewrite list_elem_of_filter. tauto.
  - intros Hcore. apply N.leb_gt in Hcore.
    unfold examined, is_core in *. rewrite Hcore in *. simpl.
    split; [done|]. split; [|done].
    apply list_eq. intros q. apply Hout, not_elem_of_nil.
Qed.

(** *** What every expansion of a core point maintains *)

Lemma expansion_inv_range eps seed c ids0 p rest ids log :
  expansion_inv objects dmetric eps seed c ids0 (p :: rest) ids log →
  p < length objects ∧ length objects ≤ length ids.
Proof.
  intros (Hlen & Hn & Hpend & _). split; [apply Hpend; by left | lia].
Qed.

Lemma absorb_write_Forall seed c ids l :
  Forall (cluster_write seed c) (omap (absorb_write seed c ids) l).
Proof.
  apply Forall_forall. intros w (q & Hq & Hw)%list_elem_of_omap.
  unfold absorb_write in Hw. destruct (ids !! q) as [v|]; [|done].
  destruct (absorbable v) eqn:Hab; [|done]. injection Hw as <-.
  split; [done|]. split; [done|]. right. done.
Qed.

Lemma expansion_inv_step eps mp seed c ids0 p rest ids log ids' :
  expansion_inv objects dmetric eps seed c ids0 (p :: rest) ids log →
  absorbed c (examined objects dmetric eps mp p) ids ids' →
  expansion_inv objects dmetric eps seed c ids0
    (rest ++ unclassified_in ids (examined objects dmetric eps mp p)) ids'
    (log ++ omap (absorb_write seed c ids) (examined objects dmetric eps mp p)).
Proof.
  intros (Hlen & Hn & Hpend & Hmono & Hnb & Hlog & Hseed) (Hlen' & Hin & Hout).
  assert (Hstep : ∀ q w, ids !! q = Some w → ids' !! q = Some w ∨ ids' !! q = Some c).
  { intros q w Hw. destruct (decide (q ∈ examined objects dmetric eps mp p)) as [Hq|Hq].
    - rewrite (Hin q w Hq Hw). destruct (absorbable w); auto.
    - rewrite Hout by done. auto. }
  split; [lia|]. split; [done|]. split; [|split; [|split; [|split]]].
  - intros q [Hq|Hq]%elem_of_app; [apply Hpend; by right|].
    apply list_elem_of_filter in Hq as [_ Hq]. by apply examined_lt in Hq.
  - intros q v Hv. destruct (Hmono q v Hv) as [H|H]; apply Hstep in H; tauto.
  - intros q Hq. apply Hnb, Hstep in Hq. tauto.
  - apply Forall_app. split; [done|]. apply absorb_write_Forall.
  - apply elem_of_app. by left.
Qed.

Lemma expansion_inv_init eps seed c ids0 ids1 :
  seed < length objects →
  length objects ≤ length ids0 →
  labelled c (neighbourhood objects dmetric eps seed) ids0 ids1 →
  expansion_inv objects dmetric eps seed c ids0
    (filter (λ j, j ≠ seed) (neighbourhood objects dmetric eps seed)) ids1
    (label_log seed c ids0 (neighbourhood objects dmetric eps seed)).
Proof.
  intros Hseed Hn (Hlen & Hin & Hout).
  split; [done|]. split; [done|]. split; [|split; [|split; [|split]]].
  - intros q [_ Hq]%list_elem_of_filter. by apply neighbourhood_lt in Hq.
  - intros q v Hv.
    destruct (decide (q ∈ neighbourhood objects dmetric eps seed)) as [Hq|Hq].
    + right. by apply Hin.
    + left. by rewrite Hout.
  - done.
  - apply Forall_forall. intros w (q & -> & Hq)%list_elem_of_fmap.
    split; [done|]. split; [done|]. by left.
  - apply list_elem_of_fmap. exists seed. split; [done|].
    by apply neighbourhood_self.
Qed.

Lemma expand_cluster_core fuel seed s :
  seed < length objects →
  length objects ≤ length (cluster_ids s) →
  current_cluster_id_ s ≠ UNCLASSIFIED →
  is_core objects dmetric (epsilon_ s) (min_points_ s) seed = true →
  length (cluster_ids s) ≤ fuel →
  ∃ ids' log,
    expand_cluster fuel objects dmetric seed s = Ok (true, with_ids ids' s, log)
    ∧ expansion_inv objects dmetric (epsilon_ s) seed (current_cluster_id_ s) (cluster_ids s) [] ids' log.
Proof.
  intros Hseed Hlen Hc Hcore Hfuel.
  apply (expand_cluster_rule fuel seed s
           (expansion_inv objects dmetric (epsilon_ s) seed (current_cluster_id_ s) (cluster_ids s)));
    try done.
  - apply expansion_inv_range.
  - intros p rest ids log ids'. apply expansion_inv_step.
  - intros ids1. by apply expansion_inv_init.
Qed.

(** C5: a call of [expand_cluster] on a position of the array, made with a
    current cluster id other than [UNCLASSIFIED] and a budget of the array
    length, returns; it returns [false] exactly when the neighbourhood of
    the seed (the seed included) has fewer than [min_points_] positions,
    and then the object differs from before only in the seed's entry,
    which is [NOISE]: every other entry, the medoid list and the counters
    are as before.  Otherwise it returns [true]. *)
Theorem expand_cluster_result (fuel seed : nat) (s : density random_type rng_type) :
  seed < length objects →
  length objects ≤ length (cluster_ids s) →
  current_cluster_id_ s ≠ UNCLASSIFIED →
  length (cluster_ids s) ≤ fuel →
  ∃ b s' log,
    expand_cluster fuel objects dmetric seed s = Ok (b, s', log)
    ∧ (b = false ↔
       (N.of_nat (length (neighbourhood objects dmetric (epsilon_ s) seed))
        < min_points_ s)%N)
    ∧ (b = false →
       s' = set_cluster_ids (λ ids, <[seed := NOISE]> ids) s
       ∧ cluster_ids s' !! seed = Some NOISE
       ∧ (∀ j, j ≠ seed → cluster_ids s' !! j = cluster_ids s !! j)
       ∧ medoid_ids s' = medoid_ids s
       ∧ current_cluster_id_ s' = current_cluster_id_ s
       ∧ total_clusters_ s' = total_clusters_ s
       ∧ ∃ old, log = [Write SeedNoise seed seed old NOISE]).
Proof.
  intros Hseed Hlen Hc Hfuel.
  destruct (is_core objects dmetric (epsilon_ s) (min_points_ s) seed) eqn:Hcore.
  - destruct (expand_cluster_core fuel seed s) as (ids' & log & Hrun & _); try done.
    exists true, (with_ids ids' s), log. split; [done|].
    split; [|done]. split; [done|].
    unfold is_core in Hcore. apply N.leb_le in Hcore. lia.
  - assert (is_Some (cluster_ids s !! seed)) as [old Hold].
    { apply lookup_lt_is_Some. lia. }
    eexists false, _, _. split; [by apply (expand_cluster_noise fuel seed s old)|].
    split.
    { split; [|done]. intros _. unfold is_core in Hcore. by apply N.leb_gt in Hcore. }
    intros _. split; [done|]. simpl. split.
    { apply list_lookup_insert_eq. lia. }
    split; [intros j Hj; by apply list_lookup_insert_ne|].
    repeat (split; [done|]). by exists old.
Qed.

(** *** The driver *)

Lemma push_loop_spec n s :
  for_range n (λ _ _, modify (set_cluster_ids (λ ids, ids ++ [UNCLASSIFIED]))) tt s
  = Ok (tt, with_ids (cluster_ids s ++ replicate n UNCLASSIFIED) s, []).
Proof.
  destruct (for_range_rule
    (λ i (_ : unit) s' log,
       s' = with_ids (cluster_ids s ++ replicate i UNCLASSIFIED) s ∧ log = [])
    n (λ _ _, modify (set_cluster_ids (λ ids, ids ++ [UNCLASSIFIED]))) tt s)
    as ([] & s' & log & Hrun & -> & ->).
  - simpl. by rewrite app_nil_r, with_ids_same.
  - intros i [] s1 log Hi [-> ->]. eexists tt, _, []. split; [reflexivity|].
    split; [|done]. rewrite set_cluster_ids_with, with_ids_with_ids. simpl.
    rewrite <- app_assoc. do 2 f_equal.
    change [UNCLASSIFIED] with (replicate 1 UNCLASSIFIED).
    rewrite <- replicate_add. by rewrite Nat.add_1_r.
  - done.
Qed.

(** [dbscan] returns and establishes [J (length objects)] for any
    invariant [J] of the scan that holds at its start and is carried by
    each step. *)
Lemma dbscan_rule fuel epsilon min_points s
    (J : nat → density random_type rng_type → list write → Prop) :
  J 0 (scan_start objects epsilon min_points s) [] →
  (∀ i s1 log, i < length objects → J i s1 log →
     ∃ s2 lg, scan_step fuel objects dmetric i s1 = Ok (tt, s2, lg)
              ∧ J (S i) s2 (log ++ lg)) →
  ∃ s' log,
    dbscan fuel objects dmetric epsilon min_points s = Ok (tt, s', log)
    ∧ J (length objects) s' log.
Proof.
  intros H0 Hstep.
  destruct (for_range_rule (λ i (_ : unit) s1 log, J i s1 log) (length objects)
              (λ i _, scan_step fuel objects dmetric i) tt
              (scan_start objects epsilon min_points s) H0)
    as ([] & s' & log & Hrun & HJ).
  { intros i [] s1 log Hi HJ. destruct (Hstep i s1 log Hi HJ) as (s2 & lg & H1 & H2).
    by exists tt, s2, lg. }
  exists s', log. split; [|done].
  unfold dbscan.
  erewrite bind_Ok by reflexivity.
  erewrite bind_Ok by reflexivity.
  erewrite bind_Ok by apply push_loop_spec.
  unfold scan_start in Hrun. simpl in *. rewrite Hrun. reflexivity.
Qed.

(** The three ways a step of the scan can go. *)
Lemma scan_step_skip fuel i s v :
  cluster_ids s !! i = Some v → v ≠ UNCLASSIFIED →
  scan_step fuel objects dmetric i s = Ok (tt, s, []).
Proof.
  intros Hv Hne. unfold scan_step, bind, get_cluster_id. rewrite Hv.
  destruct (N.eqb_spec v UNCLASSIFIED); done.
Qed.

Lemma scan_step_noise fuel i s :
  i < length objects →
  cluster_ids s !! i = Some UNCLASSIFIED →
  is_core objects dmetric (epsilon_ s) (min_points_ s) i = false →
  scan_step fuel objects dmetric i s
  = Ok (tt, with_ids (<[i := NOISE]> (cluster_ids s)) s,
        [Write SeedNoise i i UNCLASSIFIED NOISE]).
Proof.
  intros Hi Hv Hcore. unfold scan_step.
  erewrite bind_Ok by (unfold get_cluster_id; rewrite Hv; reflexivity).
  simpl. erewrite bind_Ok by (by apply expand_cluster_noise).
  reflexivity.
Qed.

Lemma scan_step_cluster fuel i s ids' log :
  cluster_ids s !! i = Some UNCLASSIFIED →
  expand_cluster fuel objects dmetric i s = Ok (true, with_ids ids' s, log) →
  scan_step fuel objects dmetric i s
  = Ok (tt, count_cluster i (with_ids ids' s), log).
Proof.
  intros Hv Hrun. unfold scan_step.
  erewrite bind_Ok by (unfold get_cluster_id; rewrite Hv; reflexivity).
  simpl. erewrite bind_Ok by exact Hrun.
  simpl. unfold bind, modify. simpl. by rewrite !app_nil_r.
Qed.

(** *** Inputs without two objects closer than [epsilon] *)

Lemma insert_replicate_boundary (i n : nat) (x y : N) :
  i < n →
  <[i := x]> (replicate i x ++ replicate (n - i) y)
  = replicate (S i) x ++ replicate (n - S i) y.
Proof.
  intros Hi. replace (n - i) with (S (n - S i)) by lia.
  rewrite (replicate_S_end i x), <- app_assoc.
  rewrite insert_app_r_alt by (rewrite length_replicate; lia).
  by rewrite length_replicate, Nat.sub_diag.
Qed.

Lemma isolated_not_core eps mp i :
  (2 ≤ mp)%N →
  (∀ j a b, j ≠ i → objects !! i = Some a → objects !! j = Some b →
            PrimFloat.ltb (dmetric a b) eps = false) →
  is_core objects dmetric eps mp i = false.
Proof.
  intros Hmp Hfar. unfold is_core. apply N.leb_gt.
  assert (Hall : ∀ j, j ∈ neighbourhood objects dmetric eps i → j = i).
  { intros j [Hj Hw]%elem_of_neighbourhood. unfold within in Hw.
    destruct (decide (j = i)) as [|Hne]; [done|].
    rewrite bool_decide_eq_false_2 in Hw by done. simpl in Hw.
    destruct (objects !! i) as [a|] eqn:Ha; [|done].
    destruct (objects !! j) as [b|] eqn:Hb; [|done].
    by rewrite (Hfar j a b) in Hw. }
  pose proof (NoDup_neighbourhood objects dmetric eps i) as Hnd.
  destruct (neighbourhood objects dmetric eps i) as [|x [|y l]]; simpl; [lia..|].
  exfalso. apply NoDup_cons in Hnd as [Hx _]. apply Hx.
  rewrite (Hall x), (Hall y); [by left|right; by left|by left].
Qed.

(** C8 (amended): if every two objects at different positions are at a
    distance [>= epsilon] and [min_points >= 2], a run on a fresh instance
    returns with every entry [NOISE], no medoid and [total_clusters_ = 0],
    whatever the budget. *)
Theorem all_noise (fuel : nat) (epsilon : float) (min_points : N)
    (r : random_type) (g : rng_type) (e0 : float) (m0 : N) :
  (2 ≤ min_points)%N →
  (∀ i j a b, i ≠ j → objects !! i = Some a → objects !! j = Some b →
              PrimFloat.leb epsilon (dmetric a b) = true) →
  ∃ s' log,
    dbscan fuel objects dmetric epsilon min_points (fresh r g e0 m0) = Ok (tt, s', log)
    ∧ cluster_ids s' = replicate (length objects) NOISE
    ∧ medoid_ids s' = []
    ∧ total_clusters_ s' = 0%N.
Proof.
  intros Hmp Hfar.
  destruct (dbscan_rule fuel epsilon min_points (fresh r g e0 m0)
    (λ i s log,
       epsilon_ s = epsilon ∧ min_points_ s = min_points
       ∧ cluster_ids s = replicate i NOISE ++ replicate (length objects - i) UNCLASSIFIED
       ∧ medoid_ids s = [] ∧ total_clusters_ s = 0%N))
    as (s' & log & Hrun & _ & _ & Hids & Hmed & Htot).
  - simpl. by rewrite Nat.sub_0_r.
  - intros i s log Hi (Heps & Hmin & Hids & Hmed & Htot).
    assert (Hlook : cluster_ids s !! i = Some UNCLASSIFIED).
    { rewrite Hids, lookup_app_r by (rewrite length_replicate; lia).
      rewrite length_replicate, Nat.sub_diag. apply lookup_replicate_2. lia. }
    eexists _, _. split.
    + apply scan_step_noise; [done..|]. rewrite Heps, Hmin.
      apply isolated_not_core; [done|].
      intros j a b Hne Ha Hb. apply leb_not_ltb. by apply (Hfar i j).
    + simpl. repeat (split; [done|]). split; [|done].
      rewrite Hids. by apply insert_replicate_boundary.
  - exists s', log. rewrite Nat.sub_diag, app_nil_r in Hids. done.
Qed.

(** *** The invariant of the scan *)

Lemma cluster_write_ok seed c w :
  (FIRST_CLUSTER ≤ c)%N → cluster_write seed c w → ok_write w.
Proof.
  intros Hc (_ & Hnew & [Hsite|[Hsite Hold]]); unfold ok_write; rewrite Hsite, Hnew.
  - done.
  - split; [|done]. by apply absorbable_true.
Qed.

Lemma scan_inv_start sp : scan_inv sp 0 sp [].
Proof.
  split; [done|]. split; [done|]. split; [done|]. split; [|split].
  - exists []. split; [by rewrite app_nil_r|]. split; [simpl; lia|].
    split; [done|]. split; [done|]. split; [constructor|].
    split; [by intros m Hm%not_elem_of_nil|].
    split; [by intros k m Hk|]. by intros w Hw%not_elem_of_nil.
  - split; [intros j Hj; lia|]. intros q v Hv. by left.
  - constructor.
Qed.

Lemma scan_inv_skip sp i s log v :
  cluster_ids s !! i = Some v → v ≠ UNCLASSIFIED →
  scan_inv sp i s log → scan_inv sp (S i) s (log ++ []).
Proof.
  intros Hv Hne (Heps & Hmp & Hlen & (ms & Hmed) & (Hdone & Hlab) & Hlog).
  rewrite app_nil_r.
  split; [done|]. split; [done|]. split; [done|]. split; [|split; [split|]]; try done.
  - exists ms. destruct Hmed as (H1 & H2 & H3 & H4 & H5 & H6 & H7).
    repeat (split; [done || lia|]). split; [|done].
    intros m Hm%H6. lia.
  - intros j Hj. destruct (decide (j = i)) as [->|]; [by exists v|].
    apply Hdone. lia.
Qed.

Lemma scan_inv_noise sp i s log :
  i < length (cluster_ids s) →
  scan_inv sp i s log →
  scan_inv sp (S i) (with_ids (<[i := NOISE]> (cluster_ids s)) s)
           (log ++ [Write SeedNoise i i UNCLASSIFIED NOISE]).
Proof.
  intros Hi (Heps & Hmp & Hlen & (ms & Hmed) & (Hdone & Hlab) & Hlog).
  split; [done|]. split; [done|]. split; [simpl; by rewrite length_insert|].
  split; [|split; [split|]].
  - exists ms. destruct Hmed as (H1 & H2 & H3 & H4 & H5 & H6 & H7 & H8).
    repeat (split; [done || lia|]).
    split; [intros m Hm%H6; lia|]. split.
    + intros k m Hk. apply elem_of_app. left. by apply H7.
    + intros w [Hw|Hw]%elem_of_app Hsite; [by apply H8|].
      apply list_elem_of_singleton in Hw as ->. done.
  - intros j Hj. simpl. destruct (decide (j = i)) as [->|Hne].
    + exists NOISE. split; [by apply list_lookup_insert_eq|done].
    + rewrite list_lookup_insert_ne by done. apply Hdone. lia.
  - intros q v. simpl. destruct (decide (q = i)) as [->|Hne].
    + rewrite list_lookup_insert_eq by done. intros [= <-]. auto.
    + rewrite list_lookup_insert_ne by done. apply Hlab.
  - apply Forall_app. split; [done|]. by repeat constructor.
Qed.

Lemma size_incr_small (x : N) : (x + 1 < SIZE_MODULUS)%N → size_incr x = (x + 1)%N.
Proof. intros H. unfold size_incr. by apply N.mod_small. Qed.

Lemma scan_inv_cluster sp i s log ids' lg :
  i < length objects →
  (FIRST_CLUSTER ≤ current_cluster_id_ sp)%N →
  (current_cluster_id_ sp + N.of_nat (length objects) < SIZE_MODULUS)%N →
  cluster_ids s !! i = Some UNCLASSIFIED →
  scan_inv sp i s log →
  expansion_inv objects dmetric (epsilon_ s) i (current_cluster_id_ s) (cluster_ids s) [] ids' lg →
  scan_inv sp (S i) (count_cluster i (with_ids ids' s)) (log ++ lg).
Proof.
  intros Hi Hc0 Hbound Hzero
    (Heps & Hmp & Hlen & (ms & Hmed) & (Hdone & Hlab) & Hlog)
    (Hlen' & Hn & _ & Hmono & Hnb & Hlg & Hseed).
  destruct Hmed as (H1 & H2 & H3 & H4 & H5 & H6 & H7 & H8).
  rewrite Hzero in Hseed. simpl in Hseed.
  assert (Hc : (FIRST_CLUSTER ≤ current_cluster_id_ s)%N) by lia.
  assert (Hincr : size_incr (current_cluster_id_ s) = (current_cluster_id_ s + 1)%N).
  { apply size_incr_small. lia. }
  split; [done|]. split; [done|]. split; [simpl; lia|].
  split; [|split; [split|]].
  - exists (ms ++ [i]). unfold scan_medoids. rewrite length_app. simpl.
    split; [by rewrite H1, app_assoc|].
    split; [rewrite Hincr; lia|].
    split; [by rewrite Nat.add_1_r, H3|].
    split; [lia|].
    split.
    { apply StronglySorted_app. split; [|split; [done|repeat constructor]].
      intros m1 m2 Hm1%H6 Hm2%list_elem_of_singleton. lia. }
    split.
    { intros m [Hm%H6|Hm%list_elem_of_singleton]%elem_of_app; lia. }
    split.
    + intros k m [Hk|[Hk Hm]]%lookup_app_Some; apply elem_of_app.
      * left. by apply H7.
      * right. destruct (k - length ms) as [|k'] eqn:Hk'; [|done].
        injection Hm as <-. replace k with (length ms) by lia. by rewrite <- H2.
    + intros w [Hw|Hw]%elem_of_app Hsite.
      * destruct (H8 w Hw Hsite) as (k & Hk & Hnew). exists k.
        split; [by apply lookup_app_l_Some|done].
      * rewrite Forall_forall in Hlg. destruct (Hlg w Hw) as (Hws & Hwn & _).
        exists (length ms). split; [|by rewrite Hwn].
        rewrite Hws. by apply list_lookup_middle.
  - intros j Hj. simpl.
    destruct (decide (j = i)) as [->|Hne].
    + exists (current_cluster_id_ s). split; [|unfold FIRST_CLUSTER, UNCLASSIFIED in *; lia].
      apply Hnb. by apply neighbourhood_self.
    + destruct (Hdone j) as (v & Hv & Hv0); [lia|].
      destruct (Hmono j v Hv) as [H|H]; eexists; (split; [exact H|]); [done|].
      unfold FIRST_CLUSTER, UNCLASSIFIED in *; lia.
  - intros q v Hv. simpl in Hv |- *.
    assert (is_Some (cluster_ids s !! q)) as [v0 Hv0].
    { apply lookup_lt_is_Some. rewrite <- Hlen'. by apply lookup_lt_Some in Hv. }
    destruct (Hmono q v0 Hv0) as [H|H]; rewrite H in Hv; injection Hv as <-.
    + destruct (Hlab q v0 Hv0) as [?|[?|?]]; [by left|by right; left|].
      right; right. lia.
    + right; right. lia.
  - apply Forall_app. split; [done|].
    eapply Forall_impl; [exact Hlg|]. intros w. by apply cluster_write_ok.
Qed.

(** One step of the scan carries the invariant, on any instance whose
    current cluster id is a cluster id that the run cannot wrap around. *)
Lemma scan_inv_step fuel sp i s log :
  i < length objects →
  length objects ≤ length (cluster_ids sp) →
  length (cluster_ids sp) ≤ fuel →
  (FIRST_CLUSTER ≤ current_cluster_id_ sp)%N →
  (current_cluster_id_ sp + N.of_nat (length objects) < SIZE_MODULUS)%N →
  scan_inv sp i s log →
  ∃ s2 lg, scan_step fuel objects dmetric i s = Ok (tt, s2, lg)
           ∧ scan_inv sp (S i) s2 (log ++ lg).
Proof.
  intros Hi Hn Hfuel Hc0 Hbound HJ.
  pose proof HJ as (Heps & Hmp & Hlen & (ms & Hmed) & _).
  assert (is_Some (cluster_ids s !! i)) as [v Hv].
  { apply lookup_lt_is_Some. lia. }
  destruct (decide (v = UNCLASSIFIED)) as [->|Hne].
  - destruct (is_core objects dmetric (epsilon_ s) (min_points_ s) i) eqn:Hcore.
    + destruct (expand_cluster_core fuel i s) as (ids' & lg & Hrun & Hexp);
        [done|lia| |done|lia|].
      { destruct Hmed as (_ & H2 & _). rewrite H2.
        unfold FIRST_CLUSTER, UNCLASSIFIED in *. lia. }
      eexists _, _. split; [by eapply scan_step_cluster|].
      by eapply scan_inv_cluster.
    + eexists _, _. split; [by apply scan_step_noise|].
      apply scan_inv_noise; [lia|done].
  - eexists _, _. split; [by eapply scan_step_skip|].
    by eapply scan_inv_skip.
Qed.

(** A run from any instance whose current cluster id is at least
    [FIRST_CLUSTER] and cannot wrap around returns within a budget of the
    length of the assignment array, and the scan invariant holds at its
    end. *)
Lemma dbscan_scan_inv fuel epsilon min_points s :
  (FIRST_CLUSTER ≤ current_cluster_id_ s)%N →
  (current_cluster_id_ s + N.of_nat (length objects) < SIZE_MODULUS)%N →
  length (cluster_ids s) + length objects ≤ fuel →
  ∃ s' log,
    dbscan fuel objects dmetric epsilon min_points s = Ok (tt, s', log)
    ∧ scan_inv (scan_start objects epsilon min_points s) (length objects) s' log.
Proof.
  intros Hc Hbound Hfuel.
  apply (dbscan_rule fuel epsilon min_points s
           (scan_inv (scan_start objects epsilon min_points s))).
  - apply scan_inv_start.
  - intros i s1 log Hi HJ.
    apply (scan_inv_step fuel (scan_start objects epsilon min_points s)); try done;
      simpl; rewrite length_app, length_replicate; lia.
Qed.

(** *** The log is the history of the assignment array *)

Lemma history_app ids1 l1 ids2 l2 ids3 :
  history ids1 l1 ids2 → history ids2 l2 ids3 → history ids1 (l1 ++ l2) ids3.
Proof.
  revert ids1. induction l1 as [|w l1 IH]; intros ids1; simpl.
  - by intros ->.
  - intros [Hold Hrest] H2. split; [done|]. by apply IH.
Qed.

Lemma faithful_ret {A} (a : A) : faithful (ret a : M random_type rng_type A).
Proof. by intros s a' s' l [= _ <- <-]. Qed.

Lemma faithful_bind {A B} (m : M random_type rng_type A)
    (f : A → M random_type rng_type B) :
  faithful m → (∀ a, faithful (f a)) → faithful (bind m f).
Proof.
  intros Hm Hf s b s' l (a & s1 & l1 & l2 & H1 & H2 & ->)%bind_inv.
  eapply history_app; [by eapply Hm | by eapply Hf].
Qed.

Lemma faithful_gets {A} (f : density random_type rng_type → A) : faithful (gets f).
Proof. by intros s a' s' l [= _ <- <-]. Qed.

Lemma faithful_modify (f : density random_type rng_type → density random_type rng_type) :
  (∀ s, cluster_ids (f s) = cluster_ids s) → faithful (modify f).
Proof. intros Hf s a' s' l [= _ <- <-]. simpl. apply Hf. Qed.

Lemma faithful_object_at (l : list T) i :
  faithful (object_at (random_type := random_type) (rng_type := rng_type) l i).
Proof.
  intros s a s' lg. unfold object_at. destruct (l !! i); [|done].
  by intros [= _ <- <-].
Qed.

Lemma faithful_get_cluster_id i :
  faithful (get_cluster_id (random_type := random_type) (rng_type := rng_type) i).
Proof.
  intros s a s' lg. unfold get_cluster_id. destruct (cluster_ids s !! i); [|done].
  by intros [= _ <- <-].
Qed.

Lemma faithful_set_cluster_id st seed i v :
  faithful (set_cluster_id (random_type := random_type) (rng_type := rng_type)
              st seed i v).
Proof.
  intros s a s' lg. unfold set_cluster_id.
  destruct (cluster_ids s !! i) as [old|] eqn:Hold; [|done].
  intros [= _ <- <-]. simpl. done.
Qed.

Lemma faithful_out_of_fuel {A} :
  faithful (out_of_fuel (A := A) (random_type := random_type) (rng_type := rng_type)).
Proof. by intros s a s' l. Qed.

Lemma faithful_foldM {A B} (body : B → A → M random_type rng_type B) l b :
  (∀ b x, faithful (body b x)) → faithful (foldM body l b).
Proof.
  intros Hbody. revert b. induction l as [|x l IH]; intros b; simpl.
  - apply faithful_ret.
  - apply faithful_bind; [apply Hbody | apply IH].
Qed.

Ltac faithful_step :=
  first
    [ apply faithful_ret
    | apply faithful_out_of_fuel
    | apply faithful_object_at
    | apply faithful_get_cluster_id
    | apply faithful_set_cluster_id
    | apply faithful_gets
    | apply faithful_modify; reflexivity
    | apply faithful_bind; [|intros ?]
    | apply faithful_foldM; intros ? ?
    | match goal with
      | |- faithful (if ?b then _ else _) => destruct b
      end ].

Lemma faithful_epsilon_range_query i :
  faithful (epsilon_range_query (random_type := random_type) (rng_type := rng_type)
              objects dmetric i).
Proof.
  unfold epsilon_range_query, for_range, range_query_step. repeat faithful_step.
Qed.

Lemma faithful_visit_seed seed p :
  faithful (visit_seed (random_type := random_type) (rng_type := rng_type)
              objects dmetric seed p).
Proof.
  unfold visit_seed. apply faithful_bind; [apply faithful_epsilon_range_query|].
  intros l. unfold absorb_neighbours, absorb_step. repeat faithful_step.
Qed.

Lemma faithful_expand_seeds fuel seed l :
  faithful (expand_seeds (random_type := random_type) (rng_type := rng_type)
              fuel objects dmetric seed l).
Proof.
  revert l. induction fuel as [|fuel IH]; intros [|p rest]; simpl;
    try faithful_step.
  - apply faithful_visit_seed.
  - apply IH.
Qed.

Lemma faithful_expand_cluster fuel seed :
  faithful (expand_cluster (random_type := random_type) (rng_type := rng_type)
              fuel objects dmetric seed).
Proof.
  unfold expand_cluster. apply faithful_bind; [apply faithful_epsilon_range_query|].
  intros l. faithful_step; [faithful_step|]. faithful_step.
  - repeat faithful_step.
  - unfold label_seed_list, label_seed_step.
    apply faithful_bind; [repeat faithful_step|]. intros l'.
    apply faithful_bind; [apply faithful_expand_seeds|]. intros _.
    apply faithful_ret.
Qed.

Lemma faithful_scan_step fuel i :
  faithful (scan_step (random_type := random_type) (rng_type := rng_type)
              fuel objects dmetric i).
Proof.
  unfold scan_step.
  apply faithful_bind; [faithful_step|]. intros v. faithful_step; [|faithful_step].
  apply faithful_bind; [apply faithful_expand_cluster|]. intros b.
  repeat faithful_step.
Qed.

(** The log of a run is the history of the array from the state in which
    the scan starts, the [objects.size()] entries appended by lines 93-95
    included. *)
Lemma dbscan_history fuel epsilon min_points s s' log :
  dbscan fuel objects dmetric epsilon min_points s = Ok (tt, s', log) →
  history (cluster_ids s ++ replicate (length objects) UNCLASSIFIED) log (cluster_ids s').
Proof.
  unfold dbscan. intros Hrun.
  erewrite bind_Ok in Hrun by reflexivity.
  erewrite bind_Ok in Hrun by reflexivity.
  erewrite bind_Ok in Hrun by apply push_loop_spec.
  destruct (for_range _ _ _ _) as [[[[] s2] l2]| |] eqn:Hscan; [|done..].
  injection Hrun as <- <-.
  unfold for_range in Hscan. apply faithful_foldM in Hscan; [done|].
  intros [] i. apply faithful_scan_step.
Qed.

(** *** The budget only decides whether the seed-list loop finishes *)

Lemma extends_refl {A} (m : M random_type rng_type A) : extends m m.
Proof. by intros s r. Qed.

Lemma extends_bind {A B} (m m' : M random_type rng_type A)
    (f f' : A → M random_type rng_type B) :
  extends m m' → (∀ a, extends (f a) (f' a)) → extends (bind m f) (bind m' f').
Proof.
  intros Hm Hf s [[b s2] l] (a & s1 & l1 & l2 & H1 & H2 & ->)%bind_inv.
  apply Hm in H1. apply Hf in H2. by apply bind_Ok_Ok with a s1.
Qed.

Lemma extends_foldM {A B} (body body' : B → A → M random_type rng_type B) l b :
  (∀ b x, extends (body b x) (body' b x)) →
  extends (foldM body l b) (foldM body' l b).
Proof.
  intros Hbody. revert b. induction l as [|x l IH]; intros b; simpl.
  - apply extends_refl.
  - apply extends_bind; [apply Hbody | apply IH].
Qed.

Lemma expand_seeds_fuel fuel fuel' seed l :
  fuel ≤ fuel' →
  extends (expand_seeds fuel objects dmetric seed l)
          (expand_seeds (random_type := random_type) (rng_type := rng_type)
             fuel' objects dmetric seed l).
Proof.
  revert fuel' l. induction fuel as [|fuel IH]; intros fuel' [|p rest] Hle.
  - destruct fuel'; apply extends_refl.
  - by intros s r.
  - destruct fuel'; apply extends_refl.
  - destruct fuel' as [|fuel']; [lia|]. simpl.
    apply extends_bind; [apply extends_refl|]. intros pushed. apply IH. lia.
Qed.

Lemma expand_cluster_fuel fuel fuel' seed :
  fuel ≤ fuel' →
  extends (expand_cluster fuel objects dmetric seed)
          (expand_cluster (random_type := random_type) (rng_type := rng_type)
             fuel' objects dmetric seed).
Proof.
  intros Hle. unfold expand_cluster.
  apply extends_bind; [apply extends_refl|]. intros l.
  apply extends_bind; [apply extends_refl|]. intros mp.
  destruct (_ <? _)%N; [apply extends_refl|].
  apply extends_bind; [apply extends_refl|]. intros l'.
  apply extends_bind; [by apply expand_seeds_fuel|]. intros _. apply extends_refl.
Qed.

(** A run that returns within a budget returns the same with any larger
    budget. *)
Lemma dbscan_fuel fuel fuel' epsilon min_points :
  fuel ≤ fuel' →
  extends (dbscan fuel objects dmetric epsilon min_points)
          (dbscan (random_type := random_type) (rng_type := rng_type)
             fuel' objects dmetric epsilon min_points).
Proof.
  intros Hle. unfold dbscan, for_range.
  do 3 (apply extends_bind; [apply extends_refl|intros _]).
  apply extends_foldM. intros [] i. unfold scan_step.
  apply extends_bind; [apply extends_refl|]. intros v.
  destruct (v =? UNCLASSIFIED)%N; [|apply extends_refl].
  apply extends_bind; [by apply expand_cluster_fuel|]. intros b. apply extends_refl.
Qed.

(** *** Runs on a fresh instance *)

Lemma iter_size_incr (k : nat) :
  (N.of_nat k < SIZE_MODULUS)%N → Nat.iter k size_incr 0%N = N.of_nat k.
Proof.
  induction k as [|k IH]; intros Hk; [done|].
  simpl. rewrite IH by lia. rewrite size_incr_small by lia. lia.
Qed.

(** The facts about a run on a fresh instance that the claims draw on. *)
Lemma dbscan_fresh fuel epsilon min_points r g e0 m0 :
  (N.of_nat (length objects) + FIRST_CLUSTER < SIZE_MODULUS)%N →
  length objects ≤ fuel →
  ∃ s' log,
    dbscan fuel objects dmetric epsilon min_points (fresh r g e0 m0) = Ok (tt, s', log)
    ∧ epsilon_ s' = epsilon ∧ min_points_ s' = min_points
    ∧ length (cluster_ids s') = length objects
    ∧ current_cluster_id_ s' = (FIRST_CLUSTER + N.of_nat (length (medoid_ids s')))%N
    ∧ total_clusters_ s' = N.of_nat (length (medoid_ids s'))
    ∧ length (medoid_ids s') ≤ length objects
    ∧ StronglySorted lt (medoid_ids s')
    ∧ (∀ k m, medoid_ids s' !! k = Some m →
         m < length objects
         ∧ Write SeedNeighbourhood m m UNCLASSIFIED (FIRST_CLUSTER + N.of_nat k)%N ∈ log)
    ∧ (∀ w, w ∈ log → w_site w ≠ SeedNoise →
         ∃ k, medoid_ids s' !! k = Some (w_seed w)
              ∧ w_new w = (FIRST_CLUSTER + N.of_nat k)%N)
    ∧ (∀ i, i < length objects →
         ∃ v, cluster_ids s' !! i = Some v
              ∧ (v = NOISE
                 ∨ (FIRST_CLUSTER ≤ v < FIRST_CLUSTER + N.of_nat (length (medoid_ids s')))%N))
    ∧ Forall ok_write log.
Proof.
  intros Hbound Hfuel.
  destruct (dbscan_scan_inv fuel epsilon min_points (fresh r g e0 m0))
    as (s' & log & Hrun & Heps & Hmp & Hlen & (ms & Hmed) & (Hdone & Hlab) & Hlog).
  { done. }
  { simpl. lia. }
  { simpl. lia. }
  destruct Hmed as (H1 & H2 & H3 & H4 & H5 & H6 & H7 & H8).
  simpl in *. rewrite length_replicate in Hlen. subst ms.
  exists s', log. split; [done|]. split; [done|]. split; [done|]. split; [done|].
  split; [done|]. split; [rewrite H3; apply iter_size_incr; lia|].
  split; [done|]. split; [done|]. split; [|split; [done|split; [|done]]].
  - intros k m Hk. split; [|by apply H7].
    apply H6. by eapply list_elem_of_lookup_2.
  - intros i Hi. destruct (Hdone i Hi) as (v & Hv & Hv0). exists v. split; [done|].
    destruct (Hlab i v Hv) as [Hsp|[?|?]]; [|by left|right; lia].
    apply lookup_replicate in Hsp as [-> _]. done.
Qed.

(** C3: a run on a fresh instance returns, the assignment array has one
    entry per object, and every entry is [NOISE] or a cluster id from
    [FIRST_CLUSTER] up to the last one assigned; none is [UNCLASSIFIED].
    The length bound is the one that [std::vector] imposes on any vector;
    the budget of the seed-list loop is the number of objects. *)
Theorem dbscan_total (fuel : nat) (epsilon : float) (min_points : N)
    (r : random_type) (g : rng_type) (e0 : float) (m0 : N) :
  (N.of_nat (length objects) + FIRST_CLUSTER < SIZE_MODULUS)%N →
  length objects ≤ fuel →
  ∃ s' log,
    dbscan fuel objects dmetric epsilon min_points (fresh r g e0 m0) = Ok (tt, s', log)
    ∧ length (cluster_ids s') = length objects
    ∧ ∀ i, i < length objects →
        ∃ v, cluster_ids s' !! i = Some v
             ∧ v ≠ UNCLASSIFIED
             ∧ (v = NOISE
                ∨ (FIRST_CLUSTER ≤ v < FIRST_CLUSTER + total_clusters_ s')%N).
Proof.
  intros Hbound Hfuel.
  destruct (dbscan_fresh fuel epsilon min_points r g e0 m0 Hbound Hfuel)
    as (s' & log & Hrun & _ & _ & Hlen & _ & Htot & _ & _ & _ & _ & Hlab & _).
  exists s', log. split; [done|]. split; [done|].
  intros i Hi. destruct (Hlab i Hi) as (v & Hv & Hcase). exists v.
  split; [done|]. rewrite Htot. split; [|done].
  unfold NOISE, FIRST_CLUSTER, UNCLASSIFIED in *. lia.
Qed.

(** C7: after a run on a fresh instance the medoid list has
    [total_clusters_] entries, the next cluster id is
    [FIRST_CLUSTER + total_clusters_], the medoids are in ascending order
    of position (the order of the scan), and the [k]-th medoid [m] is the
    seed whose expansion assigned [FIRST_CLUSTER + k]: that expansion gave
    [m] itself this id when [m] was [UNCLASSIFIED], and every assignment of
    this id in the run was made by the expansion of [m].  The assignments
    are those of the log, which is the history of the array over the run. *)
Theorem medoid_numbering (fuel : nat) (epsilon : float) (min_points : N)
    (r : random_type) (g : rng_type) (e0 : float) (m0 : N) :
  (N.of_nat (length objects) + FIRST_CLUSTER < SIZE_MODULUS)%N →
  length objects ≤ fuel →
  ∃ s' log,
    dbscan fuel objects dmetric epsilon min_points (fresh r g e0 m0) = Ok (tt, s', log)
    ∧ history (replicate (length objects) UNCLASSIFIED) log (cluster_ids s')
    ∧ N.of_nat (length (medoid_ids s')) = total_clusters_ s'
    ∧ current_cluster_id_ s' = (FIRST_CLUSTER + total_clusters_ s')%N
    ∧ StronglySorted lt (medoid_ids s')
    ∧ (∀ k m, medoid_ids s' !! k = Some m →
         m < length objects
         ∧ Write SeedNeighbourhood m m UNCLASSIFIED (FIRST_CLUSTER + N.of_nat k)%N ∈ log
         ∧ ∀ w, w ∈ log → w_new w = (FIRST_CLUSTER + N.of_nat k)%N → w_seed w = m)
    ∧ (∀ w, w ∈ log → (FIRST_CLUSTER ≤ w_new w)%N →
         ∃ k, medoid_ids s' !! k = Some (w_seed w)
              ∧ w_new w = (FIRST_CLUSTER + N.of_nat k)%N).
Proof.
  intros Hbound Hfuel.
  destruct (dbscan_fresh fuel epsilon min_points r g e0 m0 Hbound Hfuel)
    as (s' & log & Hrun & _ & _ & _ & Hcur & Htot & _ & Hsort & Hmed & Hwr & _ & Hlog).
  assert (Hseed : ∀ w, w ∈ log → (FIRST_CLUSTER ≤ w_new w)%N →
            ∃ k, medoid_ids s' !! k = Some (w_seed w)
                 ∧ w_new w = (FIRST_CLUSTER + N.of_nat k)%N).
  { intros w Hw Hnew. apply Hwr; [done|]. intros Hsite.
    rewrite Forall_forall in Hlog. specialize (Hlog w Hw).
    unfold ok_write in Hlog. rewrite Hsite in Hlog. destruct Hlog as (_ & Hn & _).
    rewrite Hn in Hnew. unfold NOISE, FIRST_CLUSTER in Hnew. lia. }
  exists s', log. split; [done|].
  split; [by apply dbscan_history in Hrun|].
  split; [done|]. split; [by rewrite Htot|].
  split; [done|]. split; [|done].
  intros k m Hk. destruct (Hmed k m Hk) as [Hm Hev]. split; [done|]. split; [done|].
  intros w Hw Hnew. destruct (Hseed w Hw) as (k' & Hk' & Hnew'); [lia|].
  assert (k' = k) as -> by lia. congruence.
Qed.

(** C1 (amended): in a run from an instance whose current cluster id is at
    least [FIRST_CLUSTER] (a fresh instance is one), every assignment to an
    entry of the array obeys: an [UNCLASSIFIED] entry becomes [NOISE] or a
    cluster id; a [NOISE] entry becomes a cluster id; an entry that holds a
    cluster id is never assigned by the noise statement (line 129) nor by
    the absorption of the seed-list loop (line 170), and is assigned a
    cluster id when the labelling of a seed's neighbourhood (line 137)
    assigns it.  The assignments are those of the log, which is the
    history of the array over the run. *)
Theorem writes_respect_labels (fuel : nat) (epsilon : float) (min_points : N)
    (s : density random_type rng_type) :
  (FIRST_CLUSTER ≤ current_cluster_id_ s)%N →
  (current_cluster_id_ s + N.of_nat (length objects) < SIZE_MODULUS)%N →
  length (cluster_ids s) + length objects ≤ fuel →
  ∃ s' log,
    dbscan fuel objects dmetric epsilon min_points s = Ok (tt, s', log)
    ∧ history (cluster_ids s ++ replicate (length objects) UNCLASSIFIED) log
              (cluster_ids s')
    ∧ ∀ w, w ∈ log →
        (w_old w = UNCLASSIFIED → w_new w = NOISE ∨ (FIRST_CLUSTER ≤ w_new w)%N)
        ∧ (w_old w = NOISE → (FIRST_CLUSTER ≤ w_new w)%N)
        ∧ ((FIRST_CLUSTER ≤ w_old w)%N →
           w_site w = SeedNeighbourhood ∧ (FIRST_CLUSTER ≤ w_new w)%N).
Proof.
  intros Hc Hbound Hfuel.
  destruct (dbscan_scan_inv fuel epsilon min_points s Hc Hbound Hfuel)
    as (s' & log & Hrun & _ & _ & _ & _ & _ & Hlog).
  exists s', log. split; [done|]. split; [by eapply dbscan_history|]. intros w Hw.
  rewrite Forall_forall in Hlog. specialize (Hlog w Hw). unfold ok_write in Hlog.
  unfold UNCLASSIFIED, NOISE, FIRST_CLUSTER in *.
  destruct (w_site w).
  - destruct Hlog as (Ho & Hn & _). rewrite Ho, Hn.
    split; [auto|]. split; [done|]. lia.
  - split; [auto|]. split; [done|]. done.
  - destruct Hlog as [[Ho|Ho] Hn]; rewrite Ho; (split; [auto|]); (split; [done|]); lia.
Qed.

(** *** A second run on the same instance *)

Lemma dbscan_all_classified fuel epsilon min_points s :
  (∀ i, i < length objects → ∃ v, cluster_ids s !! i = Some v ∧ v ≠ UNCLASSIFIED) →
  dbscan fuel objects dmetric epsilon min_points s
  = Ok (tt, scan_start objects epsilon min_points s, []).
Proof.
  intros Hall.
  destruct (dbscan_rule fuel epsilon min_points s
              (λ _ s1 log, s1 = scan_start objects epsilon min_points s ∧ log = []))
    as (s' & log & Hrun & -> & ->); [done| |done].
  intros i s1 log Hi [-> ->]. destruct (Hall i Hi) as (v & Hv & Hne).
  exists (scan_start objects epsilon min_points s), []. split; [|done].
  apply (scan_step_skip fuel i _ v); [|done].
  simpl. by apply lookup_app_l_Some.
Qed.

(** C10: [dbscan] appends to the assignment array.  After a run on a fresh
    instance, a second run on the same instance with the same objects (and
    any parameters and budget) returns with the first [n] entries, the
    medoid list and both counters as the first run left them, writes to no
    entry, and leaves the array with [2n] entries of which those at
    positions [n .. 2n-1] are [UNCLASSIFIED]. *)
Theorem second_run_appends (fuel : nat) (epsilon : float) (min_points : N)
    (r : random_type) (g : rng_type) (e0 : float) (m0 : N) :
  (N.of_nat (length objects) + FIRST_CLUSTER < SIZE_MODULUS)%N →
  length objects ≤ fuel →
  ∃ s1 log1,
    dbscan fuel objects dmetric epsilon min_points (fresh r g e0 m0) = Ok (tt, s1, log1)
    ∧ ∀ fuel2 epsilon2 min_points2,
        ∃ s2,
          dbscan fuel2 objects dmetric epsilon2 min_points2 s1 = Ok (tt, s2, [])
          ∧ cluster_ids s2
            = cluster_ids s1 ++ replicate (length objects) UNCLASSIFIED
          ∧ length (cluster_ids s2) = 2 * length objects
          ∧ (∀ i, i < length objects → cluster_ids s2 !! i = cluster_ids s1 !! i)
          ∧ (∀ i, length objects ≤ i < 2 * length objects →
               cluster_ids s2 !! i = Some UNCLASSIFIED)
          ∧ medoid_ids s2 = medoid_ids s1
          ∧ total_clusters_ s2 = total_clusters_ s1
          ∧ current_cluster_id_ s2 = current_cluster_id_ s1.
Proof.
  intros Hbound Hfuel.
  destruct (dbscan_fresh fuel epsilon min_points r g e0 m0 Hbound Hfuel)
    as (s1 & log1 & Hrun & _ & _ & Hlen & _ & _ & _ & _ & _ & _ & Hlab & _).
  exists s1, log1. split; [done|]. intros fuel2 epsilon2 min_points2.
  exists (scan_start objects epsilon2 min_points2 s1). split.
  { apply dbscan_all_classified. intros i Hi.
    destruct (Hlab i Hi) as (v & Hv & Hcase). exists v. split; [done|].
    unfold NOISE, FIRST_CLUSTER, UNCLASSIFIED in *. lia. }
  simpl. split; [done|].
  split; [rewrite length_app, length_replicate; lia|].
  split; [intros i Hi; apply lookup_app_l; lia|].
  split; [|done].
  intros i Hi. rewrite lookup_app_r by lia. apply lookup_replicate_2. lia.
Qed.

(** *** Density containment under a symmetric metric *)

Section Containment.

Variables (eps : float) (mp : N).

Hypothesis metric_symmetric :
  ∀ i j a b, objects !! i = Some a → objects !! j = Some b → dmetric a b = dmetric b a.

Lemma neighbourhood_sym i j :
  j ∈ neighbourhood objects dmetric eps i → i ∈ neighbourhood objects dmetric eps j.
Proof.
  rewrite !elem_of_neighbourhood. unfold within. intros [Hj Hw].
  destruct (decide (j = i)) as [->|Hne].
  { split; [done|]. by rewrite bool_decide_eq_true_2. }
  rewrite bool_decide_eq_false_2 in Hw by done. simpl in Hw.
  destruct (objects !! i) as [a|] eqn:Ha; [|done].
  destruct (objects !! j) as [b|] eqn:Hb; [|done].
  split; [by apply lookup_lt_Some in Ha|].
  rewrite (metric_symmetric j i b a Hb Ha), Hw. apply orb_true_r.
Qed.

Lemma absorbed_keeps c l ids ids' q w :
  absorbed c l ids ids' → ids !! q = Some w → (FIRST_CLUSTER ≤ w)%N →
  ids' !! q = Some w.
Proof.
  intros (_ & Hin & Hout) Hw Hw2. destruct (decide (q ∈ l)) as [Hq|Hq].
  - rewrite (Hin q w Hq Hw). apply absorbable_false in Hw2. by rewrite Hw2.
  - by rewrite Hout.
Qed.

Lemma absorbed_origin c l ids ids' q w :
  absorbed c l ids ids' → ids' !! q = Some w →
  ids !! q = Some w
  ∨ (w = c ∧ q ∈ l ∧ (ids !! q = Some UNCLASSIFIED ∨ ids !! q = Some NOISE)).
Proof.
  intros (Hlen & Hin & Hout) Hw. destruct (decide (q ∈ l)) as [Hq|Hq].
  - assert (is_Some (ids !! q)) as [v Hv].
    { apply lookup_lt_is_Some. rewrite <- Hlen. by apply lookup_lt_Some in Hw. }
    rewrite (Hin q v Hq Hv) in Hw. destruct (absorbable v) eqn:Hab.
    + right. injection Hw as <-. split; [done|]. split; [done|].
      apply absorbable_true in Hab as [->| ->]; auto.
    + left. congruence.
  - left. by rewrite <- Hout.
Qed.

Lemma settled_absorbed c l ids ids' p :
  absorbed c l ids ids' → p < length objects → settled objects dmetric eps mp ids p → settled objects dmetric eps mp ids' p.
Proof.
  intros Habs Hp Hset q Hq. destruct (Hset q Hq) as (w & Hw & Hw2 & Hcore).
  exists w. split; [by eapply absorbed_keeps|]. split; [done|].
  intros Hq_core. eapply absorbed_keeps; [done| |done]. by apply Hcore.
Qed.

Lemma density_step c p rest ids ids' :
  (FIRST_CLUSTER ≤ c)%N →
  p < length objects →
  length objects ≤ length ids →
  (∀ p', p' ∈ p :: rest → ids !! p' = Some c) →
  density_inv objects dmetric eps mp (p :: rest) ids →
  absorbed c (examined objects dmetric eps mp p) ids ids' →
  density_inv objects dmetric eps mp (rest ++ unclassified_in ids (examined objects dmetric eps mp p)) ids'
  ∧ (∀ p', p' ∈ rest ++ unclassified_in ids (examined objects dmetric eps mp p) →
           ids' !! p' = Some c).
Proof.
  intros Hc Hp Hlen Hpend [Hsettle Hnoise] Habs.
  assert (Hpc : ids !! p = Some c) by (apply Hpend; by left).
  split; [split|].
  - intros p' v Hp' Hcore' Hv' Hv0.
    destruct (absorbed_origin _ _ _ _ _ _ Habs Hv') as [Hv|(-> & Hin & [H0|H1])].
    + destruct (Hsettle p' v Hp' Hcore' Hv Hv0) as [[->|Hrest]%elem_of_cons|Hset].
      * right. unfold examined in Habs. rewrite Hcore' in Habs.
        intros q Hq.
        assert (is_Some (ids !! q)) as [w0 Hw0].
        { apply lookup_lt_is_Some. apply neighbourhood_lt in Hq. lia. }
        assert (Hp'c : ids' !! p = Some c) by (by eapply absorbed_keeps).
        destruct (absorbable w0) eqn:Hab.
        -- exists c. destruct Habs as (_ & Habs & _).
           rewrite (Habs q w0 Hq Hw0), Hab. done.
        -- apply absorbable_false in Hab. exists w0.
           split; [by eapply absorbed_keeps|]. split; [done|].
           intros Hq_core. rewrite Hp'c. f_equal.
           assert (Hw0' : w0 ≠ UNCLASSIFIED)
             by (unfold FIRST_CLUSTER, UNCLASSIFIED in *; lia).
           destruct (Hsettle q w0 (neighbourhood_lt _ _ _ _ _ Hq) Hq_core Hw0 Hw0')
             as [Hq_pend|Hq_set].
           ++ rewrite (Hpend q Hq_pend) in Hw0. congruence.
           ++ destruct (Hq_set p (neighbourhood_sym _ _ Hq)) as (w & Hw & _ & Hqw).
              rewrite (Hqw Hcore') in Hw0. congruence.
      * left. apply elem_of_app. by left.
      * right. by eapply settled_absorbed.
    + left. apply elem_of_app. right. apply list_elem_of_filter. done.
    + by rewrite (Hnoise p' Hp' H1) in Hcore'.
  - intros p' Hp' Hv'.
    destruct (absorbed_origin _ _ _ _ _ _ Habs Hv') as [Hv|(Heq & _)].
    + by apply Hnoise.
    + unfold NOISE, FIRST_CLUSTER in *. lia.
  - intros p' [Hrest|[H0 Hin]%list_elem_of_filter]%elem_of_app.
    + eapply absorbed_keeps; [done| |done]. apply Hpend. by right.
    + destruct Habs as (_ & Habs & _). by rewrite (Habs p' _ Hin H0).
Qed.

Lemma density_init c seed ids ids1 :
  (FIRST_CLUSTER ≤ c)%N →
  seed < length objects →
  ids !! seed = Some UNCLASSIFIED →
  density_inv objects dmetric eps mp [] ids →
  labelled c (neighbourhood objects dmetric eps seed) ids ids1 →
  density_inv objects dmetric eps mp (filter (λ j, j ≠ seed) (neighbourhood objects dmetric eps seed)) ids1
  ∧ (∀ p', p' ∈ filter (λ j, j ≠ seed) (neighbourhood objects dmetric eps seed) →
           ids1 !! p' = Some c).
Proof.
  intros Hc Hseed Hzero [Hsettle Hnoise] (Hlen & Hin & Hout).
  split; [split|].
  - intros p' v Hp' Hcore' Hv' Hv0.
    destruct (decide (p' ∈ neighbourhood objects dmetric eps seed)) as [Hnb|Hnb].
    + destruct (decide (p' = seed)) as [->|Hne].
      * right. intros q Hq. exists c. rewrite !Hin by (done || by apply neighbourhood_self).
        done.
      * left. by apply list_elem_of_filter.
    + right. rewrite Hout in Hv' by done.
      destruct (Hsettle p' v Hp' Hcore' Hv' Hv0) as [Hnil|Hset];
        [by apply not_elem_of_nil in Hnil|].
      intros q Hq. destruct (Hset q Hq) as (w & Hw & Hw2 & Hqcore).
      destruct (decide (q ∈ neighbourhood objects dmetric eps seed)) as [Hqnb|Hqnb].
      * exists c. split; [by apply Hin|]. split; [done|].
        intros Hq_core. exfalso.
        assert (Hw0 : w ≠ UNCLASSIFIED)
          by (unfold FIRST_CLUSTER, UNCLASSIFIED in *; lia).
        destruct (Hsettle q w (neighbourhood_lt _ _ _ _ _ Hq) Hq_core Hw Hw0)
          as [Hnil|Hq_set]; [by apply not_elem_of_nil in Hnil|].
        destruct (Hq_set seed (neighbourhood_sym _ _ Hqnb)) as (w' & Hw' & Hw'2 & _).
        rewrite Hzero in Hw'. injection Hw' as <-.
        unfold FIRST_CLUSTER, UNCLASSIFIED in *. lia.
      * exists w. rewrite !Hout by done. auto.
  - intros p' Hp' Hv'.
    destruct (decide (p' ∈ neighbourhood objects dmetric eps seed)) as [Hnb|Hnb].
    + rewrite Hin in Hv' by done. injection Hv' as ->.
      unfold NOISE, FIRST_CLUSTER in *. lia.
    + rewrite Hout in Hv' by done. by apply Hnoise.
  - intros p' [_ Hp']%list_elem_of_filter. by apply Hin.
Qed.

Lemma density_noise seed ids :
  ids !! seed = Some UNCLASSIFIED →
  is_core objects dmetric eps mp seed = false →
  density_inv objects dmetric eps mp [] ids →
  density_inv objects dmetric eps mp [] (<[seed := NOISE]> ids).
Proof.
  intros Hzero Hcore [Hsettle Hnoise].
  assert (Hseed : seed < length ids) by (by apply lookup_lt_Some in Hzero).
  split.
  - intros p v Hp Hp_core Hv Hv0. right.
    assert (p ≠ seed) as Hne by (intros ->; congruence).
    rewrite list_lookup_insert_ne in Hv by done.
    destruct (Hsettle p v Hp Hp_core Hv Hv0) as [Hnil|Hset];
      [by apply not_elem_of_nil in Hnil|].
    intros q Hq. destruct (Hset q Hq) as (w & Hw & Hw2 & Hqcore).
    assert (q ≠ seed) as Hqne.
    { intros ->. rewrite Hzero in Hw. injection Hw as <-.
      unfold FIRST_CLUSTER, UNCLASSIFIED in *. lia. }
    exists w. rewrite !list_lookup_insert_ne by done. auto.
  - intros p Hp Hv. destruct (decide (p = seed)) as [->|Hne]; [done|].
    rewrite list_lookup_insert_ne in Hv by done. by apply Hnoise.
Qed.

End Containment.

(** An expansion of a core point that holds [UNCLASSIFIED] carries the
    density invariant, under a symmetric metric. *)
Lemma expand_cluster_dense fuel seed s :
  (∀ i j a b, objects !! i = Some a → objects !! j = Some b →
              dmetric a b = dmetric b a) →
  seed < length objects →
  length objects ≤ length (cluster_ids s) →
  (FIRST_CLUSTER ≤ current_cluster_id_ s)%N →
  is_core objects dmetric (epsilon_ s) (min_points_ s) seed = true →
  length (cluster_ids s) ≤ fuel →
  cluster_ids s !! seed = Some UNCLASSIFIED →
  density_inv objects dmetric (epsilon_ s) (min_points_ s) [] (cluster_ids s) →
  ∃ ids' log,
    expand_cluster fuel objects dmetric seed s = Ok (true, with_ids ids' s, log)
    ∧ expansion_inv objects dmetric (epsilon_ s) seed (current_cluster_id_ s) (cluster_ids s) [] ids' log
    ∧ density_inv objects dmetric (epsilon_ s) (min_points_ s) [] ids'.
Proof.
  intros Hsym Hseed Hlen Hc Hcore Hfuel Hzero Hdense.
  destruct (expand_cluster_rule fuel seed s
    (λ pending ids log,
       expansion_inv objects dmetric (epsilon_ s) seed (current_cluster_id_ s) (cluster_ids s)
                     pending ids log
       ∧ density_inv objects dmetric (epsilon_ s) (min_points_ s) pending ids
       ∧ (∀ p, p ∈ pending → ids !! p = Some (current_cluster_id_ s))))
    as (ids' & log & Hrun & Hexp & Hd & _); try done.
  - unfold FIRST_CLUSTER, UNCLASSIFIED in *. lia.
  - intros p rest ids log [Hexp _]. by eapply expansion_inv_range.
  - intros p rest ids log ids' (Hexp & Hd & Hpend) Habs.
    destruct (expansion_inv_range _ _ _ _ _ _ _ _ Hexp) as [Hp Hn].
    split; [by apply expansion_inv_step|].
    apply (density_step (epsilon_ s) (min_points_ s) Hsym
             (current_cluster_id_ s) p rest ids ids'); done.
  - intros ids1 Hlab. split; [by apply expansion_inv_init|].
    by apply (density_init (epsilon_ s) (min_points_ s) Hsym
                (current_cluster_id_ s) seed (cluster_ids s) ids1).
  - by exists ids', log.
Qed.

(** C2 (amended): under a symmetric metric, after a run on a fresh
    instance, for every core point [p] (a position whose neighbourhood,
    [p] included and with the strict comparison, has at least [min_points]
    positions), every position [q] of that neighbourhood holds a cluster
    id, and if [q] is a core point too it holds the same cluster id as
    [p]. *)
Theorem density_containment (fuel : nat) (epsilon : float) (min_points : N)
    (r : random_type) (g : rng_type) (e0 : float) (m0 : N) :
  (∀ i j a b, objects !! i = Some a → objects !! j = Some b →
              dmetric a b = dmetric b a) →
  (N.of_nat (length objects) + FIRST_CLUSTER < SIZE_MODULUS)%N →
  length objects ≤ fuel →
  ∃ s' log,
    dbscan fuel objects dmetric epsilon min_points (fresh r g e0 m0) = Ok (tt, s', log)
    ∧ ∀ p, p < length objects →
        (min_points ≤ N.of_nat (length (neighbourhood objects dmetric epsilon p)))%N →
        ∀ q, q ∈ neighbourhood objects dmetric epsilon p →
          ∃ w, cluster_ids s' !! q = Some w
               ∧ (FIRST_CLUSTER ≤ w)%N
               ∧ ((min_points
                   ≤ N.of_nat (length (neighbourhood objects dmetric epsilon q)))%N →
                  cluster_ids s' !! p = Some w).
Proof.
  intros Hsym Hbound Hfuel.
  set (sp := scan_start objects epsilon min_points (fresh r g e0 m0)).
  destruct (dbscan_rule fuel epsilon min_points (fresh r g e0 m0)
    (λ i s log, scan_inv sp i s log
                ∧ density_inv objects dmetric epsilon min_points [] (cluster_ids s)))
    as (s' & log & Hrun & Hscan & Hdense).
  - split; [apply scan_inv_start|]. simpl. split.
    + intros p v _ _ Hv Hv0. apply lookup_replicate in Hv as [-> _]. done.
    + intros p _ Hv. apply lookup_replicate in Hv as [Hv _]. done.
  - intros i s log Hi [Hscan Hdense].
    pose proof Hscan as (Heps & Hmp & Hlen & (ms & Hmed) & _).
    simpl in Heps, Hmp, Hlen. rewrite length_replicate in Hlen.
    assert (is_Some (cluster_ids s !! i)) as [v Hv].
    { apply lookup_lt_is_Some. lia. }
    destruct (decide (v = UNCLASSIFIED)) as [->|Hne].
    + destruct (is_core objects dmetric (epsilon_ s) (min_points_ s) i) eqn:Hcore.
      * destruct (expand_cluster_dense fuel i s) as (ids' & lg & Hexp & Hinv & Hd);
          try done; try lia.
        { destruct Hmed as (_ & H2 & _). rewrite H2. simpl. lia. }
        { by rewrite Heps, Hmp. }
        eexists _, _. split; [by eapply scan_step_cluster|].
        split; [|by rewrite Heps, Hmp in Hd].
        eapply scan_inv_cluster; try done. simpl. lia.
      * eexists _, _. split; [by apply scan_step_noise|].
        split; [apply scan_inv_noise; [lia|done]|].
        simpl. apply density_noise; [done| |done]. by rewrite <- Heps, <- Hmp.
    + eexists _, _. split; [by eapply scan_step_skip|].
      split; [by eapply scan_inv_skip|done].
  - exists s', log. split; [done|].
    destruct Hscan as (_ & _ & _ & _ & (Hdone & _) & _).
    destruct Hdense as [Hsettle _].
    intros p Hp Hcore%N.leb_le q Hq.
    destruct (Hdone p Hp) as (v & Hv & Hv0).
    destruct (Hsettle p v Hp Hcore Hv Hv0) as [Hnil|Hset];
      [by apply not_elem_of_nil in Hnil|].
    destruct (Hset q Hq) as (w & Hw & Hw2 & Hqcore).
    exists w. split; [done|]. split; [done|].
    intros Hq_core%N.leb_le. by apply Hqcore.
Qed.

(** ** Further properties of the three member functions *)

(** *** Bounds of the accesses *)

(** X1: on a non-empty [objects], [epsilon_range_query] stays within the
    bounds of [objects] exactly for the positions of [objects]: for such a
    position it returns the neighbourhood, for any other it reads
    [objects[current_object]] past the end in the first iteration. *)
Theorem epsilon_range_query_bounds (i : nat) (s : density random_type rng_type) :
  objects ≠ [] →
  epsilon_range_query objects dmetric i s
  = if decide (i < length objects)
    then Ok (neighbourhood objects dmetric (epsilon_ s) i, s, [])
    else OutOfRange.
Proof.
  intros Hne. destruct (decide (i < length objects)) as [Hi|Hi].
  - by apply epsilon_range_query_spec.
  - destruct objects as [|x l] eqn:Hobj; [done|].
    unfold epsilon_range_query, for_range. simpl length. simpl seq. simpl foldM.
    unfold bind at 1. unfold range_query_step at 1.
    destruct (decide (0 = i)) as [<-|_]; [simpl in Hi; lia|].
    unfold bind at 1. unfold object_at at 1.
    rewrite (lookup_ge_None_2 (x :: l) i) by lia. done.
Qed.

Lemma expand_seeds_in_bounds fuel seed pending :
  (∀ p, p ∈ pending → p < length objects) →
  stays_in_bounds (length objects)
    (expand_seeds (random_type := random_type) (rng_type := rng_type)
       fuel objects dmetric seed pending).
Proof.
  revert pending. induction fuel as [|fuel IH]; intros [|p rest] Hpend s Hlen;
    try done.
  simpl.
  destruct (visit_seed_spec seed p s) as (ids' & Hvisit & Hl & _ & _);
    [apply Hpend; by left|done|].
  erewrite bind_Ok by exact Hvisit.
  specialize (IH (rest ++ unclassified_in (cluster_ids s)
                    (examined objects dmetric (epsilon_ s) (min_points_ s) p))).
  specialize (IH ltac:(intros q [Hq|[_ Hq]%list_elem_of_filter]%elem_of_app;
                       [apply Hpend; by right | by apply examined_lt in Hq])
                 (with_ids ids' s) ltac:(simpl; lia)).
  destruct (expand_seeds _ _ _ _ _ _) as [[[[] s2] l2]| |]; [|done..].
  simpl in IH. lia.
Qed.

Lemma expand_cluster_in_bounds fuel seed :
  seed < length objects →
  stays_in_bounds (length objects)
    (expand_cluster (random_type := random_type) (rng_type := rng_type)
       fuel objects dmetric seed).
Proof.
  intros Hseed s Hlen.
  destruct (is_core objects dmetric (epsilon_ s) (min_points_ s) seed) eqn:Hcore.
  - unfold expand_cluster.
    erewrite bind_Ok by (by apply epsilon_range_query_spec).
    erewrite bind_Ok by reflexivity.
    unfold is_core in Hcore. apply N.leb_le in Hcore.
    replace (N.of_nat _ <? min_points_ s)%N with false
      by (symmetry; apply N.ltb_ge; done).
    destruct (label_seed_list_spec seed
                (neighbourhood objects dmetric (epsilon_ s) seed) s)
      as (ids1 & Hlabel & Hl1 & _).
    { apply NoDup_neighbourhood. }
    { intros q Hq%neighbourhood_lt. lia. }
    erewrite bind_Ok by exact Hlabel.
    pose proof (expand_seeds_in_bounds fuel seed
                  (filter (λ j, j ≠ seed) (neighbourhood objects dmetric (epsilon_ s) seed)))
      as Hexp.
    specialize (Hexp ltac:(intros q [_ Hq]%list_elem_of_filter;
                           by apply neighbourhood_lt in Hq)
                     (with_ids ids1 s) ltac:(simpl; lia)).
    unfold bind.
    destruct (expand_seeds _ _ _ _ _ _) as [[[[] s2] l2]| |]; [|done..].
    simpl in *. lia.
  - assert (is_Some (cluster_ids s !! seed)) as [old Hold].
    { apply lookup_lt_is_Some. lia. }
    rewrite (expand_cluster_noise fuel seed s old) by done.
    simpl. by rewrite length_insert.
Qed.

Lemma scan_step_in_bounds fuel i :
  i < length objects →
  stays_in_bounds (length objects)
    (scan_step (random_type := random_type) (rng_type := rng_type)
       fuel objects dmetric i).
Proof.
  intros Hi s Hlen. unfold scan_step.
  assert (is_Some (cluster_ids s !! i)) as [v Hv].
  { apply lookup_lt_is_Some. lia. }
  erewrite bind_Ok by (unfold get_cluster_id; rewrite Hv; reflexivity).
  destruct (v =? UNCLASSIFIED)%N; [|done].
  pose proof (expand_cluster_in_bounds fuel i Hi s Hlen) as Hexp.
  unfold bind at 1.
  destruct (expand_cluster _ _ _ _ _) as [[[b s2] l2]| |]; [|done..].
  destruct b; simpl; done.
Qed.

Lemma scan_in_bounds fuel (l : list nat) :
  (∀ i, i ∈ l → i < length objects) →
  stays_in_bounds (length objects)
    (foldM (λ (b : unit) i,
              scan_step (random_type := random_type) (rng_type := rng_type)
                fuel objects dmetric i) l tt).
Proof.
  induction l as [|i l IH]; intros Hl s Hlen; [done|]. simpl.
  pose proof (scan_step_in_bounds fuel i ltac:(apply Hl; by left) s Hlen) as Hstep.
  unfold bind.
  destruct (scan_step _ _ _ _ _) as [[[[] s1] l1]| |]; [|done..].
  specialize (IH ltac:(intros j Hj; apply Hl; by right) s1 ltac:(lia)).
  destruct (foldM _ _ _ _) as [[[[] s2] l2]| |]; [|done..].
  lia.
Qed.

(** X2: whatever the instance, the parameters and the budget, a run of
    [dbscan] makes no out-of-range access to [objects] or [cluster_ids],
    and when it returns the assignment array is longer by exactly
    [objects.size()] entries. *)
Theorem dbscan_in_bounds (fuel : nat) (epsilon : float) (min_points : N)
    (s : density random_type rng_type) :
  match dbscan fuel objects dmetric epsilon min_points s with
  | Ok (_, s', _) =>
      length (cluster_ids s') = length (cluster_ids s) + length objects
  | OutOfRange => False
  | OutOfFuel => True
  end.
Proof.
  unfold dbscan.
  erewrite bind_Ok by reflexivity.
  erewrite bind_Ok by reflexivity.
  erewrite bind_Ok by apply push_loop_spec.
  pose proof (scan_in_bounds fuel (seq 0 (length objects))) as Hscan.
  specialize (Hscan ltac:(intros i Hi%elem_of_seq; lia)
    (with_ids (cluster_ids s ++ replicate (length objects) UNCLASSIFIED)
              (set_min_points min_points (set_epsilon epsilon s)))).
  simpl in Hscan. rewrite length_app, length_replicate in Hscan.
  specialize (Hscan ltac:(lia)).
  unfold for_range.
  destruct (foldM _ _ _ _) as [[[[] s2] l2]| |]; simpl; done.
Qed.


(** *** What an expansion that starts a cluster leaves alone *)

Lemma examined_core eps mp p q :
  q ∈ examined objects dmetric eps mp p →
  is_core objects dmetric eps mp p = true
  ∧ q ∈ neighbourhood objects dmetric eps p.
Proof.
  unfold examined. destruct (is_core objects dmetric eps mp p); [done|].
  intros Hq. by apply not_elem_of_nil in Hq.
Qed.

Lemma expansion_frame_step eps mp seed c ids0 p ids ids' :
  p < length objects →
  expansion_frame objects dmetric eps mp seed ids0 ids →
  absorbed c (examined objects dmetric eps mp p) ids ids' →
  expansion_frame objects dmetric eps mp seed ids0 ids'.
Proof.
  intros Hp [Hkeep Hchanged] Habs. split.
  - intros q v Hv Hv2 Hq. eapply absorbed_keeps; [done| |done]. by apply Hkeep.
  - intros q Hq. destruct (decide (ids !! q = ids0 !! q)) as [Heq|Hne];
      [|by apply Hchanged].
    destruct (decide (q ∈ examined objects dmetric eps mp p)) as [Hin|Hout].
    + apply examined_core in Hin as [Hcore Hin]. by exists p.
    + destruct Habs as (_ & _ & Hsame). rewrite Hsame in Hq by done. congruence.
Qed.

Lemma expansion_frame_init eps mp seed c ids0 ids1 :
  seed < length objects →
  is_core objects dmetric eps mp seed = true →
  labelled c (neighbourhood objects dmetric eps seed) ids0 ids1 →
  expansion_frame objects dmetric eps mp seed ids0 ids1.
Proof.
  intros Hseed Hcore (_ & Hin & Hout). split.
  - intros q v Hv _ Hq. by rewrite Hout.
  - intros q Hq.
    destruct (decide (q ∈ neighbourhood objects dmetric eps seed)) as [Hnb|Hnb].
    + by exists seed.
    + by rewrite Hout in Hq.
Qed.

Lemma expand_cluster_framed fuel seed s :
  seed < length objects →
  length objects ≤ length (cluster_ids s) →
  current_cluster_id_ s ≠ UNCLASSIFIED →
  is_core objects dmetric (epsilon_ s) (min_points_ s) seed = true →
  length (cluster_ids s) ≤ fuel →
  ∃ ids' log,
    expand_cluster fuel objects dmetric seed s = Ok (true, with_ids ids' s, log)
    ∧ expansion_inv objects dmetric (epsilon_ s) seed (current_cluster_id_ s)
                    (cluster_ids s) [] ids' log
    ∧ expansion_frame objects dmetric (epsilon_ s) (min_points_ s) seed
                      (cluster_ids s) ids'.
Proof.
  intros Hseed Hlen Hc Hcore Hfuel.
  destruct (expand_cluster_rule fuel seed s
    (λ pending ids log,
       expansion_inv objects dmetric (epsilon_ s) seed (current_cluster_id_ s)
                     (cluster_ids s) pending ids log
       ∧ expansion_frame objects dmetric (epsilon_ s) (min_points_ s) seed
                         (cluster_ids s) ids))
    as (ids' & log & Hrun & Hexp & Hframe); try done.
  - intros p rest ids log [Hexp _]. by eapply expansion_inv_range.
  - intros p rest ids log ids' (Hexp & Hframe) Habs.
    destruct (expansion_inv_range _ _ _ _ _ _ _ _ Hexp) as [Hp Hn].
    split; [by apply expansion_inv_step|].
    by eapply expansion_frame_step.
  - intros ids1 Hlab. split; [by apply expansion_inv_init|].
    by eapply expansion_frame_init.
  - by exists ids', log.
Qed.

(** X3: a call of [expand_cluster] on a core point (made on a position of
    the array, with a current cluster id other than [UNCLASSIFIED] and a
    budget of the array length) returns [true] and leaves the medoid list
    and the counters as they were.  Afterwards the whole neighbourhood of
    the seed holds the current cluster id; every entry holds what it held
    or the current cluster id; a cluster id outside the seed's
    neighbourhood is kept; and an entry that changed lies in the
    neighbourhood of a core point. *)
Theorem expand_cluster_started (fuel seed : nat) (s : density random_type rng_type) :
  seed < length objects →
  length objects ≤ length (cluster_ids s) →
  current_cluster_id_ s ≠ UNCLASSIFIED →
  length (cluster_ids s) ≤ fuel →
  (min_points_ s ≤ N.of_nat (length (neighbourhood objects dmetric (epsilon_ s) seed)))%N →
  ∃ ids' log,
    expand_cluster fuel objects dmetric seed s
    = Ok (true, set_cluster_ids (λ _, ids') s, log)
    ∧ length ids' = length (cluster_ids s)
    ∧ (∀ q, q ∈ neighbourhood objects dmetric (epsilon_ s) seed →
            ids' !! q = Some (current_cluster_id_ s))
    ∧ (∀ q v, cluster_ids s !! q = Some v →
              ids' !! q = Some v ∨ ids' !! q = Some (current_cluster_id_ s))
    ∧ (∀ q v, cluster_ids s !! q = Some v → (FIRST_CLUSTER ≤ v)%N →
              q ∉ neighbourhood objects dmetric (epsilon_ s) seed →
              ids' !! q = Some v)
    ∧ (∀ q, ids' !! q ≠ cluster_ids s !! q →
            ∃ p, p < length objects
                 ∧ (min_points_ s
                    ≤ N.of_nat (length (neighbourhood objects dmetric (epsilon_ s) p)))%N
                 ∧ q ∈ neighbourhood objects dmetric (epsilon_ s) p).
Proof.
  intros Hseed Hlen Hc Hfuel Hcore%N.leb_le.
  destruct (expand_cluster_framed fuel seed s Hseed Hlen Hc Hcore Hfuel)
    as (ids' & log & Hrun & (Hl & _ & _ & Hmono & Hnb & _) & [Hkeep Hchanged]).
  exists ids', log. split; [done|]. split; [done|]. split; [done|].
  split; [done|]. split; [done|].
  intros q Hq. destruct (Hchanged q Hq) as (p & Hp & Hpc & Hqp).
  exists p. split; [done|]. split; [|done]. by apply N.leb_le.
Qed.


(** *** Cluster ids and core points, for any metric *)

Lemma covered_absorbed eps c l ids ids' p :
  absorbed c l ids ids' → covered objects dmetric eps ids p →
  covered objects dmetric eps ids' p.
Proof.
  intros Habs Hcov q Hq. destruct (Hcov q Hq) as (w & Hw & Hw2).
  exists w. split; [by eapply absorbed_keeps|done].
Qed.

Lemma cover_step eps mp c p rest ids ids' :
  (FIRST_CLUSTER ≤ c)%N →
  p < length objects →
  length objects ≤ length ids →
  cover_inv objects dmetric eps mp (p :: rest) ids →
  absorbed c (examined objects dmetric eps mp p) ids ids' →
  cover_inv objects dmetric eps mp
    (rest ++ unclassified_in ids (examined objects dmetric eps mp p)) ids'.
Proof.
  intros Hc Hp Hlen (Hcover & Hnoise & Hcore) Habs.
  split; [|split].
  - intros p' v Hp' Hcore' Hv' Hv0.
    destruct (absorbed_origin _ _ _ _ _ _ Habs Hv') as [Hv|(-> & Hin & [H0|H1])].
    + destruct (Hcover p' v Hp' Hcore' Hv Hv0) as [[->|Hrest]%elem_of_cons|Hcov].
      * right. unfold examined in Habs. rewrite Hcore' in Habs.
        intros q Hq.
        assert (is_Some (ids !! q)) as [w0 Hw0].
        { apply lookup_lt_is_Some. apply neighbourhood_lt in Hq. lia. }
        destruct Habs as (_ & Habs & _). rewrite (Habs q w0 Hq Hw0).
        destruct (absorbable w0) eqn:Hab; [by exists c|].
        apply absorbable_false in Hab. by exists w0.
      * left. apply elem_of_app. by left.
      * right. by eapply covered_absorbed.
    + left. apply elem_of_app. right. by apply list_elem_of_filter.
    + by rewrite (Hnoise p' Hp' H1) in Hcore'.
  - intros p' Hp' Hv'.
    destruct (absorbed_origin _ _ _ _ _ _ Habs Hv') as [Hv|(Heq & _)].
    + by apply Hnoise.
    + unfold NOISE, FIRST_CLUSTER in *. lia.
  - intros q v Hv' Hv2.
    destruct (absorbed_origin _ _ _ _ _ _ Habs Hv') as [Hv|(_ & Hin & _)].
    + by eapply Hcore.
    + apply examined_core in Hin as [Hpc Hin]. by exists p.
Qed.

Lemma cover_init eps mp c seed ids ids1 :
  (FIRST_CLUSTER ≤ c)%N →
  seed < length objects →
  is_core objects dmetric eps mp seed = true →
  cover_inv objects dmetric eps mp [] ids →
  labelled c (neighbourhood objects dmetric eps seed) ids ids1 →
  cover_inv objects dmetric eps mp
    (filter (λ j, j ≠ seed) (neighbourhood objects dmetric eps seed)) ids1.
Proof.
  intros Hc Hseed Hseed_core (Hcover & Hnoise & Hcore) (Hlen & Hin & Hout).
  split; [|split].
  - intros p' v Hp' Hcore' Hv' Hv0.
    destruct (decide (p' ∈ neighbourhood objects dmetric eps seed)) as [Hnb|Hnb].
    + destruct (decide (p' = seed)) as [->|Hne].
      * right. intros q Hq. exists c. by rewrite Hin.
      * left. by apply list_elem_of_filter.
    + right. rewrite Hout in Hv' by done.
      destruct (Hcover p' v Hp' Hcore' Hv' Hv0) as [Hnil|Hcov];
        [by apply not_elem_of_nil in Hnil|].
      intros q Hq. destruct (Hcov q Hq) as (w & Hw & Hw2).
      destruct (decide (q ∈ neighbourhood objects dmetric eps seed)) as [Hqnb|Hqnb].
      * exists c. by rewrite Hin.
      * exists w. by rewrite Hout.
  - intros p' Hp' Hv'.
    destruct (decide (p' ∈ neighbourhood objects dmetric eps seed)) as [Hnb|Hnb].
    + rewrite Hin in Hv' by done. injection Hv' as ->.
      unfold NOISE, FIRST_CLUSTER in *. lia.
    + rewrite Hout in Hv' by done. by apply Hnoise.
  - intros q v Hv' Hv2.
    destruct (decide (q ∈ neighbourhood objects dmetric eps seed)) as [Hnb|Hnb].
    + by exists seed.
    + rewrite Hout in Hv' by done. by eapply Hcore.
Qed.

Lemma cover_noise eps mp seed ids :
  ids !! seed = Some UNCLASSIFIED →
  is_core objects dmetric eps mp seed = false →
  cover_inv objects dmetric eps mp [] ids →
  cover_inv objects dmetric eps mp [] (<[seed := NOISE]> ids).
Proof.
  intros Hzero Hseed_core (Hcover & Hnoise & Hcore).
  assert (Hseed : seed < length ids) by (by apply lookup_lt_Some in Hzero).
  split; [|split].
  - intros p v Hp Hp_core Hv Hv0. right.
    assert (p ≠ seed) as Hne by (intros ->; congruence).
    rewrite list_lookup_insert_ne in Hv by done.
    destruct (Hcover p v Hp Hp_core Hv Hv0) as [Hnil|Hcov];
      [by apply not_elem_of_nil in Hnil|].
    intros q Hq. destruct (Hcov q Hq) as (w & Hw & Hw2).
    assert (q ≠ seed) as Hqne.
    { intros ->. rewrite Hzero in Hw. injection Hw as <-.
      unfold FIRST_CLUSTER, UNCLASSIFIED in *. lia. }
    exists w. by rewrite list_lookup_insert_ne.
  - intros p Hp Hv. destruct (decide (p = seed)) as [->|Hne]; [done|].
    rewrite list_lookup_insert_ne in Hv by done. by apply Hnoise.
  - intros q v Hv Hv2. destruct (decide (q = seed)) as [->|Hne].
    + rewrite list_lookup_insert_eq in Hv by done. injection Hv as <-.
      unfold NOISE, FIRST_CLUSTER in *. lia.
    + rewrite list_lookup_insert_ne in Hv by done. by eapply Hcore.
Qed.

Lemma expand_cluster_cover fuel seed s :
  seed < length objects →
  length objects ≤ length (cluster_ids s) →
  (FIRST_CLUSTER ≤ current_cluster_id_ s)%N →
  is_core objects dmetric (epsilon_ s) (min_points_ s) seed = true →
  length (cluster_ids s) ≤ fuel →
  cover_inv objects dmetric (epsilon_ s) (min_points_ s) [] (cluster_ids s) →
  ∃ ids' log,
    expand_cluster fuel objects dmetric seed s = Ok (true, with_ids ids' s, log)
    ∧ expansion_inv objects dmetric (epsilon_ s) seed (current_cluster_id_ s)
                    (cluster_ids s) [] ids' log
    ∧ cover_inv objects dmetric (epsilon_ s) (min_points_ s) [] ids'.
Proof.
  intros Hseed Hlen Hc Hcore Hfuel Hcover.
  destruct (expand_cluster_rule fuel seed s
    (λ pending ids log,
       expansion_inv objects dmetric (epsilon_ s) seed (current_cluster_id_ s)
                     (cluster_ids s) pending ids log
       ∧ cover_inv objects dmetric (epsilon_ s) (min_points_ s) pending ids))
    as (ids' & log & Hrun & Hexp & Hcov); try done.
  - unfold FIRST_CLUSTER, UNCLASSIFIED in *. lia.
  - intros p rest ids log [Hexp _]. by eapply expansion_inv_range.
  - intros p rest ids log ids' (Hexp & Hcov) Habs.
    destruct (expansion_inv_range _ _ _ _ _ _ _ _ Hexp) as [Hp Hn].
    split; [by apply expansion_inv_step|].
    by apply (cover_step (epsilon_ s) (min_points_ s) (current_cluster_id_ s)
                p rest ids ids').
  - intros ids1 Hlab. split; [by apply expansion_inv_init|].
    by apply (cover_init (epsilon_ s) (min_points_ s) (current_cluster_id_ s)
                seed (cluster_ids s) ids1).
  - by exists ids', log.
Qed.

(** A run on a fresh instance: every entry is classified, the cover
    invariant holds at the end, and every medoid is a core point. *)
Lemma dbscan_fresh_cover fuel epsilon min_points r g e0 m0 :
  (N.of_nat (length objects) + FIRST_CLUSTER < SIZE_MODULUS)%N →
  length objects ≤ fuel →
  ∃ s' log,
    dbscan fuel objects dmetric epsilon min_points (fresh r g e0 m0) = Ok (tt, s', log)
    ∧ (∀ i, i < length objects →
         ∃ v, cluster_ids s' !! i = Some v ∧ v ≠ UNCLASSIFIED)
    ∧ cover_inv objects dmetric epsilon min_points [] (cluster_ids s')
    ∧ (∀ m, m ∈ medoid_ids s' →
         m < length objects ∧ is_core objects dmetric epsilon min_points m = true).
Proof.
  intros Hbound Hfuel.
  set (sp := scan_start objects epsilon min_points (fresh r g e0 m0)).
  destruct (dbscan_rule fuel epsilon min_points (fresh r g e0 m0)
    (λ i s log,
       scan_inv sp i s log
       ∧ cover_inv objects dmetric epsilon min_points [] (cluster_ids s)
       ∧ (∀ m, m ∈ medoid_ids s →
            m < length objects ∧ is_core objects dmetric epsilon min_points m = true)))
    as (s' & log & Hrun & Hscan & Hcover & Hmed).
  - split; [apply scan_inv_start|]. simpl. split; [split; [|split]|].
    + intros p v _ _ Hv Hv0. apply lookup_replicate in Hv as [-> _]. done.
    + intros p _ Hv. apply lookup_replicate in Hv as [Hv _]. done.
    + intros q v Hv Hv2. apply lookup_replicate in Hv as [-> _].
      unfold FIRST_CLUSTER, UNCLASSIFIED in *. lia.
    + by intros m Hm%not_elem_of_nil.
  - intros i s log Hi (Hscan & Hcover & Hmed).
    pose proof Hscan as (Heps & Hmp & Hlen & (ms & Hms) & _).
    simpl in Heps, Hmp, Hlen. rewrite length_replicate in Hlen.
    assert (is_Some (cluster_ids s !! i)) as [v Hv].
    { apply lookup_lt_is_Some. lia. }
    destruct (decide (v = UNCLASSIFIED)) as [->|Hne].
    + destruct (is_core objects dmetric (epsilon_ s) (min_points_ s) i) eqn:Hcore.
      * destruct (expand_cluster_cover fuel i s) as (ids' & lg & Hexp & Hinv & Hc);
          try done; try lia.
        { destruct Hms as (_ & H2 & _). rewrite H2. simpl. lia. }
        { by rewrite Heps, Hmp. }
        eexists _, _. split; [by eapply scan_step_cluster|].
        split; [eapply scan_inv_cluster; try done; simpl; lia|].
        split; [by rewrite Heps, Hmp in Hc|].
        simpl. intros m [Hm|Hm%list_elem_of_singleton]%elem_of_app; [by apply Hmed|].
        subst m. by rewrite <- Heps, <- Hmp.
      * eexists _, _. split; [by apply scan_step_noise|].
        split; [apply scan_inv_noise; [lia|done]|].
        split; [|done].
        simpl. apply cover_noise; [done| |done]. by rewrite <- Heps, <- Hmp.
    + eexists _, _. split; [by eapply scan_step_skip|].
      split; [by eapply scan_inv_skip|done].
  - exists s', log. split; [done|].
    destruct Hscan as (_ & _ & _ & _ & (Hdone & _) & _). done.
Qed.


(** X4: after a run on a fresh instance, whatever the metric, an entry
    holds a cluster id exactly when its position lies in the neighbourhood
    of some core point, and [NOISE] exactly when it lies in none. *)
Theorem noise_iff_uncovered (fuel : nat) (epsilon : float) (min_points : N)
    (r : random_type) (g : rng_type) (e0 : float) (m0 : N) :
  (N.of_nat (length objects) + FIRST_CLUSTER < SIZE_MODULUS)%N →
  length objects ≤ fuel →
  ∃ s' log,
    dbscan fuel objects dmetric epsilon min_points (fresh r g e0 m0) = Ok (tt, s', log)
    ∧ ∀ i, i < length objects →
        ∃ v, cluster_ids s' !! i = Some v
             ∧ ((FIRST_CLUSTER ≤ v)%N ↔
                ∃ p, p < length objects
                     ∧ (min_points
                        ≤ N.of_nat (length (neighbourhood objects dmetric epsilon p)))%N
                     ∧ i ∈ neighbourhood objects dmetric epsilon p)
             ∧ (v = NOISE ↔
                ∀ p, p < length objects →
                     (min_points
                      ≤ N.of_nat (length (neighbourhood objects dmetric epsilon p)))%N →
                     i ∉ neighbourhood objects dmetric epsilon p).
Proof.
  intros Hbound Hfuel.
  destruct (dbscan_fresh_cover fuel epsilon min_points r g e0 m0 Hbound Hfuel)
    as (s' & log & Hrun & Hdone & (Hcover & Hnoise & Hcore) & _).
  exists s', log. split; [done|]. intros i Hi.
  destruct (Hdone i Hi) as (v & Hv & Hv0). exists v. split; [done|].
  assert (Hiff : (FIRST_CLUSTER ≤ v)%N ↔
            ∃ p, p < length objects
                 ∧ (min_points
                    ≤ N.of_nat (length (neighbourhood objects dmetric epsilon p)))%N
                 ∧ i ∈ neighbourhood objects dmetric epsilon p).
  { split.
    - intros Hv2. destruct (Hcore i v Hv Hv2) as (p & Hp & Hpc & Hip).
      exists p. split; [done|]. split; [by apply N.leb_le|done].
    - intros (p & Hp & Hpc%N.leb_le & Hip).
      destruct (Hdone p Hp) as (vp & Hvp & Hvp0).
      destruct (Hcover p vp Hp Hpc Hvp Hvp0) as [Hnil|Hcov];
        [by apply not_elem_of_nil in Hnil|].
      destruct (Hcov i Hip) as (w & Hw & Hw2). congruence. }
  split; [done|]. split.
  - intros -> p Hp Hpc Hip.
    assert (FIRST_CLUSTER ≤ NOISE)%N as Habs by (apply Hiff; eauto).
    unfold NOISE, FIRST_CLUSTER in Habs. lia.
  - intros Hnone.
    destruct (decide (FIRST_CLUSTER ≤ v)%N) as [Hv2|Hv2].
    + apply Hiff in Hv2 as (p & Hp & Hpc & Hip). by destruct (Hnone p Hp Hpc).
    + unfold NOISE, FIRST_CLUSTER, UNCLASSIFIED in *. lia.
Qed.

(** X5: with [min_points <= 1] the test of line 128 never holds, every
    point is a core point, and a run on a fresh instance leaves no entry
    [NOISE]: every entry holds a cluster id. *)
Theorem small_min_points_no_noise (fuel : nat) (epsilon : float) (min_points : N)
    (r : random_type) (g : rng_type) (e0 : float) (m0 : N) :
  (min_points ≤ 1)%N →
  (N.of_nat (length objects) + FIRST_CLUSTER < SIZE_MODULUS)%N →
  length objects ≤ fuel →
  ∃ s' log,
    dbscan fuel objects dmetric epsilon min_points (fresh r g e0 m0) = Ok (tt, s', log)
    ∧ ∀ i, i < length objects →
        ∃ v, cluster_ids s' !! i = Some v ∧ (FIRST_CLUSTER ≤ v)%N.
Proof.
  intros Hmp Hbound Hfuel.
  destruct (dbscan_fresh_cover fuel epsilon min_points r g e0 m0 Hbound Hfuel)
    as (s' & log & Hrun & Hdone & (Hcover & _ & _) & _).
  exists s', log. split; [done|]. intros i Hi.
  destruct (Hdone i Hi) as (v & Hv & Hv0).
  assert (Hcore : is_core objects dmetric epsilon min_points i = true).
  { unfold is_core. apply N.leb_le.
    pose proof (neighbourhood_self objects dmetric epsilon i Hi) as Hself.
    destruct (neighbourhood objects dmetric epsilon i) as [|x l];
      [by apply not_elem_of_nil in Hself|]. simpl. lia. }
  destruct (Hcover i v Hi Hcore Hv Hv0) as [Hnil|Hcov];
    [by apply not_elem_of_nil in Hnil|].
  apply Hcov. by apply neighbourhood_self.
Qed.

(** X6: after a run on a fresh instance, whatever the metric, every medoid
    is a position of [objects] whose neighbourhood has at least
    [min_points] positions (a core point), and every position of that
    neighbourhood, the medoid included, holds a cluster id. *)
Theorem medoids_are_core (fuel : nat) (epsilon : float) (min_points : N)
    (r : random_type) (g : rng_type) (e0 : float) (m0 : N) :
  (N.of_nat (length objects) + FIRST_CLUSTER < SIZE_MODULUS)%N →
  length objects ≤ fuel →
  ∃ s' log,
    dbscan fuel objects dmetric epsilon min_points (fresh r g e0 m0) = Ok (tt, s', log)
    ∧ ∀ m, m ∈ medoid_ids s' →
        m < length objects
        ∧ (min_points
           ≤ N.of_nat (length (neighbourhood objects dmetric epsilon m)))%N
        ∧ ∀ q, q ∈ neighbourhood objects dmetric epsilon m →
            ∃ w, cluster_ids s' !! q = Some w ∧ (FIRST_CLUSTER ≤ w)%N.
Proof.
  intros Hbound Hfuel.
  destruct (dbscan_fresh_cover fuel epsilon min_points r g e0 m0 Hbound Hfuel)
    as (s' & log & Hrun & Hdone & (Hcover & _ & _) & Hmed).
  exists s', log. split; [done|]. intros m Hm.
  destruct (Hmed m Hm) as [Hlt Hcore]. split; [done|].
  split; [by apply N.leb_le|].
  destruct (Hdone m Hlt) as (v & Hv & Hv0).
  destruct (Hcover m v Hlt Hcore Hv Hv0) as [Hnil|Hcov];
    [by apply not_elem_of_nil in Hnil|]. done.
Qed.


(** *** Medoids under a symmetric metric *)

Lemma with_ids_inj ids1 ids2 s : with_ids ids1 s = with_ids ids2 s → ids1 = ids2.
Proof. intros H. by apply (f_equal cluster_ids) in H. Qed.

(** X7: under a symmetric metric, after a run on a fresh instance the
    [k]-th medoid still holds cluster id [FIRST_CLUSTER + k]; so each of
    the [total_clusters_] cluster ids is held by at least one entry, and
    no cluster is left empty by the overwriting of line 137. *)
Theorem medoids_keep_their_cluster (fuel : nat) (epsilon : float) (min_points : N)
    (r : random_type) (g : rng_type) (e0 : float) (m0 : N) :
  (∀ i j a b, objects !! i = Some a → objects !! j = Some b →
              dmetric a b = dmetric b a) →
  (N.of_nat (length objects) + FIRST_CLUSTER < SIZE_MODULUS)%N →
  length objects ≤ fuel →
  ∃ s' log,
    dbscan fuel objects dmetric epsilon min_points (fresh r g e0 m0) = Ok (tt, s', log)
    ∧ (∀ k m, medoid_ids s' !! k = Some m →
         cluster_ids s' !! m = Some (FIRST_CLUSTER + N.of_nat k)%N)
    ∧ (∀ k, (N.of_nat k < total_clusters_ s')%N →
         ∃ m, m < length objects
              ∧ cluster_ids s' !! m = Some (FIRST_CLUSTER + N.of_nat k)%N).
Proof.
  intros Hsym Hbound Hfuel.
  set (sp := scan_start objects epsilon min_points (fresh r g e0 m0)).
  destruct (dbscan_rule fuel epsilon min_points (fresh r g e0 m0)
    (λ i s log,
       scan_inv sp i s log
       ∧ density_inv objects dmetric epsilon min_points [] (cluster_ids s)
       ∧ (∀ k m, medoid_ids s !! k = Some m →
            m < length objects
            ∧ is_core objects dmetric epsilon min_points m = true
            ∧ cluster_ids s !! m = Some (FIRST_CLUSTER + N.of_nat k)%N)))
    as (s' & log & Hrun & Hscan & _ & Hmed).
  - split; [apply scan_inv_start|]. simpl. split; [split|].
    + intros p v _ _ Hv Hv0. apply lookup_replicate in Hv as [-> _]. done.
    + intros p _ Hv. apply lookup_replicate in Hv as [Hv _]. done.
    + by intros k m Hk.
  - intros i s log Hi (Hscan & Hdense & Hmed).
    pose proof Hscan as (Heps & Hmp & Hlen & (ms & Hms) & _).
    simpl in Heps, Hmp, Hlen. rewrite length_replicate in Hlen.
    assert (is_Some (cluster_ids s !! i)) as [v Hv].
    { apply lookup_lt_is_Some. lia. }
    pose proof Hms as (Hms1 & Hms2 & _). simpl in Hms1, Hms2.
    destruct (decide (v = UNCLASSIFIED)) as [->|Hne].
    + destruct (is_core objects dmetric (epsilon_ s) (min_points_ s) i) eqn:Hcore.
      * destruct (expand_cluster_dense fuel i s) as (ids' & lg & Hexp & Hinv & Hd);
          try done; try lia.
        { by rewrite Heps, Hmp. }
        destruct (expand_cluster_framed fuel i s)
          as (ids2 & lg2 & Hexp2 & _ & [Hkeep _]); try done; try lia.
        { rewrite Hms2. unfold FIRST_CLUSTER, UNCLASSIFIED. lia. }
        assert (ids' = ids2) as <-.
        { apply (with_ids_inj _ _ s). congruence. }
        assert (lg = lg2) as <- by congruence.
        eexists _, _. split; [by eapply scan_step_cluster|].
        split; [eapply scan_inv_cluster; try done; simpl; lia|].
        split; [by rewrite Heps, Hmp in Hd|].
        simpl. intros k m [Hk|[Hk Hm]]%lookup_app_Some.
        -- destruct (Hmed k m Hk) as (Hm & Hmc & Hml).
           split; [done|]. split; [done|].
           apply (Hkeep m _ Hml); [lia|].
           rewrite Heps. intros Hnb.
           destruct Hdense as [Hsettle _].
           destruct (Hsettle m _ Hm Hmc Hml) as [Hnil|Hset];
             [unfold FIRST_CLUSTER, UNCLASSIFIED; lia
             |by apply not_elem_of_nil in Hnil|].
           destruct (Hset i (neighbourhood_sym epsilon Hsym _ _ Hnb))
             as (w & Hw & Hw2 & _).
           rewrite Hv in Hw. injection Hw as <-.
           unfold FIRST_CLUSTER, UNCLASSIFIED in *. lia.
        -- destruct (k - length (medoid_ids s)) as [|k'] eqn:Hk'; [|done].
           injection Hm as <-. split; [done|].
           split; [by rewrite <- Heps, <- Hmp|].
           destruct Hinv as (_ & _ & _ & _ & Hnb & _).
           rewrite (Hnb i) by (by apply neighbourhood_self).
           rewrite Hms2, <- Hms1. f_equal.
           replace k with (length (medoid_ids s)) by lia. done.
      * eexists _, _. split; [by apply scan_step_noise|].
        split; [apply scan_inv_noise; [lia|done]|].
        split.
        { simpl. apply density_noise; [done| |done]. by rewrite <- Heps, <- Hmp. }
        simpl. intros k m Hk. destruct (Hmed k m Hk) as (Hm & Hmc & Hml).
        split; [done|]. split; [done|].
        rewrite list_lookup_insert_ne; [done|].
        intros ->. rewrite Hv in Hml. injection Hml as Hml.
        unfold FIRST_CLUSTER, UNCLASSIFIED in *. lia.
    + eexists _, _. split; [by eapply scan_step_skip|].
      split; [by eapply scan_inv_skip|done].
  - exists s', log. split; [done|]. split; [intros k m Hk; by apply Hmed|].
    destruct Hscan as (_ & _ & _ & (ms & Hms1 & _ & Hms3 & Hms4 & _) & _).
    simpl in Hms1, Hms3. subst ms.
    rewrite iter_size_incr in Hms3 by lia.
    intros k Hk. rewrite Hms3 in Hk.
    assert (is_Some (medoid_ids s' !! k)) as [m Hm].
    { apply lookup_lt_is_Some. lia. }
    exists m. destruct (Hmed k m Hm) as (Hlt & _ & Hl). done.
Qed.


(** *** A run on an instance that already holds entries *)

(** X8: [dbscan] classifies the positions [0 .. objects.size()-1] of the
    array and nothing else.  On any instance whose current cluster id is at
    least [FIRST_CLUSTER] (one that was used before, for example), a run
    returns with [epsilon_] and [min_points_] set to its arguments; every
    entry at a position from [objects.size()] on is what it was before the
    scan, so the [UNCLASSIFIED] entries appended by lines 93-95 beyond
    that position stay [UNCLASSIFIED]; the medoid list is the old one with
    at most [objects.size()] medoids appended, and [current_cluster_id_]
    and [total_clusters_] advance by one per appended medoid. *)
Theorem dbscan_on_used_instance (fuel : nat) (epsilon : float) (min_points : N)
    (s : density random_type rng_type) :
  (FIRST_CLUSTER ≤ current_cluster_id_ s)%N →
  (current_cluster_id_ s + N.of_nat (length objects) < SIZE_MODULUS)%N →
  length (cluster_ids s) + length objects ≤ fuel →
  ∃ s' log,
    dbscan fuel objects dmetric epsilon min_points s = Ok (tt, s', log)
    ∧ epsilon_ s' = epsilon
    ∧ min_points_ s' = min_points
    ∧ length (cluster_ids s') = length (cluster_ids s) + length objects
    ∧ (∀ j, length objects ≤ j →
         cluster_ids s' !! j
         = (cluster_ids s ++ replicate (length objects) UNCLASSIFIED) !! j)
    ∧ ∃ ms,
        medoid_ids s' = medoid_ids s ++ ms
        ∧ length ms ≤ length objects
        ∧ current_cluster_id_ s' = (current_cluster_id_ s + N.of_nat (length ms))%N
        ∧ total_clusters_ s' = Nat.iter (length ms) size_incr (total_clusters_ s).
Proof.
  intros Hc Hbound Hfuel.
  set (sp := scan_start objects epsilon min_points s).
  assert (Hsp_len : length (cluster_ids sp) = length (cluster_ids s) + length objects).
  { simpl. by rewrite length_app, length_replicate. }
  destruct (dbscan_rule fuel epsilon min_points s
    (λ i s1 log,
       scan_inv sp i s1 log
       ∧ (∀ j, length objects ≤ j → cluster_ids s1 !! j = cluster_ids sp !! j)))
    as (s' & log & Hrun & Hscan & Hframe).
  - split; [apply scan_inv_start|done].
  - intros i s1 log Hi (Hscan & Hframe).
    pose proof Hscan as (Heps & Hmp & Hlen & (ms & Hms) & _).
    assert (is_Some (cluster_ids s1 !! i)) as [v Hv].
    { apply lookup_lt_is_Some. lia. }
    destruct (decide (v = UNCLASSIFIED)) as [->|Hne].
    + destruct (is_core objects dmetric (epsilon_ s1) (min_points_ s1) i) eqn:Hcore.
      * destruct (expand_cluster_framed fuel i s1)
          as (ids' & lg & Hexp & Hinv & [_ Hchanged]); try done; try lia.
        { destruct Hms as (_ & H2 & _). rewrite H2. simpl.
          unfold FIRST_CLUSTER, UNCLASSIFIED in *. lia. }
        eexists _, _. split; [by eapply scan_step_cluster|].
        split; [by eapply scan_inv_cluster|].
        intros j Hj. etrans; [|by apply Hframe]. simpl.
        destruct (decide (ids' !! j = cluster_ids s1 !! j)) as [|Hne]; [done|].
        destruct (Hchanged j Hne) as (p & _ & _ & Hjp%neighbourhood_lt). lia.
      * eexists _, _. split; [by apply scan_step_noise|].
        split; [apply scan_inv_noise; [lia|done]|].
        intros j Hj. etrans; [|by apply Hframe]. simpl.
        by rewrite list_lookup_insert_ne by lia.
    + eexists _, _. split; [by eapply scan_step_skip|].
      split; [by eapply scan_inv_skip|done].
  - exists s', log. split; [done|].
    destruct Hscan as (Heps & Hmp & Hlen & (ms & H1 & H2 & H3 & H4 & _) & _).
    split; [done|]. split; [done|]. split; [lia|]. split; [done|].
    by exists ms.
Qed.


(** *** Inputs in which every two objects are closer than [epsilon] *)

Lemma filter_all {A} (P : A → Prop) `{∀ x, Decision (P x)} (l : list A) :
  (∀ x, x ∈ l → P x) → filter P l = l.
Proof.
  induction l as [|x l IH]; intros Hall; [done|].
  rewrite filter_cons_True by (apply Hall; by left).
  f_equal. apply IH. intros y Hy. apply Hall. by right.
Qed.

Lemma all_near_neighbourhood eps i :
  i < length objects →
  (∀ j a b, j ≠ i → objects !! i = Some a → objects !! j = Some b →
            PrimFloat.ltb (dmetric a b) eps = true) →
  neighbourhood objects dmetric eps i = seq 0 (length objects).
Proof.
  intros Hi Hnear. unfold neighbourhood. apply filter_all.
  intros j Hj%elem_of_seq. apply Is_true_true. unfold within.
  destruct (decide (j = i)) as [->|Hne]; [by rewrite bool_decide_eq_true_2|].
  rewrite bool_decide_eq_false_2 by done. simpl.
  destruct (lookup_lt_is_Some_2 objects i Hi) as [a Ha].
  destruct (lookup_lt_is_Some_2 objects j ltac:(lia)) as [b Hb].
  rewrite Ha, Hb. by apply (Hnear j).
Qed.

(** X9: if [objects] is not empty, every two objects at different
    positions are strictly closer than [epsilon] and [min_points] is at
    most the number of objects, a run on a fresh instance finds exactly
    one cluster: every entry holds [FIRST_CLUSTER], the medoid list is
    [[0]], [total_clusters_] is 1 and the next cluster id is 3. *)
Theorem single_cluster (fuel : nat) (epsilon : float) (min_points : N)
    (r : random_type) (g : rng_type) (e0 : float) (m0 : N) :
  objects ≠ [] →
  (min_points ≤ N.of_nat (length objects))%N →
  (∀ i j a b, i ≠ j → objects !! i = Some a → objects !! j = Some b →
              PrimFloat.ltb (dmetric a b) epsilon = true) →
  length objects ≤ fuel →
  ∃ s' log,
    dbscan fuel objects dmetric epsilon min_points (fresh r g e0 m0) = Ok (tt, s', log)
    ∧ cluster_ids s' = replicate (length objects) FIRST_CLUSTER
    ∧ medoid_ids s' = [0]
    ∧ total_clusters_ s' = 1%N
    ∧ current_cluster_id_ s' = 3%N.
Proof.
  intros Hne Hmp Hnear Hfuel.
  assert (Hpos : 0 < length objects) by (destruct objects; [done|simpl; lia]).
  set (sp := scan_start objects epsilon min_points (fresh r g e0 m0)).
  set (final := Density (replicate (length objects) FIRST_CLUSTER) [0] r g
                        epsilon min_points 3%N 1%N).
  destruct (dbscan_rule fuel epsilon min_points (fresh r g e0 m0)
    (λ i s log, (i = 0 ∧ s = sp) ∨ (0 < i ∧ s = final)))
    as (s' & log & Hrun & [[Hi _]|[_ ->]]); [by left| |lia|by exists final, log].
  intros i s log Hi [[-> ->]|[Hi0 ->]].
  - assert (Hnb : neighbourhood objects dmetric epsilon 0
                  = seq 0 (length objects)).
    { apply all_near_neighbourhood; [done|]. intros j a b Hj. by apply Hnear. }
    destruct (expand_cluster_core fuel 0 sp)
      as (ids' & lg & Hexp & Hlen & _ & _ & _ & Hall & _); try done.
    { simpl. rewrite length_replicate. lia. }
    { simpl. unfold is_core. rewrite Hnb, length_seq. by apply N.leb_le. }
    { simpl. by rewrite length_replicate. }
    simpl in Hlen, Hall. rewrite length_replicate in Hlen.
    assert (ids' = replicate (length objects) FIRST_CLUSTER) as ->.
    { apply list_eq. intros q. destruct (decide (q < length objects)) as [Hq|Hq].
      - rewrite lookup_replicate_2 by done. apply Hall. rewrite Hnb.
        apply elem_of_seq. lia.
      - rewrite !lookup_ge_None_2; [done|rewrite length_replicate; lia|lia]. }
    eexists _, _. split.
    + apply scan_step_cluster; [|exact Hexp]. simpl. by apply lookup_replicate_2.
    + right. split; [lia|]. reflexivity.
  - exists final, []. split; [|right; split; [lia|done]].
    apply (scan_step_skip fuel i final FIRST_CLUSTER); [|done].
    simpl. by apply lookup_replicate_2.
Qed.


(** *** Distances that are not numbers *)

(** No two objects pass the test of line 191: every entry ends [NOISE]. *)
Lemma dbscan_isolated fuel epsilon min_points r g e0 m0 :
  (2 ≤ min_points)%N →
  (∀ i j a b, i ≠ j → objects !! i = Some a → objects !! j = Some b →
              PrimFloat.ltb (dmetric a b) epsilon = false) →
  ∃ s' log,
    dbscan fuel objects dmetric epsilon min_points (fresh r g e0 m0) = Ok (tt, s', log)
    ∧ cluster_ids s' = replicate (length objects) NOISE
    ∧ medoid_ids s' = []
    ∧ total_clusters_ s' = 0%N.
Proof.
  intros Hmp Hfar.
  destruct (dbscan_rule fuel epsilon min_points (fresh r g e0 m0)
    (λ i s log,
       epsilon_ s = epsilon ∧ min_points_ s = min_points
       ∧ cluster_ids s = replicate i NOISE ++ replicate (length objects - i) UNCLASSIFIED
       ∧ medoid_ids s = [] ∧ total_clusters_ s = 0%N))
    as (s' & log & Hrun & _ & _ & Hids & Hmed & Htot).
  - simpl. by rewrite Nat.sub_0_r.
  - intros i s log Hi (Heps & Hmin & Hids & Hmed & Htot).
    assert (Hlook : cluster_ids s !! i = Some UNCLASSIFIED).
    { rewrite Hids, lookup_app_r by (rewrite length_replicate; lia).
      rewrite length_replicate, Nat.sub_diag. apply lookup_replicate_2. lia. }
    eexists _, _. split.
    + apply scan_step_noise; [done..|]. rewrite Heps, Hmin.
      apply isolated_not_core; [done|].
      intros j a b Hne Ha Hb. by apply (Hfar i j).
    + simpl. repeat (split; [done|]). split; [|done].
      rewrite Hids. by apply insert_replicate_boundary.
  - exists s', log. rewrite Nat.sub_diag, app_nil_r in Hids. done.
Qed.

(** X10: a NaN never joins two points.  If [epsilon] is a NaN, or the
    metric returns a NaN for every two objects at different positions,
    then with [min_points >= 2] a run on a fresh instance returns with
    every entry [NOISE] and no cluster, whatever the budget. *)
Theorem nan_distances_are_noise (fuel : nat) (epsilon : float) (min_points : N)
    (r : random_type) (g : rng_type) (e0 : float) (m0 : N) :
  (2 ≤ min_points)%N →
  (PrimFloat.is_nan epsilon = true
   ∨ ∀ i j a b, i ≠ j → objects !! i = Some a → objects !! j = Some b →
                PrimFloat.is_nan (dmetric a b) = true) →
  ∃ s' log,
    dbscan fuel objects dmetric epsilon min_points (fresh r g e0 m0) = Ok (tt, s', log)
    ∧ cluster_ids s' = replicate (length objects) NOISE
    ∧ medoid_ids s' = []
    ∧ total_clusters_ s' = 0%N.
Proof.
  intros Hmp Hnan. apply dbscan_isolated; [done|].
  intros i j a b Hne Ha Hb. apply ltb_nan.
  destruct Hnan as [Heps|Hd]; [by right|left]. by apply (Hd i j).
Qed.


(** *** Members of a cluster and its core points *)

Lemma anchored_step eps mp c p ids ids' :
  (FIRST_CLUSTER ≤ c)%N →
  p < length objects →
  ids !! p = Some c →
  anchored objects dmetric eps mp ids →
  absorbed c (examined objects dmetric eps mp p) ids ids' →
  anchored objects dmetric eps mp ids'.
Proof.
  intros Hc Hp Hpc Hanch Habs q v Hv' Hv2.
  destruct (absorbed_origin _ _ _ _ _ _ Habs Hv') as [Hv|(-> & Hin & _)].
  - destruct (Hanch q v Hv Hv2) as (p' & Hp' & Hcore & Hq & Hl).
    exists p'. repeat (split; [done|]). by eapply absorbed_keeps.
  - apply examined_core in Hin as [Hcore Hin].
    exists p. repeat (split; [done|]). by eapply absorbed_keeps.
Qed.

Lemma anchored_init eps mp c seed ids ids1 :
  (∀ i j a b, objects !! i = Some a → objects !! j = Some b →
              dmetric a b = dmetric b a) →
  seed < length objects →
  is_core objects dmetric eps mp seed = true →
  ids !! seed = Some UNCLASSIFIED →
  density_inv objects dmetric eps mp [] ids →
  anchored objects dmetric eps mp ids →
  labelled c (neighbourhood objects dmetric eps seed) ids ids1 →
  anchored objects dmetric eps mp ids1.
Proof.
  intros Hsym Hseed Hcore Hzero [Hsettle _] Hanch (_ & Hin & Hout) q v Hv' Hv2.
  destruct (decide (q ∈ neighbourhood objects dmetric eps seed)) as [Hnb|Hnb].
  - rewrite Hin in Hv' by done. injection Hv' as <-.
    exists seed. repeat (split; [done|]). apply Hin. by apply neighbourhood_self.
  - rewrite Hout in Hv' by done.
    destruct (Hanch q v Hv' Hv2) as (p & Hp & Hpc & Hq & Hl).
    exists p. repeat (split; [done|]). rewrite Hout; [done|].
    intros Hp_nb.
    destruct (Hsettle p v Hp Hpc Hl) as [Hnil|Hset];
      [unfold FIRST_CLUSTER, UNCLASSIFIED in *; lia
      |by apply not_elem_of_nil in Hnil|].
    destruct (Hset seed (neighbourhood_sym eps Hsym _ _ Hp_nb)) as (w & Hw & Hw2 & _).
    rewrite Hzero in Hw. injection Hw as <-.
    unfold FIRST_CLUSTER, UNCLASSIFIED in *. lia.
Qed.

Lemma anchored_noise eps mp seed ids :
  ids !! seed = Some UNCLASSIFIED →
  anchored objects dmetric eps mp ids →
  anchored objects dmetric eps mp (<[seed := NOISE]> ids).
Proof.
  intros Hzero Hanch q v Hv Hv2.
  assert (Hseed : seed < length ids) by (by apply lookup_lt_Some in Hzero).
  assert (q ≠ seed) as Hq.
  { intros ->. rewrite list_lookup_insert_eq in Hv by done. injection Hv as <-.
    unfold NOISE, FIRST_CLUSTER in *. lia. }
  rewrite list_lookup_insert_ne in Hv by done.
  destruct (Hanch q v Hv Hv2) as (p & Hp & Hpc & Hqp & Hl).
  exists p. repeat (split; [done|]). rewrite list_lookup_insert_ne; [done|].
  intros <-. rewrite Hzero in Hl. injection Hl as <-.
  unfold FIRST_CLUSTER, UNCLASSIFIED in *. lia.
Qed.

Lemma expand_cluster_anchored fuel seed s :
  (∀ i j a b, objects !! i = Some a → objects !! j = Some b →
              dmetric a b = dmetric b a) →
  seed < length objects →
  length objects ≤ length (cluster_ids s) →
  (FIRST_CLUSTER ≤ current_cluster_id_ s)%N →
  is_core objects dmetric (epsilon_ s) (min_points_ s) seed = true →
  length (cluster_ids s) ≤ fuel →
  cluster_ids s !! seed = Some UNCLASSIFIED →
  density_inv objects dmetric (epsilon_ s) (min_points_ s) [] (cluster_ids s) →
  anchored objects dmetric (epsilon_ s) (min_points_ s) (cluster_ids s) →
  ∃ ids' log,
    expand_cluster fuel objects dmetric seed s = Ok (true, with_ids ids' s, log)
    ∧ expansion_inv objects dmetric (epsilon_ s) seed (current_cluster_id_ s)
                    (cluster_ids s) [] ids' log
    ∧ density_inv objects dmetric (epsilon_ s) (min_points_ s) [] ids'
    ∧ anchored objects dmetric (epsilon_ s) (min_points_ s) ids'.
Proof.
  intros Hsym Hseed Hlen Hc Hcore Hfuel Hzero Hdense Hanch.
  destruct (expand_cluster_rule fuel seed s
    (λ pending ids log,
       expansion_inv objects dmetric (epsilon_ s) seed (current_cluster_id_ s)
                     (cluster_ids s) pending ids log
       ∧ density_inv objects dmetric (epsilon_ s) (min_points_ s) pending ids
       ∧ (∀ p, p ∈ pending → ids !! p = Some (current_cluster_id_ s))
       ∧ anchored objects dmetric (epsilon_ s) (min_points_ s) ids))
    as (ids' & log & Hrun & Hexp & Hd & _ & Ha); try done.
  - unfold FIRST_CLUSTER, UNCLASSIFIED in *. lia.
  - intros p rest ids log [Hexp _]. by eapply expansion_inv_range.
  - intros p rest ids log ids' (Hexp & Hd & Hpend & Ha) Habs.
    destruct (expansion_inv_range _ _ _ _ _ _ _ _ Hexp) as [Hp Hn].
    split; [by apply expansion_inv_step|].
    destruct (density_step (epsilon_ s) (min_points_ s) Hsym
                (current_cluster_id_ s) p rest ids ids') as [Hd' Hpend']; try done.
    split; [done|]. split; [done|].
    eapply anchored_step; try done. apply Hpend. by left.
  - intros ids1 Hlab. split; [by apply expansion_inv_init|].
    destruct (density_init (epsilon_ s) (min_points_ s) Hsym
                (current_cluster_id_ s) seed (cluster_ids s) ids1) as [Hd' Hpend'];
      try done.
    split; [done|]. split; [done|].
    by apply (anchored_init (epsilon_ s) (min_points_ s) (current_cluster_id_ s)
                seed (cluster_ids s) ids1).
  - by exists ids', log.
Qed.

(** X11: under a symmetric metric, after a run on a fresh instance every
    entry that holds a cluster id lies in the neighbourhood of a core
    point that holds the same cluster id: each member of a cluster is
    within [epsilon] of a core point of that cluster. *)
Theorem cluster_members_anchored (fuel : nat) (epsilon : float) (min_points : N)
    (r : random_type) (g : rng_type) (e0 : float) (m0 : N) :
  (∀ i j a b, objects !! i = Some a → objects !! j = Some b →
              dmetric a b = dmetric b a) →
  (N.of_nat (length objects) + FIRST_CLUSTER < SIZE_MODULUS)%N →
  length objects ≤ fuel →
  ∃ s' log,
    dbscan fuel objects dmetric epsilon min_points (fresh r g e0 m0) = Ok (tt, s', log)
    ∧ ∀ i v, cluster_ids s' !! i = Some v → (FIRST_CLUSTER ≤ v)%N →
        ∃ p, p < length objects
             ∧ (min_points
                ≤ N.of_nat (length (neighbourhood objects dmetric epsilon p)))%N
             ∧ i ∈ neighbourhood objects dmetric epsilon p
             ∧ cluster_ids s' !! p = Some v.
Proof.
  intros Hsym Hbound Hfuel.
  set (sp := scan_start objects epsilon min_points (fresh r g e0 m0)).
  destruct (dbscan_rule fuel epsilon min_points (fresh r g e0 m0)
    (λ i s log,
       scan_inv sp i s log
       ∧ density_inv objects dmetric epsilon min_points [] (cluster_ids s)
       ∧ anchored objects dmetric epsilon min_points (cluster_ids s)))
    as (s' & log & Hrun & _ & _ & Hanch).
  - split; [apply scan_inv_start|]. simpl. split; [split|].
    + intros p v _ _ Hv Hv0. apply lookup_replicate in Hv as [-> _]. done.
    + intros p _ Hv. apply lookup_replicate in Hv as [Hv _]. done.
    + intros q v Hv Hv2. apply lookup_replicate in Hv as [-> _].
      unfold FIRST_CLUSTER, UNCLASSIFIED in *. lia.
  - intros i s log Hi (Hscan & Hdense & Hanch).
    pose proof Hscan as (Heps & Hmp & Hlen & (ms & Hms) & _).
    simpl in Heps, Hmp, Hlen. rewrite length_replicate in Hlen.
    assert (is_Some (cluster_ids s !! i)) as [v Hv].
    { apply lookup_lt_is_Some. lia. }
    destruct (decide (v = UNCLASSIFIED)) as [->|Hne].
    + destruct (is_core objects dmetric (epsilon_ s) (min_points_ s) i) eqn:Hcore.
      * destruct (expand_cluster_anchored fuel i s)
          as (ids' & lg & Hexp & Hinv & Hd & Ha); try done; try lia.
        { destruct Hms as (_ & H2 & _). rewrite H2. simpl. lia. }
        { by rewrite Heps, Hmp. }
        { by rewrite Heps, Hmp. }
        eexists _, _. split; [by eapply scan_step_cluster|].
        split; [eapply scan_inv_cluster; try done; simpl; lia|].
        rewrite Heps, Hmp in Hd, Ha. done.
      * eexists _, _. split; [by apply scan_step_noise|].
        split; [apply scan_inv_noise; [lia|done]|].
        simpl. split; [|by apply anchored_noise].
        apply density_noise; [done| |done]. by rewrite <- Heps, <- Hmp.
    + eexists _, _. split; [by eapply scan_step_skip|].
      split; [by eapply scan_inv_skip|done].
  - exists s', log. split; [done|]. intros i v Hv Hv2.
    destruct (Hanch i v Hv Hv2) as (p & Hp & Hpc%N.leb_le & Hip & Hl).
    by exists p.
Qed.


(** *** The seed-list loop on its own *)

(** X12: the seed-list loop of lines 147-175, started on any list of
    positions of [objects] with a current cluster id other than
    [UNCLASSIFIED], finishes after at most as many iterations as there are
    [UNCLASSIFIED] entries plus elements of the list.  It changes only
    entries that held [UNCLASSIFIED] or [NOISE], to the current cluster
    id, and afterwards no position in the neighbourhood of a core point
    of the starting list is [UNCLASSIFIED]. *)
Theorem expand_seeds_terminates (fuel seed : nat) (pending : list nat)
    (s : density random_type rng_type) :
  (∀ p, p ∈ pending → p < length objects) →
  length objects ≤ length (cluster_ids s) →
  current_cluster_id_ s ≠ UNCLASSIFIED →
  length (unclassified (cluster_ids s)) + length pending ≤ fuel →
  ∃ ids' log,
    expand_seeds fuel objects dmetric seed pending s = Ok (tt, with_ids ids' s, log)
    ∧ length ids' = length (cluster_ids s)
    ∧ (∀ q v, cluster_ids s !! q = Some v →
         ids' !! q = Some v
         ∨ (absorbable v = true ∧ ids' !! q = Some (current_cluster_id_ s)))
    ∧ (∀ p q, p ∈ pending →
         (min_points_ s
          ≤ N.of_nat (length (neighbourhood objects dmetric (epsilon_ s) p)))%N →
         q ∈ neighbourhood objects dmetric (epsilon_ s) p →
         ∃ w, ids' !! q = Some w ∧ w ≠ UNCLASSIFIED).
Proof.
  intros Hpend Hlen Hc Hfuel.
  set (I := λ (pend : list nat) (ids : list N) (_ : list write),
       length ids = length (cluster_ids s)
       ∧ (∀ p, p ∈ pend → p < length objects)
       ∧ (∀ q v, cluster_ids s !! q = Some v →
            ids !! q = Some v
            ∨ (absorbable v = true ∧ ids !! q = Some (current_cluster_id_ s)))
       ∧ (∀ p q, p ∈ pending →
            is_core objects dmetric (epsilon_ s) (min_points_ s) p = true →
            q ∈ neighbourhood objects dmetric (epsilon_ s) p →
            p ∈ pend ∨ ∃ w, ids !! q = Some w ∧ w ≠ UNCLASSIFIED)).
  destruct (expand_seeds_rule seed s I Hc) with (fuel := fuel) (pending := pending)
    (ids := cluster_ids s) (log := @nil write)
    as (ids' & log & Hrun & Hl & _ & Hmono & Hvisited).
  - intros p rest ids log (Hl & Hp & _). split; [apply Hp; by left|lia].
  - intros p rest ids log ids' (Hl & Hp & Hmono & Hvisited) Habs.
    pose proof Habs as (Hl' & Hin & Hout).
    assert (Hnz : ∀ q w, ids !! q = Some w → w ≠ UNCLASSIFIED →
                    ∃ w', ids' !! q = Some w' ∧ w' ≠ UNCLASSIFIED).
    { intros q w Hw Hw0.
      destruct (decide (q ∈ examined objects dmetric (epsilon_ s) (min_points_ s) p))
        as [Hq|Hq].
      - rewrite (Hin q w Hq Hw). destruct (absorbable w); eauto.
      - rewrite Hout by done. eauto. }
    split; [lia|]. split; [|split].
    + intros q [Hq|[_ Hq]%list_elem_of_filter]%elem_of_app;
        [apply Hp; by right | by apply examined_lt in Hq].
    + intros q v Hv. destruct (Hmono q v Hv) as [Hq|[Hab Hq]].
      * destruct (decide (q ∈ examined objects dmetric (epsilon_ s) (min_points_ s) p))
          as [Hqe|Hqe].
        -- rewrite (Hin q v Hqe Hq). destruct (absorbable v); auto.
        -- rewrite Hout by done. auto.
      * right. split; [done|].
        destruct (decide (q ∈ examined objects dmetric (epsilon_ s) (min_points_ s) p))
          as [Hqe|Hqe].
        -- rewrite (Hin q _ Hqe Hq). by destruct (absorbable (current_cluster_id_ s)).
        -- by rewrite Hout.
    + intros p0 q Hp0 Hcore Hq.
      destruct (Hvisited p0 q Hp0 Hcore Hq) as [[->|Hrest]%elem_of_cons|(w & Hw & Hw0)].
      * right. unfold examined in Hin. rewrite Hcore in Hin.
        assert (is_Some (ids !! q)) as [w Hw].
        { apply lookup_lt_is_Some. apply neighbourhood_lt in Hq. lia. }
        rewrite (Hin q w Hq Hw). destruct (absorbable w) eqn:Hab; [by eauto|].
        apply absorbable_false in Hab. exists w. split; [done|].
        unfold FIRST_CLUSTER, UNCLASSIFIED in *. lia.
      * left. apply elem_of_app. by left.
      * right. by eapply Hnz.
  - split; [done|]. split; [done|]. split; [by left|]. intros p q Hp _ _. by left.
  - done.
  - rewrite with_ids_same in Hrun. exists ids', log. split; [done|].
    split; [done|]. split; [done|].
    intros p q Hp Hcore%N.leb_le Hq.
    destruct (Hvisited p q Hp Hcore Hq) as [Hnil|H]; [|done].
    by apply not_elem_of_nil in Hnil.
Qed.


End Specs.

(** ** The random-number members *)

Section Rng.

Context {T random_type rng_type : Type}.
Implicit Types (s : density random_type rng_type).

Lemma rng_blind_ret {A} (a : A) : rng_blind (ret a : M random_type rng_type A).
Proof. by intros r g s. Qed.

Lemma rng_blind_bind {A B} (m : M random_type rng_type A)
    (f : A → M random_type rng_type B) :
  rng_blind m → (∀ a, rng_blind (f a)) → rng_blind (bind m f).
Proof.
  intros Hm Hf r g s. unfold bind. rewrite Hm.
  destruct (m s) as [[[a s1] l1]| |]; simpl; [|done..].
  rewrite Hf. by destruct (f a s1) as [[[b s2] l2]| |].
Qed.

Lemma rng_blind_gets {A} (f : density random_type rng_type → A) :
  (∀ r g s, f (reseed r g s) = f s) → rng_blind (gets f).
Proof. intros Hf r g s. unfold gets. simpl. by rewrite Hf. Qed.

Lemma rng_blind_modify (f : density random_type rng_type → density random_type rng_type) :
  (∀ r g s, f (reseed r g s) = reseed r g (f s)) → rng_blind (modify f).
Proof. intros Hf r g s. unfold modify. simpl. by rewrite Hf. Qed.

Lemma rng_blind_object_at (objects : list T) i :
  rng_blind (object_at (random_type := random_type) (rng_type := rng_type) objects i).
Proof. intros r g s. unfold object_at. by destruct (objects !! i). Qed.

Lemma rng_blind_get_cluster_id i :
  rng_blind (get_cluster_id (random_type := random_type) (rng_type := rng_type) i).
Proof. intros r g s. unfold get_cluster_id. simpl. by destruct (cluster_ids s !! i). Qed.

Lemma rng_blind_set_cluster_id st seed i v :
  rng_blind (set_cluster_id (random_type := random_type) (rng_type := rng_type) st seed i v).
Proof. intros r g s. unfold set_cluster_id. simpl. by destruct (cluster_ids s !! i). Qed.

Lemma rng_blind_out_of_fuel {A} :
  rng_blind (out_of_fuel (A := A) (random_type := random_type) (rng_type := rng_type)).
Proof. by intros r g s. Qed.

Lemma rng_blind_foldM {A B} (body : B → A → M random_type rng_type B) l b :
  (∀ b x, rng_blind (body b x)) → rng_blind (foldM body l b).
Proof.
  intros Hbody. revert b. induction l as [|x l IH]; intros b; simpl.
  - apply rng_blind_ret.
  - apply rng_blind_bind; [apply Hbody | apply IH].
Qed.

Ltac rng_blind_step :=
  first
    [ apply rng_blind_ret
    | apply rng_blind_out_of_fuel
    | apply rng_blind_object_at
    | apply rng_blind_get_cluster_id
    | apply rng_blind_set_cluster_id
    | apply rng_blind_gets; reflexivity
    | apply rng_blind_modify; reflexivity
    | apply rng_blind_bind; [|intros ?]
    | apply rng_blind_foldM; intros ? ?
    | match goal with
      | |- rng_blind (if ?b then _ else _) => destruct b
      end ].

Lemma rng_blind_epsilon_range_query (objects : list T) dmetric i :
  rng_blind (epsilon_range_query (random_type := random_type) (rng_type := rng_type)
               objects dmetric i).
Proof.
  unfold epsilon_range_query, for_range, range_query_step. repeat rng_blind_step.
Qed.

Lemma rng_blind_visit_seed (objects : list T) dmetric seed p :
  rng_blind (visit_seed (random_type := random_type) (rng_type := rng_type)
               objects dmetric seed p).
Proof.
  unfold visit_seed. apply rng_blind_bind; [apply rng_blind_epsilon_range_query|].
  intros l. unfold absorb_neighbours, absorb_step. repeat rng_blind_step.
Qed.

Lemma rng_blind_expand_seeds fuel (objects : list T) dmetric seed l :
  rng_blind (expand_seeds (random_type := random_type) (rng_type := rng_type)
               fuel objects dmetric seed l).
Proof.
  revert l. induction fuel as [|fuel IH]; intros [|p rest]; simpl;
    try rng_blind_step.
  - apply rng_blind_visit_seed.
  - apply IH.
Qed.

Lemma rng_blind_expand_cluster fuel (objects : list T) dmetric seed :
  rng_blind (expand_cluster (random_type := random_type) (rng_type := rng_type)
               fuel objects dmetric seed).
Proof.
  unfold expand_cluster. apply rng_blind_bind; [apply rng_blind_epsilon_range_query|].
  intros l. rng_blind_step; [rng_blind_step|]. rng_blind_step.
  - repeat rng_blind_step.
  - unfold label_seed_list, label_seed_step.
    apply rng_blind_bind; [repeat rng_blind_step|]. intros l'.
    apply rng_blind_bind; [apply rng_blind_expand_seeds|]. intros _.
    apply rng_blind_ret.
Qed.

Lemma rng_blind_dbscan fuel (objects : list T) dmetric epsilon min_points :
  rng_blind (dbscan (random_type := random_type) (rng_type := rng_type)
               fuel objects dmetric epsilon min_points).
Proof.
  unfold dbscan, for_range, scan_step.
  do 3 (apply rng_blind_bind; [repeat rng_blind_step|intros _]).
  apply rng_blind_foldM. intros [] i.
  apply rng_blind_bind; [rng_blind_step|]. intros v. rng_blind_step; [|rng_blind_step].
  apply rng_blind_bind; [apply rng_blind_expand_cluster|]. intros b.
  repeat rng_blind_step.
Qed.

Lemma reseed_same s : reseed (random_ s) (rng_ s) s = s.
Proof. by destruct s. Qed.

(** C9: [dbscan], [expand_cluster] and [epsilon_range_query] neither read
    nor advance the random-number members: run on the same object with any
    other random-number state they have the same outcome, with the same
    value, log, assignment array, medoid list and counters, and each leaves
    the random-number members as they were.  So two runs of [dbscan] on
    instances that agree on everything but the random-number state end
    with identical arrays, medoid lists and cluster counts. *)
Theorem dbscan_deterministic (fuel : nat) (objects : list T) (dmetric : T → T → float)
    (epsilon : float) (min_points : N) (i : nat)
    (s : density random_type rng_type) (r : random_type) (g : rng_type) :
  dbscan fuel objects dmetric epsilon min_points (reseed r g s)
  = on_state (reseed r g) (dbscan fuel objects dmetric epsilon min_points s)
  ∧ expand_cluster fuel objects dmetric i (reseed r g s)
    = on_state (reseed r g) (expand_cluster fuel objects dmetric i s)
  ∧ epsilon_range_query objects dmetric i (reseed r g s)
    = on_state (reseed r g) (epsilon_range_query objects dmetric i s)
  ∧ match dbscan fuel objects dmetric epsilon min_points s,
          dbscan fuel objects dmetric epsilon min_points (reseed r g s) with
    | Ok (_, s1, l1), Ok (_, s2, l2) =>
        cluster_ids s1 = cluster_ids s2
        ∧ medoid_ids s1 = medoid_ids s2
        ∧ total_clusters_ s1 = total_clusters_ s2
        ∧ current_cluster_id_ s1 = current_cluster_id_ s2
        ∧ l1 = l2
        ∧ random_ s1 = random_ s ∧ rng_ s1 = rng_ s
        ∧ random_ s2 = r ∧ rng_ s2 = g
    | OutOfRange, OutOfRange => True
    | OutOfFuel, OutOfFuel => True
    | _, _ => False
    end.
Proof.
  split; [apply rng_blind_dbscan|].
  split; [apply rng_blind_expand_cluster|].
  split; [apply rng_blind_epsilon_range_query|].
  rewrite rng_blind_dbscan.
  pose proof (rng_blind_dbscan fuel objects dmetric epsilon min_points
                (random_ s) (rng_ s) s) as Hsame.
  rewrite reseed_same in Hsame.
  destruct (dbscan fuel objects dmetric epsilon min_points s) as [[[[] s1] l1]| |];
    simpl; [|done..].
  simpl in Hsame. injection Hsame as Hs1.
  repeat (split; [done|]). rewrite Hs1. done.
Qed.

End Rng.

(** ** The theorems at concrete inputs *)

Lemma pairs_of_list {A} (P : A → A → Prop) (l : list A) :
  Forall (λ a, Forall (λ b, P a b) l) l →
  ∀ i j a b, l !! i = Some a → l !! j = Some b → P a b.
Proof.
  intros Hall i j a b Ha Hb.
  rewrite Forall_lookup in Hall. specialize (Hall i a Ha).
  rewrite Forall_lookup in Hall. by apply (Hall j b).
Qed.

Lemma absdiff_symmetric_border :
  ∀ i j a b, border_objects !! i = Some a → border_objects !! j = Some b →
             absdiff a b = absdiff b a.
Proof. apply pairs_of_list. repeat constructor. Qed.

Lemma epsilon_range_query_exact_witness :
  2 < length border_objects
  ∧ ∃ l,
      epsilon_range_query border_objects absdiff 2 (fresh tt tt 3%float 4%N)
      = Ok (l, fresh tt tt 3%float 4%N, [])
      ∧ (∀ j, j ∈ l ↔
              j < length border_objects
              ∧ (j = 2 ∨ ∃ a b, border_objects !! 2 = Some a
                                ∧ border_objects !! j = Some b
                                ∧ PrimFloat.ltb (absdiff a b) 3%float = true))
      ∧ StronglySorted lt l.
Proof.
  assert (H : 2 < length border_objects) by (simpl; lia).
  split; [exact H|].
  exact (epsilon_range_query_exact border_objects absdiff 2 (fresh tt tt 3%float 4%N) H).
Defined.

Lemma visit_seed_absorbs_witness :
  1 < length [0; 5; 5; 5]%float
  ∧ length [0; 5; 5; 5]%float ≤ length (cluster_ids four_unclassified)
  ∧ ∃ pushed ids' log,
      visit_seed [0; 5; 5; 5]%float absdiff 1 1 four_unclassified
      = Ok (pushed, with_ids ids' four_unclassified, log)
      ∧ expand_seeds 3 [0; 5; 5; 5]%float absdiff 1 [1] four_unclassified
        = prefix_log log (expand_seeds 2 [0; 5; 5; 5]%float absdiff 1 ([] ++ pushed)
                                       (with_ids ids' four_unclassified))
      ∧ NoDup pushed
      ∧ length ids' = length (cluster_ids four_unclassified)
      ∧ ((2 ≤ N.of_nat (length (neighbourhood [0; 5; 5; 5]%float absdiff 1%float 1)))%N →
         (∀ q, q ∈ neighbourhood [0; 5; 5; 5]%float absdiff 1%float 1 →
            ∃ v, cluster_ids four_unclassified !! q = Some v
               ∧ (v = UNCLASSIFIED → q ∈ pushed ∧ ids' !! q = Some 2%N)
               ∧ (v = NOISE → (q ∉ pushed) ∧ ids' !! q = Some 2%N)
               ∧ ((FIRST_CLUSTER ≤ v)%N → (q ∉ pushed) ∧ ids' !! q = Some v))
         ∧ (∀ q, q ∉ neighbourhood [0; 5; 5; 5]%float absdiff 1%float 1 →
              (q ∉ pushed) ∧ ids' !! q = cluster_ids four_unclassified !! q))
      ∧ ((N.of_nat (length (neighbourhood [0; 5; 5; 5]%float absdiff 1%float 1)) < 2)%N →
         pushed = [] ∧ ids' = cluster_ids four_unclassified ∧ log = []).
Proof.
  assert (H1 : 1 < length [0; 5; 5; 5]%float) by (simpl; lia).
  assert (H2 : length [0; 5; 5; 5]%float ≤ length (cluster_ids four_unclassified))
    by (simpl; lia).
  split; [exact H1|]. split; [exact H2|].
  exact (visit_seed_absorbs [0; 5; 5; 5]%float absdiff 2 1 1 [] four_unclassified H1 H2).
Defined.

Lemma expand_cluster_result_witness :
  0 < length [0; 5; 5; 5]%float
  ∧ length [0; 5; 5; 5]%float ≤ length (cluster_ids four_unclassified)
  ∧ current_cluster_id_ four_unclassified ≠ UNCLASSIFIED
  ∧ length (cluster_ids four_unclassified) ≤ 4
  ∧ ∃ b s' log,
      expand_cluster 4 [0; 5; 5; 5]%float absdiff 0 four_unclassified = Ok (b, s', log)
      ∧ (b = false ↔
         (N.of_nat (length (neighbourhood [0; 5; 5; 5]%float absdiff 1%float 0)) < 2)%N)
      ∧ (b = false →
         s' = set_cluster_ids (λ ids, <[0 := NOISE]> ids) four_unclassified
         ∧ cluster_ids s' !! 0 = Some NOISE
         ∧ (∀ j, j ≠ 0 → cluster_ids s' !! j = cluster_ids four_unclassified !! j)
         ∧ medoid_ids s' = medoid_ids four_unclassified
         ∧ current_cluster_id_ s' = current_cluster_id_ four_unclassified
         ∧ total_clusters_ s' = total_clusters_ four_unclassified
         ∧ ∃ old, log = [Write SeedNoise 0 0 old NOISE]).
Proof.
  assert (H1 : 0 < length [0; 5; 5; 5]%float) by (simpl; lia).
  assert (H2 : length [0; 5; 5; 5]%float ≤ length (cluster_ids four_unclassified))
    by (simpl; lia).
  assert (H3 : current_cluster_id_ four_unclassified ≠ UNCLASSIFIED) by (simpl; discriminate).
  assert (H4 : length (cluster_ids four_unclassified) ≤ 4) by (simpl; lia).
  split; [exact H1|]. split; [exact H2|]. split; [exact H3|]. split; [exact H4|].
  exact (expand_cluster_result [0; 5; 5; 5]%float absdiff 4 0 four_unclassified
           H1 H2 H3 H4).
Defined.

Lemma far_objects_far :
  ∀ i j a b, i ≠ j → far_objects !! i = Some a → far_objects !! j = Some b →
             PrimFloat.leb 1%float (absdiff a b) = true.
Proof.
  intros [|[|i]] [|[|j]] a b Hne Ha Hb; try done;
    injection Ha as <-; injection Hb as <-; reflexivity.
Defined.

Lemma all_noise_witness :
  (2 ≤ 2)%N
  ∧ (∀ i j a b, i ≠ j → far_objects !! i = Some a → far_objects !! j = Some b →
                PrimFloat.leb 1%float (absdiff a b) = true)
  ∧ ∃ s' log,
      dbscan 0 far_objects absdiff 1%float 2%N (fresh tt tt 0%float 0%N) = Ok (tt, s', log)
      ∧ cluster_ids s' = replicate (length far_objects) NOISE
      ∧ medoid_ids s' = []
      ∧ total_clusters_ s' = 0%N.
Proof.
  assert (H1 : (2 ≤ 2)%N) by reflexivity.
  split; [exact H1|]. split; [exact far_objects_far|].
  exact (all_noise far_objects absdiff 0 1%float 2%N tt tt 0%float 0%N H1 far_objects_far).
Defined.

Lemma border_objects_fit :
  (N.of_nat (length border_objects) + FIRST_CLUSTER < SIZE_MODULUS)%N.
Proof. reflexivity. Defined.

Lemma border_objects_budget : length border_objects ≤ 7.
Proof. simpl. lia. Defined.

Lemma dbscan_total_witness :
  (N.of_nat (length border_objects) + FIRST_CLUSTER < SIZE_MODULUS)%N
  ∧ length border_objects ≤ 7
  ∧ ∃ s' log,
      dbscan 7 border_objects absdiff 3%float 4%N (fresh tt tt 0%float 0%N)
      = Ok (tt, s', log)
      ∧ length (cluster_ids s') = length border_objects
      ∧ ∀ i, i < length border_objects →
          ∃ v, cluster_ids s' !! i = Some v
               ∧ v ≠ UNCLASSIFIED
               ∧ (v = NOISE
                  ∨ (FIRST_CLUSTER ≤ v < FIRST_CLUSTER + total_clusters_ s')%N).
Proof.
  split; [exact border_objects_fit|]. split; [exact border_objects_budget|].
  exact (dbscan_total border_objects absdiff 7 3%float 4%N tt tt 0%float 0%N
           border_objects_fit border_objects_budget).
Defined.

Lemma medoid_numbering_witness :
  (N.of_nat (length border_objects) + FIRST_CLUSTER < SIZE_MODULUS)%N
  ∧ length border_objects ≤ 7
  ∧ ∃ s' log,
      dbscan 7 border_objects absdiff 3%float 4%N (fresh tt tt 0%float 0%N)
      = Ok (tt, s', log)
      ∧ history (replicate (length border_objects) UNCLASSIFIED) log (cluster_ids s')
      ∧ N.of_nat (length (medoid_ids s')) = total_clusters_ s'
      ∧ current_cluster_id_ s' = (FIRST_CLUSTER + total_clusters_ s')%N
      ∧ StronglySorted lt (medoid_ids s')
      ∧ (∀ k m, medoid_ids s' !! k = Some m →
           m < length border_objects
           ∧ Write SeedNeighbourhood m m UNCLASSIFIED (FIRST_CLUSTER + N.of_nat k)%N ∈ log
           ∧ ∀ w, w ∈ log → w_new w = (FIRST_CLUSTER + N.of_nat k)%N → w_seed w = m)
      ∧ (∀ w, w ∈ log → (FIRST_CLUSTER ≤ w_new w)%N →
           ∃ k, medoid_ids s' !! k = Some (w_seed w)
                ∧ w_new w = (FIRST_CLUSTER + N.of_nat k)%N).
Proof.
  split; [exact border_objects_fit|]. split; [exact border_objects_budget|].
  exact (medoid_numbering border_objects absdiff 7 3%float 4%N tt tt 0%float 0%N
           border_objects_fit border_objects_budget).
Defined.

Lemma writes_respect_labels_witness :
  (FIRST_CLUSTER ≤ current_cluster_id_ (fresh tt tt 0%float 0%N))%N
  ∧ (current_cluster_id_ (fresh tt tt 0%float 0%N) + N.of_nat (length border_objects)
     < SIZE_MODULUS)%N
  ∧ length (cluster_ids (fresh tt tt 0%float 0%N)) + length border_objects ≤ 7
  ∧ ∃ s' log,
      dbscan 7 border_objects absdiff 3%float 4%N (fresh tt tt 0%float 0%N)
      = Ok (tt, s', log)
      ∧ history (cluster_ids (fresh tt tt 0%float 0%N)
                 ++ replicate (length border_objects) UNCLASSIFIED) log (cluster_ids s')
      ∧ ∀ w, w ∈ log →
          (w_old w = UNCLASSIFIED → w_new w = NOISE ∨ (FIRST_CLUSTER ≤ w_new w)%N)
          ∧ (w_old w = NOISE → (FIRST_CLUSTER ≤ w_new w)%N)
          ∧ ((FIRST_CLUSTER ≤ w_old w)%N →
             w_site w = SeedNeighbourhood ∧ (FIRST_CLUSTER ≤ w_new w)%N).
Proof.
  assert (H1 : (FIRST_CLUSTER ≤ current_cluster_id_ (fresh tt tt 0%float 0%N))%N)
    by reflexivity.
  assert (H2 : (current_cluster_id_ (fresh tt tt 0%float 0%N)
                + N.of_nat (length border_objects) < SIZE_MODULUS)%N) by reflexivity.
  assert (H3 : length (cluster_ids (fresh tt tt 0%float 0%N)) + length border_objects ≤ 7)
    by (simpl; lia).
  split; [exact H1|]. split; [exact H2|]. split; [exact H3|].
  exact (writes_respect_labels border_objects absdiff 7 3%float 4%N
           (fresh tt tt 0%float 0%N) H1 H2 H3).
Defined.

Lemma second_run_appends_witness :
  (N.of_nat (length border_objects) + FIRST_CLUSTER < SIZE_MODULUS)%N
  ∧ length border_objects ≤ 7
  ∧ ∃ s1 log1,
      dbscan 7 border_objects absdiff 3%float 4%N (fresh tt tt 0%float 0%N)
      = Ok (tt, s1, log1)
      ∧ ∀ fuel2 epsilon2 min_points2,
          ∃ s2,
            dbscan fuel2 border_objects absdiff epsilon2 min_points2 s1 = Ok (tt, s2, [])
            ∧ cluster_ids s2
              = cluster_ids s1 ++ replicate (length border_objects) UNCLASSIFIED
            ∧ length (cluster_ids s2) = 2 * length border_objects
            ∧ (∀ i, i < length border_objects →
                 cluster_ids s2 !! i = cluster_ids s1 !! i)
            ∧ (∀ i, length border_objects ≤ i < 2 * length border_objects →
                 cluster_ids s2 !! i = Some UNCLASSIFIED)
            ∧ medoid_ids s2 = medoid_ids s1
            ∧ total_clusters_ s2 = total_clusters_ s1
            ∧ current_cluster_id_ s2 = current_cluster_id_ s1.
Proof.
  split; [exact border_objects_fit|]. split; [exact border_objects_budget|].
  exact (second_run_appends border_objects absdiff 7 3%float 4%N tt tt 0%float 0%N
           border_objects_fit border_objects_budget).
Defined.

Lemma density_containment_witness :
  (∀ i j a b, border_objects !! i = Some a → border_objects !! j = Some b →
              absdiff a b = absdiff b a)
  ∧ (N.of_nat (length border_objects) + FIRST_CLUSTER < SIZE_MODULUS)%N
  ∧ length border_objects ≤ 7
  ∧ ∃ s' log,
      dbscan 7 border_objects absdiff 3%float 4%N (fresh tt tt 0%float 0%N)
      = Ok (tt, s', log)
      ∧ ∀ p, p < length border_objects →
          (4 ≤ N.of_nat (length (neighbourhood border_objects absdiff 3%float p)))%N →
          ∀ q, q ∈ neighbourhood border_objects absdiff 3%float p →
            ∃ w, cluster_ids s' !! q = Some w
                 ∧ (FIRST_CLUSTER ≤ w)%N
                 ∧ ((4 ≤ N.of_nat (length (neighbourhood border_objects absdiff 3%float q)))%N →
                    cluster_ids s' !! p = Some w).
Proof.
  split; [exact absdiff_symmetric_border|].
  split; [exact border_objects_fit|]. split; [exact border_objects_budget|].
  exact (density_containment border_objects absdiff 7 3%float 4%N tt tt 0%float 0%N
           absdiff_symmetric_border border_objects_fit border_objects_budget).
Defined.

(** ** The further properties at concrete inputs *)

Lemma four_objects_nonempty : [0; 5; 5; 5]%float ≠ [].
Proof. discriminate. Defined.

Lemma epsilon_range_query_bounds_witness :
  [0; 5; 5; 5]%float ≠ []
  ∧ epsilon_range_query [0; 5; 5; 5]%float absdiff 7 four_unclassified
    = if decide (7 < length [0; 5; 5; 5]%float)
      then Ok (neighbourhood [0; 5; 5; 5]%float absdiff
                 (epsilon_ four_unclassified) 7, four_unclassified, [])
      else OutOfRange.
Proof.
  split; [exact four_objects_nonempty|].
  exact (epsilon_range_query_bounds [0; 5; 5; 5]%float absdiff 7 four_unclassified
           four_objects_nonempty).
Defined.

Lemma expand_cluster_started_witness :
  1 < length [0; 5; 5; 5]%float
  ∧ length [0; 5; 5; 5]%float ≤ length (cluster_ids four_unclassified)
  ∧ current_cluster_id_ four_unclassified ≠ UNCLASSIFIED
  ∧ length (cluster_ids four_unclassified) ≤ 4
  ∧ (min_points_ four_unclassified
     ≤ N.of_nat (length (neighbourhood [0; 5; 5; 5]%float absdiff
                           (epsilon_ four_unclassified) 1)))%N
  ∧ ∃ ids' log,
      expand_cluster 4 [0; 5; 5; 5]%float absdiff 1 four_unclassified
      = Ok (true, set_cluster_ids (λ _, ids') four_unclassified, log)
      ∧ length ids' = length (cluster_ids four_unclassified)
      ∧ (∀ q, q ∈ neighbourhood [0; 5; 5; 5]%float absdiff
                    (epsilon_ four_unclassified) 1 →
              ids' !! q = Some (current_cluster_id_ four_unclassified))
      ∧ (∀ q v, cluster_ids four_unclassified !! q = Some v →
                ids' !! q = Some v
                ∨ ids' !! q = Some (current_cluster_id_ four_unclassified))
      ∧ (∀ q v, cluster_ids four_unclassified !! q = Some v → (FIRST_CLUSTER ≤ v)%N →
                q ∉ neighbourhood [0; 5; 5; 5]%float absdiff
                      (epsilon_ four_unclassified) 1 →
                ids' !! q = Some v)
      ∧ (∀ q, ids' !! q ≠ cluster_ids four_unclassified !! q →
              ∃ p, p < length [0; 5; 5; 5]%float
                   ∧ (min_points_ four_unclassified
                      ≤ N.of_nat (length (neighbourhood [0; 5; 5; 5]%float absdiff
                                            (epsilon_ four_unclassified) p)))%N
                   ∧ q ∈ neighbourhood [0; 5; 5; 5]%float absdiff
                           (epsilon_ four_unclassified) p).
Proof.
  assert (H1 : 1 < length [0; 5; 5; 5]%float) by (simpl; lia).
  assert (H2 : length [0; 5; 5; 5]%float ≤ length (cluster_ids four_unclassified))
    by (simpl; lia).
  assert (H3 : current_cluster_id_ four_unclassified ≠ UNCLASSIFIED) by (simpl; discriminate).
  assert (H4 : length (cluster_ids four_unclassified) ≤ 4) by (simpl; lia).
  assert (H5 : (min_points_ four_unclassified
                ≤ N.of_nat (length (neighbourhood [0; 5; 5; 5]%float absdiff
                                      (epsilon_ four_unclassified) 1)))%N)
    by (by vm_compute).
  split; [exact H1|]. split; [exact H2|]. split; [exact H3|]. split; [exact H4|].
  split; [exact H5|].
  exact (expand_cluster_started [0; 5; 5; 5]%float absdiff 4 1 four_unclassified
           H1 H2 H3 H4 H5).
Defined.

Lemma noise_iff_uncovered_witness :
  (N.of_nat (length border_objects) + FIRST_CLUSTER < SIZE_MODULUS)%N
  ∧ length border_objects ≤ 7
  ∧ ∃ s' log,
      dbscan 7 border_objects absdiff 3%float 4%N (fresh tt tt 0%float 0%N)
      = Ok (tt, s', log)
      ∧ ∀ i, i < length border_objects →
          ∃ v, cluster_ids s' !! i = Some v
               ∧ ((FIRST_CLUSTER ≤ v)%N ↔
                  ∃ p, p < length border_objects
                       ∧ (4 ≤ N.of_nat (length (neighbourhood border_objects absdiff
                                                  3%float p)))%N
                       ∧ i ∈ neighbourhood border_objects absdiff 3%float p)
               ∧ (v = NOISE ↔
                  ∀ p, p < length border_objects →
                       (4 ≤ N.of_nat (length (neighbourhood border_objects absdiff
                                                3%float p)))%N →
                       i ∉ neighbourhood border_objects absdiff 3%float p).
Proof.
  split; [exact border_objects_fit|]. split; [exact border_objects_budget|].
  exact (noise_iff_uncovered border_objects absdiff 7 3%float 4%N tt tt 0%float 0%N
           border_objects_fit border_objects_budget).
Defined.

Lemma far_objects_fit :
  (N.of_nat (length far_objects) + FIRST_CLUSTER < SIZE_MODULUS)%N.
Proof. reflexivity. Defined.

Lemma far_objects_budget : length far_objects ≤ 2.
Proof. simpl. lia. Defined.

Lemma small_min_points_no_noise_witness :
  (1 ≤ 1)%N
  ∧ (N.of_nat (length far_objects) + FIRST_CLUSTER < SIZE_MODULUS)%N
  ∧ length far_objects ≤ 2
  ∧ ∃ s' log,
      dbscan 2 far_objects absdiff 1%float 1%N (fresh tt tt 0%float 0%N)
      = Ok (tt, s', log)
      ∧ ∀ i, i < length far_objects →
          ∃ v, cluster_ids s' !! i = Some v ∧ (FIRST_CLUSTER ≤ v)%N.
Proof.
  assert (H1 : (1 ≤ 1)%N) by reflexivity.
  split; [exact H1|]. split; [exact far_objects_fit|]. split; [exact far_objects_budget|].
  exact (small_min_points_no_noise far_objects absdiff 2 1%float 1%N tt tt 0%float 0%N
           H1 far_objects_fit far_objects_budget).
Defined.

Lemma medoids_are_core_witness :
  (N.of_nat (length border_objects) + FIRST_CLUSTER < SIZE_MODULUS)%N
  ∧ length border_objects ≤ 7
  ∧ ∃ s' log,
      dbscan 7 border_objects absdiff 3%float 4%N (fresh tt tt 0%float 0%N)
      = Ok (tt, s', log)
      ∧ ∀ m, m ∈ medoid_ids s' →
          m < length border_objects
          ∧ (4 ≤ N.of_nat (length (neighbourhood border_objects absdiff 3%float m)))%N
          ∧ ∀ q, q ∈ neighbourhood border_objects absdiff 3%float m →
              ∃ w, cluster_ids s' !! q = Some w ∧ (FIRST_CLUSTER ≤ w)%N.
Proof.
  split; [exact border_objects_fit|]. split; [exact border_objects_budget|].
  exact (medoids_are_core border_objects absdiff 7 3%float 4%N tt tt 0%float 0%N
           border_objects_fit border_objects_budget).
Defined.

Lemma medoids_keep_their_cluster_witness :
  (∀ i j a b, border_objects !! i = Some a → border_objects !! j = Some b →
              absdiff a b = absdiff b a)
  ∧ (N.of_nat (length border_objects) + FIRST_CLUSTER < SIZE_MODULUS)%N
  ∧ length border_objects ≤ 7
  ∧ ∃ s' log,
      dbscan 7 border_objects absdiff 3%float 4%N (fresh tt tt 0%float 0%N)
      = Ok (tt, s', log)
      ∧ (∀ k m, medoid_ids s' !! k = Some m →
           cluster_ids s' !! m = Some (FIRST_CLUSTER + N.of_nat k)%N)
      ∧ (∀ k, (N.of_nat k < total_clusters_ s')%N →
           ∃ m, m < length border_objects
                ∧ cluster_ids s' !! m = Some (FIRST_CLUSTER + N.of_nat k)%N).
Proof.
  split; [exact absdiff_symmetric_border|].
  split; [exact border_objects_fit|]. split; [exact border_objects_budget|].
  exact (medoids_keep_their_cluster border_objects absdiff 7 3%float 4%N tt tt
           0%float 0%N absdiff_symmetric_border border_objects_fit
           border_objects_budget).
Defined.

Lemma dbscan_on_used_instance_witness :
  (FIRST_CLUSTER ≤ current_cluster_id_ used_instance)%N
  ∧ (current_cluster_id_ used_instance + N.of_nat (length far_objects)
     < SIZE_MODULUS)%N
  ∧ length (cluster_ids used_instance) + length far_objects ≤ 6
  ∧ ∃ s' log,
      dbscan 6 far_objects absdiff 1%float 1%N used_instance = Ok (tt, s', log)
      ∧ epsilon_ s' = 1%float
      ∧ min_points_ s' = 1%N
      ∧ length (cluster_ids s')
        = length (cluster_ids used_instance) + length far_objects
      ∧ (∀ j, length far_objects ≤ j →
           cluster_ids s' !! j
           = (cluster_ids used_instance
              ++ replicate (length far_objects) UNCLASSIFIED) !! j)
      ∧ ∃ ms,
          medoid_ids s' = medoid_ids used_instance ++ ms
          ∧ length ms ≤ length far_objects
          ∧ current_cluster_id_ s'
            = (current_cluster_id_ used_instance + N.of_nat (length ms))%N
          ∧ total_clusters_ s'
            = Nat.iter (length ms) size_incr (total_clusters_ used_instance).
Proof.
  assert (H1 : (FIRST_CLUSTER ≤ current_cluster_id_ used_instance)%N) by (by vm_compute).
  assert (H2 : (current_cluster_id_ used_instance + N.of_nat (length far_objects)
                < SIZE_MODULUS)%N) by reflexivity.
  assert (H3 : length (cluster_ids used_instance) + length far_objects ≤ 6)
    by (simpl; lia).
  split; [exact H1|]. split; [exact H2|]. split; [exact H3|].
  exact (dbscan_on_used_instance far_objects absdiff 6 1%float 1%N used_instance
           H1 H2 H3).
Defined.

Lemma near_objects_nonempty : near_objects ≠ [].
Proof. discriminate. Defined.

Lemma near_objects_near :
  ∀ i j a b, i ≠ j → near_objects !! i = Some a → near_objects !! j = Some b →
             PrimFloat.ltb (absdiff a b) 1%float = true.
Proof.
  intros i j a b _. revert i j a b. apply pairs_of_list. repeat constructor.
Defined.

Lemma single_cluster_witness :
  near_objects ≠ []
  ∧ (2 ≤ N.of_nat (length near_objects))%N
  ∧ (∀ i j a b, i ≠ j → near_objects !! i = Some a → near_objects !! j = Some b →
                PrimFloat.ltb (absdiff a b) 1%float = true)
  ∧ length near_objects ≤ 3
  ∧ ∃ s' log,
      dbscan 3 near_objects absdiff 1%float 2%N (fresh tt tt 0%float 0%N)
      = Ok (tt, s', log)
      ∧ cluster_ids s' = replicate (length near_objects) FIRST_CLUSTER
      ∧ medoid_ids s' = [0]
      ∧ total_clusters_ s' = 1%N
      ∧ current_cluster_id_ s' = 3%N.
Proof.
  assert (H2 : (2 ≤ N.of_nat (length near_objects))%N) by (by vm_compute).
  assert (H4 : length near_objects ≤ 3) by (simpl; lia).
  split; [exact near_objects_nonempty|]. split; [exact H2|].
  split; [exact near_objects_near|]. split; [exact H4|].
  exact (single_cluster near_objects absdiff 3 1%float 2%N tt tt 0%float 0%N
           near_objects_nonempty H2 near_objects_near H4).
Defined.

Lemma nan_distances_are_noise_witness :
  (2 ≤ 2)%N
  ∧ (PrimFloat.is_nan PrimFloat.nan = true
     ∨ ∀ i j a b, i ≠ j → near_objects !! i = Some a → near_objects !! j = Some b →
                  PrimFloat.is_nan (absdiff a b) = true)
  ∧ ∃ s' log,
      dbscan 0 near_objects absdiff PrimFloat.nan 2%N (fresh tt tt 0%float 0%N)
      = Ok (tt, s', log)
      ∧ cluster_ids s' = replicate (length near_objects) NOISE
      ∧ medoid_ids s' = []
      ∧ total_clusters_ s' = 0%N.
Proof.
  assert (H1 : (2 ≤ 2)%N) by reflexivity.
  assert (H2 : PrimFloat.is_nan PrimFloat.nan = true
               ∨ ∀ i j a b, i ≠ j → near_objects !! i = Some a →
                            near_objects !! j = Some b →
                            PrimFloat.is_nan (absdiff a b) = true)
    by (left; reflexivity).
  split; [exact H1|]. split; [exact H2|].
  exact (nan_distances_are_noise near_objects absdiff 0 PrimFloat.nan 2%N tt tt
           0%float 0%N H1 H2).
Defined.

Lemma cluster_members_anchored_witness :
  (∀ i j a b, border_objects !! i = Some a → border_objects !! j = Some b →
              absdiff a b = absdiff b a)
  ∧ (N.of_nat (length border_objects) + FIRST_CLUSTER < SIZE_MODULUS)%N
  ∧ length border_objects ≤ 7
  ∧ ∃ s' log,
      dbscan 7 border_objects absdiff 3%float 4%N (fresh tt tt 0%float 0%N)
      = Ok (tt, s', log)
      ∧ ∀ i v, cluster_ids s' !! i = Some v → (FIRST_CLUSTER ≤ v)%N →
          ∃ p, p < length border_objects
               ∧ (4 ≤ N.of_nat (length (neighbourhood border_objects absdiff
                                          3%float p)))%N
               ∧ i ∈ neighbourhood border_objects absdiff 3%float p
               ∧ cluster_ids s' !! p = Some v.
Proof.
  split; [exact absdiff_symmetric_border|].
  split; [exact border_objects_fit|]. split; [exact border_objects_budget|].
  exact (cluster_members_anchored border_objects absdiff 7 3%float 4%N tt tt
           0%float 0%N absdiff_symmetric_border border_objects_fit
           border_objects_budget).
Defined.

Lemma two_seeds_in_range :
  ∀ p, p ∈ [2; 3] → p < length [0; 5; 5; 5]%float.
Proof.
  intros p Hp. repeat (apply elem_of_cons in Hp as [->|Hp]; [simpl; lia|]).
  by apply not_elem_of_nil in Hp.
Defined.

Lemma expand_seeds_terminates_witness :
  (∀ p, p ∈ [2; 3] → p < length [0; 5; 5; 5]%float)
  ∧ length [0; 5; 5; 5]%float ≤ length (cluster_ids four_unclassified)
  ∧ current_cluster_id_ four_unclassified ≠ UNCLASSIFIED
  ∧ length (unclassified (cluster_ids four_unclassified)) + length [2; 3] ≤ 6
  ∧ ∃ ids' log,
      expand_seeds 6 [0; 5; 5; 5]%float absdiff 1 [2; 3] four_unclassified
      = Ok (tt, with_ids ids' four_unclassified, log)
      ∧ length ids' = length (cluster_ids four_unclassified)
      ∧ (∀ q v, cluster_ids four_unclassified !! q = Some v →
           ids' !! q = Some v
           ∨ (absorbable v = true
              ∧ ids' !! q = Some (current_cluster_id_ four_unclassified)))
      ∧ (∀ p q, p ∈ [2; 3] →
           (min_points_ four_unclassified
            ≤ N.of_nat (length (neighbourhood [0; 5; 5; 5]%float absdiff
                                  (epsilon_ four_unclassified) p)))%N →
           q ∈ neighbourhood [0; 5; 5; 5]%float absdiff
                 (epsilon_ four_unclassified) p →
           ∃ w, ids' !! q = Some w ∧ w ≠ UNCLASSIFIED).
Proof.
  assert (H2 : length [0; 5; 5; 5]%float ≤ length (cluster_ids four_unclassified))
    by (simpl; lia).
  assert (H3 : current_cluster_id_ four_unclassified ≠ UNCLASSIFIED) by (simpl; discriminate).
  assert (H4 : length (unclassified (cluster_ids four_unclassified)) + length [2; 3] ≤ 6)
    by (vm_compute; lia).
  split; [exact two_seeds_in_range|]. split; [exact H2|]. split; [exact H3|].
  split; [exact H4|].
  exact (expand_seeds_terminates [0; 5; 5; 5]%float absdiff 6 1 [2; 3] four_unclassified
           two_seeds_in_range H2 H3 H4).
Defined.


(** ** Where the spec and the code part *)

(** Against C1 as stated: in a run on a fresh instance over
    [border_objects], position 3 is given cluster id 2 by the expansion of
    position 2 and is later assigned cluster id 3 by the labelling loop
    (line 137) of the expansion of position 4, which does not look at the
    entry it overwrites. *)
Lemma cluster_id_overwritten :
  ∃ s' log,
    dbscan 7 border_objects absdiff 3%float 4%N (fresh tt tt 0%float 0%N)
    = Ok (tt, s', log)
    ∧ ∃ w, w ∈ log
           ∧ w = Write SeedNeighbourhood 4 3 2%N 3%N
           ∧ (FIRST_CLUSTER ≤ w_old w)%N
           ∧ w_new w ≠ w_old w.
Proof.
  eexists _, _. split; [vm_compute; reflexivity|].
  exists (Write SeedNeighbourhood 4 3 2%N 3%N).
  split; [repeat constructor|]. split; [reflexivity|]. split; [by vm_compute|done].
Qed.

(** Against C2 as stated: with the symmetric metric [absdiff], position 2
    of [border_objects] is a core point and position 3 lies in its
    neighbourhood, yet after the run position 2 holds cluster id 2 and
    position 3 holds cluster id 3. *)
Lemma border_point_leaves_cluster :
  (∀ i j a b, border_objects !! i = Some a → border_objects !! j = Some b →
              absdiff a b = absdiff b a)
  ∧ (4 ≤ N.of_nat (length (neighbourhood border_objects absdiff 3%float 2)))%N
  ∧ 3 ∈ neighbourhood border_objects absdiff 3%float 2
  ∧ ∃ s' log,
      dbscan 7 border_objects absdiff 3%float 4%N (fresh tt tt 0%float 0%N)
      = Ok (tt, s', log)
      ∧ cluster_ids s' !! 2 = Some 2%N
      ∧ cluster_ids s' !! 3 = Some 3%N
      ∧ cluster_ids s' !! 3 ≠ cluster_ids s' !! 2.
Proof.
  split; [exact absdiff_symmetric_border|].
  split; [by vm_compute|].
  split; [vm_compute; repeat constructor|].
  eexists _, _. split; [vm_compute; reflexivity|]. done.
Qed.

(** Against C8 as stated: [min_points = 1] is positive and the two objects
    of [far_objects] are further apart than [epsilon], yet each is a core
    point on its own and starts a cluster: no entry is [NOISE] and two
    clusters are counted. *)
Lemma single_points_form_clusters :
  (0 < 1)%N
  ∧ (∀ i j a b, i ≠ j → far_objects !! i = Some a → far_objects !! j = Some b →
                PrimFloat.leb 1%float (absdiff a b) = true)
  ∧ ∃ s' log,
      dbscan 2 far_objects absdiff 1%float 1%N (fresh tt tt 0%float 0%N)
      = Ok (tt, s', log)
      ∧ cluster_ids s' = [2; 3]%N
      ∧ cluster_ids s' ≠ replicate (length far_objects) NOISE
      ∧ total_clusters_ s' = 2%N.
Proof.
  split; [reflexivity|]. split; [exact far_objects_far|].
  eexists _, _. split; [vm_compute; reflexivity|]. done.
Qed.

(** ** The scenarios of the specification *)

Example scenario_two_clusters :
  run_labels 14 [0; 0; 0; 0; 10; 10; 10]%float 1%float 2%N
  = Some ([2; 2; 2; 2; 3; 3; 3]%N, [0; 4], 2%N).
Proof. vm_compute. reflexivity. Qed.

Example scenario_noise_kept :
  run_labels 8 [0; 5; 5; 5]%float 1%float 2%N
  = Some ([1; 2; 2; 2]%N, [1], 1%N).
Proof. vm_compute. reflexivity. Qed.
